(** * A shallow embedding of the vulnerability aggregator's core

  The development follows the Python sources module by module:
  [src/ids.py], [agent_api.py], [src/db.py], [src/reporting.py],
  [src/processing.py] and [src/autonomous.py].  The first part holds the
  embedding (data and functions), the second part the properties. *)

From Stdlib Require Import ZArith NArith QArith Lia.
From Stdlib Require Import Strings.String Strings.Ascii.
From stdpp Require Import base option list gmap.

Local Open Scope Z_scope.

(* ====================================================================== *)
(** * Part I.  The embedding                                               *)
(* ====================================================================== *)

(** ** Python values shared by all modules *)

Module Py.

(** A Python [str] is a sequence of Unicode code points. *)
Definition char := N.
Definition str := list N.

(** Exceptions the modelled code can raise. *)
Inductive exn :=
| ValueError | TypeError | AttributeError | IndexError | OtherError.

Inductive result (A : Type) :=
| Ok (a : A)
| Raise (e : exn).
Arguments Ok {A} a.
Arguments Raise {A} e.

Definition bind {A B} (m : result A) (f : A -> result B) : result B :=
  match m with
  | Ok a => f a
  | Raise e => Raise e
  end.

Definition is_ok {A} (m : result A) : bool :=
  match m with Ok _ => true | Raise _ => false end.

(** A [for] loop over [l] that updates [a] and that an exception
    leaves. *)
Fixpoint fold_loop {A B} (f : A -> B -> result A) (l : list B) (a : A)
    : result A :=
  match l with
  | [] => Ok a
  | x :: l' =>
      match f a x with
      | Ok a' => fold_loop f l' a'
      | Raise e => Raise e
      end
  end.

(** *** Literals: the UTF-8 bytes of a Rocq string, decoded *)

Fixpoint utf8_decode (bs : list N) : str :=
  (match bs with
   | [] => []
   | b0 :: r0 =>
       if b0 <? 128 then b0 :: utf8_decode r0
       else if b0 <? 224 then
         match r0 with
         | b1 :: r1 =>
             (N.land b0 31 * 64 + N.land b1 63) :: utf8_decode r1
         | [] => [b0]
         end
       else if b0 <? 240 then
         match r0 with
         | b1 :: b2 :: r2 =>
             (N.land b0 15 * 4096 + N.land b1 63 * 64 + N.land b2 63)
               :: utf8_decode r2
         | _ => [b0]
         end
       else
         match r0 with
         | b1 :: b2 :: b3 :: r3 =>
             (N.land b0 7 * 262144 + N.land b1 63 * 4096
              + N.land b2 63 * 64 + N.land b3 63) :: utf8_decode r3
         | _ => [b0]
         end
   end)%N.

Definition lit (s : string) : str :=
  utf8_decode (map N_of_ascii (list_ascii_of_string s)).

Definition str_eqb (a b : str) : bool := bool_decide (a = b).

(** *** Character classes *)

Definition in_range (lo hi c : N) : bool := ((lo <=? c) && (c <=? hi))%N.

(** [str.isspace], which is also what [\s] and [str.strip()] use on
    [str] values. *)
Definition is_space (c : N) : bool :=
  in_range 9 13 c || in_range 28 32 c || (c =? 133)%N || (c =? 160)%N
  || (c =? 5760)%N || in_range 8192 8202 c || (c =? 8232)%N
  || (c =? 8233)%N || (c =? 8239)%N || (c =? 8287)%N || (c =? 12288)%N.

(** The code points of the digit zero of every Unicode decimal-digit
    script (general category Nd, Unicode 14); the nine code points after
    each are its digits one to nine. *)
Definition nd_zeros : list N :=
  [ 0x30; 0x660; 0x6f0; 0x7c0; 0x966; 0x9e6; 0xa66; 0xae6; 0xb66; 0xbe6;
    0xc66; 0xce6; 0xd66; 0xde6; 0xe50; 0xed0; 0xf20; 0x1040; 0x1090;
    0x17e0; 0x1810; 0x1946; 0x19d0; 0x1a80; 0x1a90; 0x1b50; 0x1bb0;
    0x1c40; 0x1c50; 0xa620; 0xa8d0; 0xa900; 0xa9d0; 0xa9f0; 0xaa50;
    0xabf0; 0xff10; 0x104a0; 0x10d30; 0x11066; 0x110f0; 0x11136;
    0x111d0; 0x112f0; 0x11450; 0x114d0; 0x11650; 0x116c0; 0x11730;
    0x118e0; 0x11950; 0x11c50; 0x11d50; 0x11da0; 0x16a60; 0x16ac0;
    0x16b50; 0x1d7ce; 0x1d7d8; 0x1d7e2; 0x1d7ec; 0x1d7f6; 0x1e140;
    0x1e2f0; 0x1e950; 0x1fbf0 ]%N.

Fixpoint digit_in (zeros : list N) (c : N) : option N :=
  match zeros with
  | [] => None
  | z :: zs => if in_range z (z + 9) c then Some (c - z)%N
               else digit_in zs c
  end.

(** The decimal value of a digit character, [None] for other characters. *)
Definition digit_value (c : N) : option N := digit_in nd_zeros c.

(** [\d] on a [str] pattern. *)
Definition is_digit (c : N) : bool :=
  match digit_value c with Some _ => true | None => false end.

Definition is_ascii_digit (c : N) : bool := in_range 48 57 c.

(** *** [str.strip()] *)

Fixpoint lstrip (s : str) : str :=
  match s with
  | c :: s' => if is_space c then lstrip s' else s
  | [] => []
  end.

Definition rstrip (s : str) : str := reverse (lstrip (reverse s)).

Definition strip (s : str) : str := rstrip (lstrip s).

(** *** [str.lower()]

    Case mapping of the Basic Latin, Latin-1 and Cyrillic blocks, the
    scripts this program's patterns and column names are written in,
    and of the five code points of other blocks whose lower case lies
    in them: the Kelvin sign (k), the Angstrom sign (a with ring), the
    capital Y with diaeresis, the capital sharp s, and the capital I
    with dot above, which becomes two code points (i and a combining
    dot).  Other code points are returned as they are; Python's full
    Unicode case mapping of those is not modelled. *)
Definition lower_char (c : N) : N :=
  (if in_range 65 90 c then c + 32
   else if in_range 192 222 c && negb (c =? 215) then c + 32
   else if in_range 1040 1071 c then c + 32
   else if in_range 1024 1039 c then c + 80
   else if c =? 8490 then 107
   else if c =? 8491 then 229
   else if c =? 376 then 255
   else if c =? 7838 then 223
   else c)%N.

Definition lower_chars (c : N) : str :=
  if (c =? 304)%N then [105; 775]%N else [lower_char c].

Definition lower (s : str) : str := s ≫= lower_chars.

(** *** [str.split(sep)] for a one-character separator *)

Fixpoint split_on (sep : N) (s : str) : list str :=
  match s with
  | [] => [[]]
  | c :: s' =>
      if (c =? sep)%N then [] :: split_on sep s'
      else match split_on sep s' with
           | p :: ps => (c :: p) :: ps
           | [] => [[c]]
           end
  end.

Fixpoint starts_with (p s : str) : bool :=
  match p, s with
  | [], _ => true
  | a :: p', b :: s' => (a =? b)%N && starts_with p' s'
  | _ :: _, [] => false
  end.

(** *** Decimal text of integers: [str(n)], [f'{n}'], [f'{n:0{w}d}'] *)

Fixpoint digits_acc (fuel : nat) (n : N) (acc : str) : str :=
  match fuel with
  | O => acc
  | S f =>
      let acc' := (48 + n mod 10)%N :: acc in
      if (n / 10 =? 0)%N then acc' else digits_acc f (n / 10)%N acc'
  end.

Definition str_of_N (n : N) : str := digits_acc (S (N.to_nat (N.log2 n))) n [].

Definition minus_sign : N := 45%N.

(** The decimal text of [n]. *)
Definition decimal (n : Z) : str :=
  if n <? 0 then minus_sign :: str_of_N (Z.abs_N n)
  else str_of_N (Z.abs_N n).

(** The text of [n] in a field of [width] characters filled with
    zeros: the sign, then zeros up to [width] characters in all, then
    the digits. *)
Definition zero_padded (width : nat) (n : Z) : str :=
  let ds := str_of_N (Z.abs_N n) in
  if n <? 0
  then minus_sign :: replicate (width - 1 - length ds) 48%N ++ ds
  else replicate (width - length ds) 48%N ++ ds.

(** The interpreter converts between [int] and decimal text up to
    [sys.get_int_max_str_digits()] digits, 4300 unless the program
    changes it (this one does not), and raises [ValueError] beyond. *)
Definition MAX_STR_DIGITS : nat := 4300.

Definition too_long (n : Z) : bool :=
  (MAX_STR_DIGITS <? length (str_of_N (Z.abs_N n)))%nat.

(** [f'{n}'] and [str(n)] *)
Definition format_d (n : Z) : result str :=
  if too_long n then Raise ValueError else Ok (decimal n).

(** [f'{n:0{width}d}'] *)
Definition format_0d (width : nat) (n : Z) : result str :=
  if too_long n then Raise ValueError else Ok (zero_padded width n).

(** The number a run of decimal digits spells. *)
Definition digits_value (p : str) : N :=
  fold_left (fun acc c => 10 * acc + default 0 (digit_value c))%N p 0%N.

(** One step of that fold, named for the statements about it. *)
Definition digit_step (acc c : N) : N :=
  (10 * acc + default 0 (digit_value c))%N.

(** *** [int(s)] for a [str] argument, base ten

    Surrounding white space is dropped, one sign is allowed, the digits
    may be of any decimal script and single underscores may separate
    them; more than [MAX_STR_DIGITS] digits raise [ValueError].  The
    white space of [int()] is that of [str.isspace] without the four
    separators U+001C to U+001F, which it takes for an invalid
    character. *)
Definition is_int_space (c : N) : bool := is_space c && negb (in_range 28 31 c).

Fixpoint lstrip_int (s : str) : str :=
  match s with
  | c :: s' => if is_int_space c then lstrip_int s' else s
  | [] => []
  end.

Definition strip_int (s : str) : str :=
  reverse (lstrip_int (reverse (lstrip_int s))).

Fixpoint int_digits (s : str) (acc : N) (after_digit : bool) : option N :=
  match s with
  | [] => if after_digit then Some acc else None
  | c :: s' =>
      if (c =? 95)%N
      then (if after_digit then int_digits s' acc false else None)
      else match digit_value c with
           | Some d => int_digits s' (10 * acc + d)%N true
           | None => None
           end
  end.

Definition int (s : str) : result Z :=
  let body (t : str) :=
    match int_digits t 0%N false with
    | Some n =>
        if (MAX_STR_DIGITS
            <? length (filter (B := list N) (fun c => is_digit c = true) t))%nat
        then None
        else Some (Z.of_N n)
    | None => None
    end in
  let r :=
    match strip_int s with
    | c :: t =>
        if (c =? 43)%N then body t
        else if (c =? 45)%N then option_map Z.opp (body t)
        else body (c :: t)
    | [] => None
    end in
  match r with
  | Some n => Ok n
  | None => Raise ValueError
  end.

End Py.

#[export] Instance result_ret : MRet Py.result := fun _ a => Py.Ok a.
#[export] Instance result_bind : MBind Py.result := fun _ _ f m => Py.bind m f.

(** ** Regular expressions ([re]) on [str]

  The fragment of Python's pattern language this program uses:
  literals, character classes, concatenation, alternation, greedy
  repetition of a character class, capture groups and the anchors [^]
  and [$].  Matching is by backtracking, leftmost alternative and
  longest repetition first, as in [re]. *)

Module Re.

Definition cclass := N -> bool.

Inductive regex :=
| Chr (c : cclass)
| Lit (s : Py.str)
| Cat (r1 r2 : regex)
| Alt (r1 r2 : regex)
| Star (c : cclass)
| Plus (c : cclass)
| Times (n : nat) (c : cclass)
| Grp (r : regex)
| Bol
| Eol.

Definition one (c : N) : cclass := fun x => (x =? c)%N.
Definition neg (c : cclass) : cclass := fun x => negb (c x).

Fixpoint drop_prefix (p s : Py.str) : option Py.str :=
  match p, s with
  | [], _ => Some s
  | a :: p', b :: s' => if (a =? b)%N then drop_prefix p' s' else None
  | _ :: _, [] => None
  end.

(** [$] without [re.MULTILINE]: the end of the string, or just before a
    line feed that ends the string. *)
Definition at_end (s : Py.str) : bool :=
  match s with
  | [] => true
  | [c] => (c =? 10)%N
  | _ => false
  end.

Section Exec.
Context {R : Type}.

(** A continuation receives the rest of the input, whether the
    position is still the start of the string, and the groups closed
    so far. *)
Definition cont := Py.str -> bool -> list Py.str -> option R.

Fixpoint star (c : cclass) (s : Py.str) (bol : bool)
    (gs : list Py.str) (k : cont) : option R :=
  match s with
  | x :: s' =>
      if c x then
        match star c s' false gs k with
        | Some r => Some r
        | None => k s bol gs
        end
      else k s bol gs
  | [] => k s bol gs
  end.

Fixpoint times (n : nat) (c : cclass) (s : Py.str) (bol : bool)
    (gs : list Py.str) (k : cont) : option R :=
  match n with
  | O => k s bol gs
  | S n' =>
      match s with
      | x :: s' => if c x then times n' c s' false gs k else None
      | [] => None
      end
  end.

Fixpoint exec (r : regex) (s : Py.str) (bol : bool)
    (gs : list Py.str) (k : cont) : option R :=
  match r with
  | Chr c =>
      match s with
      | x :: s' => if c x then k s' false gs else None
      | [] => None
      end
  | Lit l =>
      match drop_prefix l s with
      | Some s' => k s' (bol && bool_decide (l = [])) gs
      | None => None
      end
  | Cat r1 r2 => exec r1 s bol gs (fun s1 b1 g1 => exec r2 s1 b1 g1 k)
  | Alt r1 r2 =>
      match exec r1 s bol gs k with
      | Some r => Some r
      | None => exec r2 s bol gs k
      end
  | Star c => star c s bol gs k
  | Plus c =>
      match s with
      | x :: s' => if c x then star c s' false gs k else None
      | [] => None
      end
  | Times n c => times n c s bol gs k
  | Grp r1 =>
      exec r1 s bol gs
        (fun s1 b1 g1 => k s1 b1 (g1 ++ [take (length s - length s1) s]))
  | Bol => if bol then k s bol gs else None
  | Eol => if at_end s then k s bol gs else None
  end.
End Exec.

(** A match: the matched text ([group(0)]) and the groups in the order
    they close ([group(1)], [group(2)], ...; the patterns of this
    program do not nest groups). *)
Record mtch := { whole : Py.str; groups : list Py.str }.

Definition group (m : mtch) (i : nat) : Py.str :=
  match i with
  | O => whole m
  | S j => default [] (groups m !! j)
  end.

(** An attempt at one position; [bol] tells whether it is position 0. *)
Definition match_at (r : regex) (s : Py.str) (bol : bool) : option mtch :=
  exec r s bol []
    (fun rest _ gs =>
       Some {| whole := take (length s - length rest) s; groups := gs |}).

(** [pattern.match(s)] *)
Definition match_ (r : regex) (s : Py.str) : option mtch := match_at r s true.

(** The scan shared by [finditer], [findall] and [split]: positions are
    tried from left to right and the characters of a match are skipped.
    A match of the empty string is passed over as no match (no pattern
    of this program matches the empty string). *)
Fixpoint scan (r : regex) (s : Py.str) (bol : bool) (skip : nat)
    : list mtch :=
  match s with
  | [] => []
  | _ :: s' =>
      match skip with
      | S n => scan r s' false n
      | O =>
          match match_at r s bol with
          | Some m =>
              match length (whole m) with
              | S n => m :: scan r s' false n
              | O => scan r s' false O
              end
          | None => scan r s' false O
          end
      end
  end.

(** [re.finditer(r, s)] *)
Definition finditer (r : regex) (s : Py.str) : list mtch := scan r s true O.

(** [re.search(r, s)] *)
Definition search (r : regex) (s : Py.str) : option mtch :=
  head (finditer r s).

(** [re.findall(r, s)] for a pattern without groups. *)
Definition findall (r : regex) (s : Py.str) : list Py.str :=
  map whole (finditer r s).

(** [re.split(r, s)] for a pattern without groups. *)
Fixpoint split_go (r : regex) (s : Py.str) (bol : bool) (skip : nat)
    (cur : Py.str) : list Py.str :=
  match s with
  | [] => [reverse cur]
  | x :: s' =>
      match skip with
      | S n => split_go r s' false n cur
      | O =>
          match match_at r s bol with
          | Some m =>
              match length (whole m) with
              | S n => reverse cur :: split_go r s' false n []
              | O => split_go r s' false O (x :: cur)
              end
          | None => split_go r s' false O (x :: cur)
          end
      end
  end.

Definition split (r : regex) (s : Py.str) : list Py.str :=
  split_go r s true O [].

End Re.

(** ** [src/ids.py]: the identifier space *)

Module Ids.

(** [_ID_RE = re.compile(...)], the pattern being "^\d{4}-\d+$". *)
Definition _ID_RE : Re.regex :=
  Re.Cat Re.Bol
    (Re.Cat (Re.Times 4 Py.is_digit)
       (Re.Cat (Re.Chr (Re.one 45))
          (Re.Cat (Re.Plus Py.is_digit) Re.Eol))).

Definition validate_vuln_id (vuln_id : Py.str) : bool :=
  bool_decide (is_Some (Re.match_ _ID_RE vuln_id)).

(** The unpacking [year_str, num_str = vuln_id.split('-')] raises
    [ValueError] unless there are exactly two pieces. *)
Definition _split_id (vuln_id : Py.str) : Py.result (Z * Z * nat) :=
  match Py.split_on 45 vuln_id with
  | [year_str; num_str] =>
      year ← Py.int year_str;
      num ← Py.int num_str;
      mret (year, num, length num_str)
  | _ => Py.Raise Py.ValueError
  end.

(** [f'{year}-{num:0{width}d}'] *)
Definition format_id (year : Z) (width : nat) (num : Z) : Py.result Py.str :=
  y ← Py.format_d year;
  n ← Py.format_0d width num;
  mret (y ++ [45%N] ++ n).

Definition subtract_steps (last_id : Py.str) (steps : Z) : Py.result Py.str :=
  '(year, num, width) ← _split_id last_id;
  let num := Z.max 0 (num - Z.max 0 steps) in
  format_id year width num.

Definition iter_ids (start_id end_id : Py.str) : Py.result (list Py.str) :=
  '(y1, n1, w1) ← _split_id start_id;
  '(y2, n2, w2) ← _split_id end_id;
  if bool_decide (y1 ≠ y2) || (n2 <? n1) then Py.Raise Py.ValueError
  else
    let width := Nat.max w1 w2 in
    mapM (format_id y1 width) (seqZ n1 (n2 + 1 - n1)).

(** The text after the hyphen of an identifier ([num_str]) and the
    number of digits in it. *)
Definition sequence_text (vuln_id : Py.str) : Py.str :=
  match Py.split_on 45 vuln_id with
  | [_; num_str] => num_str
  | _ => []
  end.

Definition digit_width (vuln_id : Py.str) : nat :=
  length (filter (B := list N) (fun c => Py.is_digit c = true)
            (sequence_text vuln_id)).

(** An identifier that ends in a line feed has one more character after
    the hyphen than it has digits there. *)
Definition line_feed_width (vuln_id : Py.str) : nat :=
  if bool_decide (last vuln_id = Some 10%N) then 1 else 0.

(** The shape the specification gives for an accepted identifier: one or
    more digits, a hyphen, one or more digits. *)
Definition digits_dash_digits (s : Py.str) : Prop :=
  exists a b, s = a ++ [45%N] ++ b /\ a <> [] /\ b <> []
              /\ Forall (fun c => Py.is_digit c = true) a
              /\ Forall (fun c => Py.is_digit c = true) b.

(** An identifier in plain form: four ASCII digits of which the first is
    not a zero, a hyphen, one or more ASCII digits, and nothing else. *)
Definition plain_id (s : Py.str) : bool :=
  match s with
  | c1 :: c2 :: c3 :: c4 :: h :: c5 :: num =>
      forallb Py.is_ascii_digit [c1; c2; c3; c4] && negb (c1 =? 48)%N
      && (h =? 45)%N && forallb Py.is_ascii_digit (c5 :: num)
  | _ => false
  end.

End Ids.

(** ** JSON payloads as Python objects *)

Module Json.

(** A Python [float], kept by the three things this program observes
    of one: whether it is zero, its [repr], and the text SQLite makes of
    it in a column of type TEXT ([None] for a NaN, which SQLite takes
    for NULL). *)
Record float := {
  float_nonzero : bool;
  float_repr : Py.str;
  float_sql_text : option Py.str;
}.

(** What [json.loads] and [request.get_json] return.  A [dict] is kept
    as its items in insertion order, keys distinct. *)
#[warnings="-register-all"]
Inductive value :=
| JNull
| JBool (b : bool)
| JInt (n : Z)
| JFloat (f : float)
| JStr (s : Py.str)
| JList (l : list value)
| JDict (d : list (Py.str * value)).

(** Truth value of an object ([bool(v)], [not v], [v or w]). *)
Definition truthy (v : value) : bool :=
  match v with
  | JNull => false
  | JBool b => b
  | JInt n => negb (n =? 0)
  | JFloat f => float_nonzero f
  | JStr s => negb (bool_decide (s = []))
  | JList l => negb (bool_decide (l = []))
  | JDict d => negb (bool_decide (d = []))
  end.

(** The objects whose truth value is false. *)
Definition falsy (v : value) : Prop :=
  v = JNull \/ v = JBool false \/ v = JInt 0 \/ v = JStr [] \/ v = JList []
  \/ v = JDict [] \/ exists f, v = JFloat f /\ float_nonzero f = false.

(** [v or w] *)
Definition or_ (v w : value) : value := if truthy v then v else w.

Fixpoint lookup_item (k : Py.str) (d : list (Py.str * value)) : option value :=
  match d with
  | [] => None
  | (k', v) :: d' => if bool_decide (k' = k) then Some v else lookup_item k d'
  end.

(** [v.get(k)]: [None] for a missing key, [AttributeError] when [v] is
    not a [dict]. *)
Definition get (v : value) (k : Py.str) : Py.result value :=
  match v with
  | JDict d => Py.Ok (default JNull (lookup_item k d))
  | _ => Py.Raise Py.AttributeError
  end.

Fixpoint join (sep : Py.str) (l : list Py.str) : Py.str :=
  match l with
  | [] => []
  | [x] => x
  | x :: l' => x ++ sep ++ join sep l'
  end.

Section Repr.
(** [repr] of a [str] (quoting and escapes) is the interpreter's. *)
Variable repr_str : Py.str -> Py.str.

Fixpoint repr (v : value) : Py.str :=
  match v with
  | JNull => Py.lit "None"
  | JBool true => Py.lit "True"
  | JBool false => Py.lit "False"
  | JInt n => Py.decimal n
  | JFloat f => float_repr f
  | JStr s => repr_str s
  | JList l => Py.lit "[" ++ join (Py.lit ", ") (map repr l) ++ Py.lit "]"
  | JDict d =>
      Py.lit "{"
      ++ join (Py.lit ", ")
           (map (fun kv => repr_str (fst kv) ++ Py.lit ": " ++ repr (snd kv)) d)
      ++ Py.lit "}"
  end.

(** [str(v)] *)
Definition str (v : value) : Py.str :=
  match v with
  | JStr s => s
  | _ => repr v
  end.
End Repr.

(** Whether [str(v)] raises: the text of an [int] of more than
    [Py.MAX_STR_DIGITS] digits is refused ([ValueError]). *)
Fixpoint str_raises (v : value) : bool :=
  match v with
  | JInt n => Py.too_long n
  | JList l => existsb str_raises l
  | JDict d => existsb (fun kv => str_raises (snd kv)) d
  | _ => false
  end.

End Json.

(** ** [src/db.py]: the agents and their software *)

Module Db.
Import Json.

(** A value handed to SQLite as a statement parameter. *)
Inductive sqlval :=
| SNull
| SInt (n : Z)
| SReal (f : float)
| SText (s : Py.str).

(** A [str] is handed to SQLite as UTF-8.  A lone surrogate (U+D800 to
    U+DFFF), which [json.loads] gives for an escape such as "\ud800",
    has no UTF-8 form: [execute] raises [UnicodeEncodeError], a
    [ValueError]. *)
Definition is_surrogate (c : N) : bool := Py.in_range 55296 57343 c.

Definition bind_text (s : Py.str) : Py.result Py.str :=
  if existsb is_surrogate s then Py.Raise Py.ValueError else Py.Ok s.

(** The [sqlite3] module binds [None], [int] (64 bits), [float] and
    [str]; any other object makes [execute] raise. *)
Definition bind_param (v : value) : Py.result sqlval :=
  match v with
  | JNull => Py.Ok SNull
  | JBool b => Py.Ok (SInt (if b then 1 else 0))
  | JInt n =>
      if (- 2 ^ 63 <=? n) && (n <? 2 ^ 63) then Py.Ok (SInt n)
      else Py.Raise Py.OtherError
  | JFloat f => Py.Ok (SReal f)
  | JStr s => s ← bind_text s; mret (SText s)
  | JList _ | JDict _ => Py.Raise Py.OtherError
  end.

(** What a column of type TEXT keeps of a value: NULL, or a text; a
    number is stored as its text. *)
Definition as_text (v : sqlval) : option Py.str :=
  match v with
  | SNull => None
  | SInt n => Some (Py.decimal n)
  | SReal f => float_sql_text f
  | SText s => Some s
  end.

(** A row of table [agents]; every column but the two times is of type
    TEXT. *)
Record agent := {
  agent_id : Py.str;
  hostname : option Py.str;
  os_type : option Py.str;
  os_release : option Py.str;
  os_version : option Py.str;
  architecture : option Py.str;
  ip_address : option Py.str;
  first_seen : Py.str;
  last_seen : Py.str;
}.

(** A row of table [agent_software]. *)
Record software := {
  sw_id : Z;
  sw_agent_id : Py.str;
  name : Py.str;
  version : option Py.str;
  publisher : option Py.str;
  sw_first_seen : Py.str;
  sw_last_seen : Py.str;
}.

(** The tables in row order, and the AUTOINCREMENT counter of
    [agent_software]. *)
Record db := {
  agents : list agent;
  agent_software : list software;
  software_seq : Z;
}.

(** The two clocks read while a report is stored: SQLite's
    [CURRENT_TIMESTAMP] and [datetime.utcnow().isoformat()]. *)
Record clock := { sql_now : Py.str; py_now : Py.str }.

(** [INSERT INTO agents ... ON CONFLICT(agent_id) DO UPDATE SET ...] *)
Fixpoint upsert_agent (new : agent) (rows : list agent) : list agent :=
  match rows with
  | [] => [new]
  | r :: rows' =>
      if bool_decide (agent_id r = agent_id new)
      then {| agent_id := agent_id r;
              hostname := hostname new;
              os_type := os_type new;
              os_release := os_release new;
              os_version := os_version new;
              architecture := architecture new;
              ip_address := ip_address new;
              first_seen := first_seen r;
              last_seen := last_seen new |} :: rows'
      else r :: upsert_agent new rows'
  end.

(** [DELETE FROM agent_software WHERE agent_id = ?] *)
Definition delete_software (aid : Py.str) (rows : list software) : list software :=
  filter (fun r => sw_agent_id r ≠ aid) rows.

(** [(item.get(k) or '').strip()] *)
Definition stripped_field (item : value) (k : Py.str) : Py.result Py.str :=
  v ← get item k;
  match or_ v (JStr []) with
  | JStr s => mret (Py.strip s)
  | _ => Py.Raise Py.AttributeError
  end.

(** [... or None] on a [str] *)
Definition or_none (s : Py.str) : option Py.str :=
  match s with [] => None | _ => Some s end.

(** The loop building [rows]; a row is (name, version, publisher). *)
Fixpoint software_rows (items : list value)
    : Py.result (list (Py.str * option Py.str * option Py.str)) :=
  match items with
  | [] => mret []
  | item :: items' =>
      name ← stripped_field item (Py.lit "name");
      match name with
      | [] => software_rows items'
      | _ =>
          version ← stripped_field item (Py.lit "version");
          publisher ← stripped_field item (Py.lit "publisher");
          rows ← software_rows items';
          mret ((name, or_none version, or_none publisher) :: rows)
      end
  end.

(** What [for item in software_list] goes through: the elements of a
    list, the keys of a dict, the characters of a str; other objects
    are not iterable. *)
Definition iterate (v : value) : Py.result (list value) :=
  match v with
  | JList l => Py.Ok l
  | JDict d => Py.Ok (map (fun kv => JStr (fst kv)) d)
  | JStr s => Py.Ok (map (fun c => JStr [c]) s)
  | _ => Py.Raise Py.TypeError
  end.

(** The parameters of one row of [executemany]: the texts are bound
    one after the other. *)
Definition bind_row (row : Py.str * option Py.str * option Py.str)
    : Py.result (Py.str * option Py.str * option Py.str) :=
  let '(n, v, p) := row in
  n ← bind_text n;
  v ← match v with
      | Some s => s ← bind_text s; mret (Some s)
      | None => mret None
      end;
  p ← match p with
      | Some s => s ← bind_text s; mret (Some s)
      | None => mret None
      end;
  mret (n, v, p).

(** [executemany('INSERT INTO agent_software ...', rows)] *)
Fixpoint insert_software (aid now : Py.str) (next : Z)
    (rows : list (Py.str * option Py.str * option Py.str)) : list software :=
  match rows with
  | [] => []
  | (n, v, p) :: rows' =>
      {| sw_id := next; sw_agent_id := aid; name := n; version := v;
         publisher := p; sw_first_seen := now; sw_last_seen := now |}
        :: insert_software aid now (next + 1) rows'
  end.

(** [upsert_agent_inventory].  The statements run in one transaction
    that is committed at the end; when an exception leaves the function
    the connection is closed without a commit, so the caller keeps the
    database it had. *)
Definition upsert_agent_inventory (t : clock) (aid : Py.str)
    (hostname os_type os_release os_version architecture ip_address : value)
    (software_list : value) (d : db) : Py.result db :=
  aid ← bind_text aid;
  p1 ← bind_param hostname;
  p2 ← bind_param os_type;
  p3 ← bind_param os_release;
  p4 ← bind_param os_version;
  p5 ← bind_param architecture;
  p6 ← bind_param ip_address;
  let new := {| agent_id := aid; hostname := as_text p1;
                os_type := as_text p2; os_release := as_text p3;
                os_version := as_text p4; architecture := as_text p5;
                ip_address := as_text p6; first_seen := sql_now t;
                last_seen := sql_now t |} in
  let agents' := upsert_agent new (agents d) in
  let kept := delete_software aid (agent_software d) in
  if truthy software_list then
    items ← iterate software_list;
    rows ← software_rows items;
    rows ← mapM bind_row rows;
    let inserted := insert_software aid (py_now t) (software_seq d + 1) rows in
    mret {| agents := agents';
            agent_software := kept ++ inserted;
            software_seq := software_seq d + Z.of_nat (length rows) |}
  else
    mret {| agents := agents'; agent_software := kept;
            software_seq := software_seq d |}.

(** The software rows stored for one agent. *)
Definition software_of (aid : Py.str) (d : db) : list software :=
  filter (fun r => sw_agent_id r = aid) (agent_software d).

End Db.

(** ** [agent_api.py]: the ingestion boundary *)

Module AgentApi.
Import Json.

Definition bytes := list Byte.byte.

Inductive error_kind :=
| bad_json
| enc_key_or_enc_data_missing
| private_key_error
| decrypt_failed
| agent_id_missing
| db_error.

(** What the route answers: [jsonify({'status': 'ok'}), 200],
    [jsonify({'error': kind}), status], or the framework's answer to an
    exception that leaves the view function. *)
Inductive response :=
| StatusOk
| Error (kind : error_kind) (status : Z)
| InternalServerError.

Section Service.

(** The library calls of [_decrypt_payload], of which only the results
    matter here. *)
Variable private_key : Type.
(** [base64.b64decode] on a [str] *)
Variable b64decode : Py.str -> Py.result bytes.
(** [priv_key.decrypt(enc_key, OAEP(MGF1(SHA256), SHA256, None))] *)
Variable rsa_oaep_decrypt : private_key -> bytes -> Py.result bytes.
(** [Cipher(AES(key), GCM(nonce, tag)).decryptor()], then
    [update(ciphertext) + finalize()] *)
Variable aes_gcm_decrypt : bytes -> bytes -> bytes -> bytes -> Py.result bytes.
(** [json.loads(plaintext.decode('utf-8'))] *)
Variable json_loads : bytes -> Py.result value.
(** [repr] of a [str] *)
Variable repr_str : Py.str -> Py.str.

(** [base64.b64decode] accepts a [str] (or bytes, which JSON cannot
    carry) and raises [TypeError] on any other object. *)
Definition b64decode_value (v : value) : Py.result bytes :=
  match v with
  | JStr s => b64decode s
  | _ => Py.Raise Py.TypeError
  end.

Definition _decrypt_payload (priv_key : private_key)
    (enc_key_b64 enc_data_b64 : value) : Py.result value :=
  enc_key ← b64decode_value enc_key_b64;
  enc_data ← b64decode_value enc_data_b64;
  aes_key ← rsa_oaep_decrypt priv_key enc_key;
  if (length enc_data <? 12 + 16)%nat then Py.Raise Py.ValueError
  else
    let nonce := take 12 enc_data in
    let tag := take 16 (drop 12 enc_data) in
    let ciphertext := drop 28 enc_data in
    plaintext ← aes_gcm_decrypt aes_key nonce tag ciphertext;
    json_loads plaintext.

(** The body of [agent_report] once the payload is decrypted. *)
Definition store_report (t : Db.clock) (payload : value) (d : Db.db)
    : response * Db.db :=
  match get payload (Py.lit "agent_id"),
        get payload (Py.lit "os_info"),
        get payload (Py.lit "software"),
        get payload (Py.lit "ip_address") with
  | Py.Ok agent_id, Py.Ok os_info0, Py.Ok software0, Py.Ok ip0 =>
      let os_info := or_ os_info0 (JDict []) in
      let software := or_ software0 (JList []) in
      let ip_address := or_ ip0 JNull in
      if negb (truthy agent_id) then (Error agent_id_missing 400, d)
      else
        let saved :=
          aid ← (if str_raises agent_id then Py.Raise Py.ValueError
                 else Py.Ok (Json.str repr_str agent_id));
          hostname ← get os_info (Py.lit "hostname");
          os_type ← get os_info (Py.lit "os_type");
          os_release ← get os_info (Py.lit "os_release");
          os_version ← get os_info (Py.lit "os_version");
          architecture ← get os_info (Py.lit "architecture");
          Db.upsert_agent_inventory t aid
            hostname os_type os_release os_version architecture
            ip_address software d in
        match saved with
        | Py.Ok d' => (StatusOk, d')
        | Py.Raise _ => (Error db_error 500, d)
        end
  | _, _, _, _ => (InternalServerError, d)
  end.

(** [agent_report].  [body] is what [request.get_json(force=True,
    silent=False)] gives, [key_file] what
    [_load_private_key(PRIVATE_KEY_PATH)] gives. *)
Definition agent_report (t : Db.clock) (key_file : Py.result private_key)
    (body : Py.result value) (d : Db.db) : response * Db.db :=
  match body with
  | Py.Raise _ => (Error bad_json 400, d)
  | Py.Ok raw =>
      match get (or_ raw (JDict [])) (Py.lit "enc_key"),
            get (or_ raw (JDict [])) (Py.lit "enc_data") with
      | Py.Ok enc_key, Py.Ok enc_data =>
          if negb (truthy enc_key) || negb (truthy enc_data)
          then (Error enc_key_or_enc_data_missing 400, d)
          else
            match key_file with
            | Py.Raise _ => (Error private_key_error 500, d)
            | Py.Ok priv_key =>
                match _decrypt_payload priv_key enc_key enc_data with
                | Py.Raise _ => (Error decrypt_failed 400, d)
                | Py.Ok payload => store_report t payload d
                end
            end
      | _, _ => (InternalServerError, d)
      end
  end.

(** The payload [agent_report] hands to the code after decryption, when
    the request passes every check before it. *)
Definition report_payload (key_file : Py.result private_key)
    (body : Py.result value) : option value :=
  match body with
  | Py.Ok raw =>
      match get (or_ raw (JDict [])) (Py.lit "enc_key"),
            get (or_ raw (JDict [])) (Py.lit "enc_data"), key_file with
      | Py.Ok enc_key, Py.Ok enc_data, Py.Ok priv_key =>
          if truthy enc_key && truthy enc_data then
            match _decrypt_payload priv_key enc_key enc_data with
            | Py.Ok payload => Some payload
            | Py.Raise _ => None
            end
          else None
      | _, _, _ => None
      end
  | Py.Raise _ => None
  end.

End Service.

(** *** The reported software, in the words of the specification

    An entry of the payload's [software] list is kept when its name is not
    blank; name, version and publisher are stored stripped, an empty
    version or publisher as NULL. *)

Definition text_field (item : value) (k : Py.str) : Py.str :=
  match get item k with
  | Py.Ok (JStr s) => Py.strip s
  | _ => []
  end.

Definition kept_entry (item : value)
    : option (Py.str * option Py.str * option Py.str) :=
  match text_field item (Py.lit "name") with
  | [] => None
  | n => Some (n, Db.or_none (text_field item (Py.lit "version")),
               Db.or_none (text_field item (Py.lit "publisher")))
  end.

Definition reported_entries (payload : value) : list value :=
  match get payload (Py.lit "software") with
  | Py.Ok (JList l) => l
  | _ => []
  end.

Definition stored_entry (r : Db.software)
    : Py.str * option Py.str * option Py.str :=
  (Db.name r, Db.version r, Db.publisher r).

(** [str(agent_id)] of a payload *)
Definition payload_agent_id (repr_str : Py.str -> Py.str) (payload : value)
    : Py.str :=
  match get payload (Py.lit "agent_id") with
  | Py.Ok v => Json.str repr_str v
  | Py.Raise _ => []
  end.

(** *** A concrete stand-in for the libraries

    Used to run the service on concrete requests: standard base64, a
    key that unwraps nothing, and a cipher that is the identity.  The
    properties below are proved for every choice of the library calls. *)

Definition b64_index (c : N) : option N :=
  (if Py.in_range 65 90 c then Some (c - 65)
   else if Py.in_range 97 122 c then Some (c - 71)
   else if Py.in_range 48 57 c then Some (c + 4)
   else if c =? 43 then Some 62
   else if c =? 47 then Some 63
   else None)%N.

Definition byte_of_N (n : N) : Byte.byte :=
  default Byte.x00 (Byte.of_N (n mod 256)%N).

(** Four characters to three bytes; [=] pads the last group. *)
Fixpoint b64_groups (s : Py.str) : Py.result bytes :=
  match s with
  | [] => Py.Ok []
  | a :: b :: c :: e :: s' =>
      match b64_index a, b64_index b with
      | Some x, Some y =>
          let b0 := byte_of_N (x * 4 + y / 16) in
          match b64_index c, b64_index e, s' with
          | Some z, Some w, _ =>
              rest ← b64_groups s';
              mret (b0 :: byte_of_N (y * 16 + z / 4)
                       :: byte_of_N (z * 64 + w) :: rest)
          | Some z, None, [] =>
              if (e =? 61)%N
              then Py.Ok [b0; byte_of_N (y * 16 + z / 4)]
              else Py.Raise Py.ValueError
          | None, None, [] =>
              if (c =? 61)%N && (e =? 61)%N then Py.Ok [b0]
              else Py.Raise Py.ValueError
          | _, _, _ => Py.Raise Py.ValueError
          end
      | _, _ => Py.Raise Py.ValueError
      end
  | _ => Py.Raise Py.ValueError
  end.

Definition toy_b64decode (s : Py.str) : Py.result bytes := b64_groups s.
Definition toy_rsa (_ : unit) (b : bytes) : Py.result bytes := Py.Ok b.
Definition toy_aes (_ _ _ ct : bytes) : Py.result bytes := Py.Ok ct.
Definition toy_repr_str (s : Py.str) : Py.str := [39%N] ++ s ++ [39%N].


(** The plaintext is one byte, the index of the payload in a table. *)
Definition toy_json_loads (payloads : list value) (plaintext : bytes)
    : Py.result value :=
  match plaintext with
  | [b] =>
      match payloads !! N.to_nat (Byte.to_N b) with
      | Some v => Py.Ok v
      | None => Py.Raise Py.ValueError
      end
  | _ => Py.Raise Py.ValueError
  end.

Definition toy_report (payloads : list value) (t : Db.clock)
    (body : Py.result value) (d : Db.db) : response * Db.db :=
  agent_report unit toy_b64decode toy_rsa toy_aes (toy_json_loads payloads)
    toy_repr_str t (Py.Ok tt) body d.

Definition toy_payload (payloads : list value) (body : Py.result value)
    : option value :=
  report_payload unit toy_b64decode toy_rsa toy_aes (toy_json_loads payloads)
    (Py.Ok tt) body.

(** A request whose [enc_data] is 28 zero bytes and then the byte [0],
    [1] or [2], in base64. *)
Definition toy_request (last_group : string) : value :=
  JDict [(Py.lit "enc_key", JStr (Py.lit "QUJD"));
         (Py.lit "enc_data",
          JStr (Py.lit "AAAAAAAAAAAAAAAAAAAAAAAAAAAAAAAAAAAA" ++ Py.lit last_group))].

Definition request0 : value := toy_request "AAA=".
Definition request1 : value := toy_request "AAE=".

Definition payload_a : value :=
  JDict [(Py.lit "agent_id", JStr (Py.lit "host-1"));
         (Py.lit "os_info", JDict [(Py.lit "hostname", JStr (Py.lit "box"))]);
         (Py.lit "software",
          JList [JDict [(Py.lit "name", JStr (Py.lit "Foo"));
                        (Py.lit "version", JStr (Py.lit "1.0"))];
                 JDict [(Py.lit "name", JStr (Py.lit "  "))]])].

Definition payload_b : value :=
  JDict [(Py.lit "agent_id", JStr (Py.lit "host-1"));
         (Py.lit "software",
          JList [JDict [(Py.lit "name", JStr (Py.lit " Bar "));
                        (Py.lit "publisher", JStr (Py.lit "Acme"))]])].

Definition empty_db : Db.db :=
  {| Db.agents := []; Db.agent_software := []; Db.software_seq := 0 |}.

Definition clock0 : Db.clock :=
  {| Db.sql_now := Py.lit "2024-01-01 00:00:00";
     Db.py_now := Py.lit "2024-01-01T00:00:00" |}.

End AgentApi.

(** ** [src/reporting.py]: correlation of software and disclosures *)

Module Reporting.

Record VersionConstraint := {
  op : Py.str;            (* "<", "<=", "==", ">=", ">", "range" *)
  v1 : list Z;
  v2 : option (list Z);
}.

(** The class "[0-9A-Za-zА-Яа-я]"; the pattern of [normalize_text] is
    "[^0-9A-Za-zА-Яа-я]+". *)
Definition alnum (c : N) : bool :=
  Py.in_range 48 57 c || Py.in_range 65 90 c || Py.in_range 97 122 c
  || Py.in_range 1040 1071 c || Py.in_range 1072 1103 c.

Definition normalize_text (s : Py.str) : list Py.str :=
  let tokens := Re.split (Re.Plus (Re.neg alnum)) (Py.lower s) in
  filter (fun t => t ≠ []) tokens.

(** [len(set_a & set_b) / max(len(set_a), len(set_b))].  The quotient of
    two list lengths and its comparison with [0.5] come out the same in
    binary floating point as on the rationals, so the similarity is kept
    as a rational. *)
Definition tokens_similarity (a b : list Py.str) : Q :=
  let set_a : gset Py.str := list_to_set a in
  let set_b : gset Py.str := list_to_set b in
  if bool_decide (set_a = ∅) || bool_decide (set_b = ∅) then 0%Q
  else
    let inter := size (set_a ∩ set_b) in
    (Z.of_nat inter # Pos.of_nat (Nat.max (size set_a) (size set_b)))%Q.

(** [x < y] on similarities *)
Definition Qltb (x y : Q) : bool := negb (Qle_bool y x).

(** [tuple(int(p) for p in parts)] raises when a run of digits is
    longer than [int] accepts. *)
Definition parse_version (s : Py.str) : Py.result (option (list Z)) :=
  match s with
  | [] => mret None
  | _ =>
      match Re.findall (Re.Plus Py.is_digit) s with
      | [] => mret None
      | parts => ver ← mapM Py.int parts; mret (Some ver)
      end
  end.

(** Comparison of tuples of integers, [-1], [0] or [1]. *)
Fixpoint tuple_cmp (a b : list Z) : Z :=
  match a, b with
  | [], [] => 0
  | [], _ :: _ => -1
  | _ :: _, [] => 1
  | x :: a', y :: b' =>
      if x <? y then -1 else if y <? x then 1 else tuple_cmp a' b'
  end.

Definition compare_versions (a b : list Z) : Z :=
  let max_len := Nat.max (length a) (length b) in
  let aa := a ++ replicate (max_len - length a) 0 in
  let bb := b ++ replicate (max_len - length b) 0 in
  tuple_cmp aa bb.

(** The classes "[0-9]" and "[0-9A-Za-z\.\-\_]" *)
Definition digit09 (c : N) : bool := Py.in_range 48 57 c.
Definition verchar (c : N) : bool :=
  Py.in_range 48 57 c || Py.in_range 65 90 c || Py.in_range 97 122 c
  || (c =? 46)%N || (c =? 45)%N || (c =? 95)%N.

(** The version group, written VER in the patterns below: a parenthesised
    "[0-9][0-9A-Za-z\.\-\_]*". *)
Definition version_group : Re.regex :=
  Re.Grp (Re.Cat (Re.Chr digit09) (Re.Star verchar)).

(** "(before|prior to)\s+VER" *)
Definition re_before : Re.regex :=
  Re.Cat (Re.Grp (Re.Alt (Re.Lit (Py.lit "before")) (Re.Lit (Py.lit "prior to"))))
    (Re.Cat (Re.Plus Py.is_space) version_group).

(** "(through)\s+VER" *)
Definition re_through : Re.regex :=
  Re.Cat (Re.Grp (Re.Lit (Py.lit "through")))
    (Re.Cat (Re.Plus Py.is_space) version_group).

(** "(<=|>=|<|>)\s*VER" *)
Definition re_operator : Re.regex :=
  Re.Cat
    (Re.Grp (Re.Alt (Re.Lit (Py.lit "<="))
               (Re.Alt (Re.Lit (Py.lit ">="))
                  (Re.Alt (Re.Lit (Py.lit "<")) (Re.Lit (Py.lit ">"))))))
    (Re.Cat (Re.Star Py.is_space) version_group).

(** "VER\s+and\s+earlier" *)
Definition re_and_earlier : Re.regex :=
  Re.Cat version_group
    (Re.Cat (Re.Plus Py.is_space)
       (Re.Cat (Re.Lit (Py.lit "and"))
          (Re.Cat (Re.Plus Py.is_space) (Re.Lit (Py.lit "earlier"))))).

(** "versions?\s+VER" *)
Definition re_version : Re.regex :=
  Re.Cat (Re.Lit (Py.lit "version"))
    (Re.Cat (Re.Alt (Re.Lit (Py.lit "s")) (Re.Lit []))
       (Re.Cat (Re.Plus Py.is_space) version_group)).

(** One of the [for m in re.finditer(...)] loops: the constraints of the
    matches whose version group parses. *)
Definition constraints_of (r : Re.regex) (ver_group : nat)
    (op_of : Re.mtch -> Py.str) (text : Py.str)
    : Py.result (list VersionConstraint) :=
  found ← mapM (fun m =>
                  ver ← parse_version (Re.group m ver_group);
                  mret (match ver with
                        | Some ver => Some {| op := op_of m; v1 := ver; v2 := None |}
                        | None => None
                        end))
               (Re.finditer r text);
  mret (omap id found).

Definition extract_version_constraints (product : Py.str)
    : Py.result (list VersionConstraint) :=
  match product with
  | [] => mret []
  | _ =>
      let text := Py.lower product in
      c1 ← constraints_of re_before 2 (fun _ => Py.lit "<") text;
      c2 ← constraints_of re_through 2 (fun _ => Py.lit "<=") text;
      c3 ← constraints_of re_operator 2 (fun m => Re.group m 1) text;
      c4 ← constraints_of re_and_earlier 1 (fun _ => Py.lit "<=") text;
      match c1 ++ c2 ++ c3 ++ c4 with
      | [] =>
          match Re.search re_version text with
          | Some m =>
              ver ← parse_version (Re.group m 1);
              mret (match ver with
                    | Some ver => [{| op := Py.lit "=="; v1 := ver; v2 := None |}]
                    | None => []
                    end)
          | None => mret []
          end
      | constraints => mret constraints
      end
  end.

Definition version_satisfies (installed : list Z) (cons : VersionConstraint) : bool :=
  let cmp_res := compare_versions installed (v1 cons) in
  if Py.str_eqb (op cons) (Py.lit "<") then cmp_res =? -1
  else if Py.str_eqb (op cons) (Py.lit "<=") then (cmp_res =? -1) || (cmp_res =? 0)
  else if Py.str_eqb (op cons) (Py.lit "==") then cmp_res =? 0
  else if Py.str_eqb (op cons) (Py.lit ">") then cmp_res =? 1
  else if Py.str_eqb (op cons) (Py.lit ">=") then (cmp_res =? 0) || (cmp_res =? 1)
  else
    match v2 cons with
    | Some w =>
        if Py.str_eqb (op cons) (Py.lit "range")
        then (compare_versions installed (v1 cons) >=? 0)
             && (compare_versions installed w <=? 0)
        else false
    | None => false
    end.

Inductive verdict := vmatch | vmismatch | vunknown.

Definition version_is_vulnerable (installed_version : option Py.str)
    (product_text : Py.str) : Py.result verdict :=
  match installed_version with
  | None | Some [] => mret vunknown
  | Some s =>
      iv ← parse_version s;
      match iv with
      | None => mret vunknown
      | Some iv =>
          constraints ← extract_version_constraints product_text;
          match constraints with
          | [] => mret vunknown
          | _ =>
              let any_match := existsb (version_satisfies iv) constraints in
              let any_contradiction :=
                existsb (fun c => negb (version_satisfies iv c)) constraints in
              mret (if any_match then vmatch
                    else if any_contradiction then vmismatch
                    else vunknown)
          end
      end
  end.

(** A row of [SELECT id, cve, vendor, product, title, cvss, severity, url
    FROM vulnerabilities]; a text column holds a [str] or NULL. *)
Record vuln := {
  v_id : Z;
  cve : option Py.str;
  vendor : option Py.str;
  product : option Py.str;
  title : option Py.str;
  cvss : option Py.str;
  severity : option Py.str;
  url : option Py.str;
}.

(** A value of the result: [{'vuln': v, 'software': [{'row': sw,
    'version_check': vcheck}, ...]}]. *)
Record entry := {
  e_vuln : vuln;
  e_software : list (Db.software * verdict);
}.

Definition SIM_THRESHOLD_NAME : Q := (1 # 2)%Q.
Definition SIM_THRESHOLD_VENDOR : Q := (1 # 2)%Q.

(** [x or ''] on a text column *)
Definition or_empty (x : option Py.str) : Py.str := default [] x.

(** [soft_by_agent.get(agent_id, [])] *)
Fixpoint get_soft (soft_by_agent : list (Py.str * list Db.software))
    (aid : Py.str) : list Db.software :=
  match soft_by_agent with
  | [] => []
  | (k, rows) :: rest => if bool_decide (k = aid) then rows else get_soft rest aid
  end.

(** [matches.get(vid)], a new entry when there is none, then the append
    to the entry's software list; the dictionary keeps insertion order. *)
Fixpoint add_match (matches : list (Z * entry)) (vid : Z) (v : vuln)
    (item : Db.software * verdict) : list (Z * entry) :=
  match matches with
  | [] => [(vid, {| e_vuln := v; e_software := [item] |})]
  | (k, e) :: rest =>
      if k =? vid
      then (k, {| e_vuln := e_vuln e; e_software := e_software e ++ [item] |}) :: rest
      else (k, e) :: add_match rest vid v item
  end.

(** Steps 1 and 2 of the inner loop: [false] where the source says
    [continue] before the version is looked at. *)
Definition similar_enough (sw_publisher : Py.str)
    (sw_name_tokens sw_pub_tokens : list Py.str) (v : vuln) : bool :=
  let v_product := Py.strip (or_empty (product v)) in
  let v_vendor := Py.strip (or_empty (vendor v)) in
  let prod_tokens :=
    match normalize_text v_product with
    | [] => normalize_text (or_empty (title v))
    | ts => ts
    end in
  match prod_tokens with
  | [] => false
  | _ =>
      let sim_name := tokens_similarity sw_name_tokens prod_tokens in
      if Qltb sim_name SIM_THRESHOLD_NAME then false
      else if negb (bool_decide (v_vendor = []))
              && negb (bool_decide (sw_publisher = []))
              && Qltb (tokens_similarity sw_pub_tokens (normalize_text v_vendor))
                   SIM_THRESHOLD_VENDOR
      then false
      else true
  end.

(** The body of the inner loop for one pair: [None] where the source
    says [continue]. *)
Definition check_pair (sw : Db.software) (sw_publisher : Py.str)
    (sw_name_tokens sw_pub_tokens : list Py.str) (v : vuln)
    : Py.result (option verdict) :=
  if similar_enough sw_publisher sw_name_tokens sw_pub_tokens v then
    let v_product := Py.strip (or_empty (product v)) in
    vcheck ← version_is_vulnerable (Db.version sw) v_product;
    mret (match vcheck with
          | vmismatch => None
          | _ => Some vcheck
          end)
  else mret None.

Definition match_vulns_for_agent (agent : Db.agent)
    (soft_by_agent : list (Py.str * list Db.software)) (vulns : list vuln)
    : Py.result (list (Z * entry)) :=
  let agent_soft := get_soft soft_by_agent (Db.agent_id agent) in
  Py.fold_loop
    (fun matches sw =>
       let sw_name := Py.strip (Db.name sw) in
       match sw_name with
       | [] => mret matches
       | _ =>
           let sw_publisher := Py.strip (or_empty (Db.publisher sw)) in
           let sw_name_tokens := normalize_text sw_name in
           let sw_pub_tokens := normalize_text sw_publisher in
           Py.fold_loop
             (fun matches v =>
                vcheck ← check_pair sw sw_publisher sw_name_tokens sw_pub_tokens v;
                mret (match vcheck with
                      | Some vcheck => add_match matches (v_id v) v (sw, vcheck)
                      | None => matches
                      end))
             vulns matches
       end)
    agent_soft [].

(** [similar_enough] on a software row, with the tokens the outer loop
    computes for it. *)
Definition pair_similar (sw : Db.software) (v : vuln) : bool :=
  let sw_publisher := Py.strip (or_empty (Db.publisher sw)) in
  similar_enough sw_publisher (normalize_text (Py.strip (Db.name sw)))
    (normalize_text sw_publisher) v.

(** The constraint of the text "before 7.3.1". *)
Definition before_7_3_1 : VersionConstraint :=
  {| op := Py.lit "<"; v1 := [7; 3; 1]%Z; v2 := None |}.

(** Rows for examples. *)
Definition sample_software (name : string) (version : option string)
    : Db.software :=
  {| Db.sw_id := 1; Db.sw_agent_id := Py.lit "host-1"; Db.name := Py.lit name;
     Db.version := Py.lit <$> version; Db.publisher := None;
     Db.sw_first_seen := []; Db.sw_last_seen := [] |}.

Definition sample_vuln (product : string) : vuln :=
  {| v_id := 1; cve := None; vendor := None; product := Some (Py.lit product);
     title := None; cvss := None; severity := None; url := None |}.

Definition sample_agent : Db.agent :=
  {| Db.agent_id := Py.lit "host-1"; Db.hostname := None;
     Db.os_type := None; Db.os_release := None;
     Db.os_version := None; Db.architecture := None;
     Db.ip_address := None; Db.first_seen := []; Db.last_seen := [] |}.

End Reporting.

(** ** [src/processing.py]: aggregation of the workers' parts *)

Module Processing.

(** A cell of a table: missing ([NaN], [NaT]), a [str] (parts are read
    with [dtype=str]), an integer (the numbering column) or a timestamp
    (the technical sort column). *)
Inductive cell :=
| NaN
| Text (s : Py.str)
| Num (n : Z)
| Stamp (t : Z).

#[export] Instance cell_eq_dec : EqDecision cell.
Proof. solve_decision. Defined.

(** A row maps a column label to its cell; a label without a cell is a
    missing value. *)
Abbreviation row := (gmap Py.str cell).

Definition cell_of (r : row) (c : Py.str) : cell := default NaN (r !! c).

(** A [DataFrame]: the column labels in order and the rows in order. *)
Record frame := {
  columns : list Py.str;
  rows : list row;
}.

Definition empty_frame : frame := {| columns := []; rows := [] |}.

(** [df.empty] *)
Definition is_empty (df : frame) : bool :=
  bool_decide (columns df = []) || bool_decide (rows df = []).

Definition has_column (c : Py.str) (df : frame) : bool :=
  bool_decide (c ∈ columns df).

Definition COL_SOURCE : Py.str := Py.lit "Источник".
Definition COL_DATE : Py.str := Py.lit "Дата".
Definition COL_CVE : Py.str := Py.lit "CVE".
Definition COL_NUMBER : Py.str := Py.lit "№".
Definition COL_SRC_NORM : Py.str := Py.lit "_src_norm".
Definition COL_SORT_DATE : Py.str := Py.lit "_sort_date".

(** [pd.concat(dfs, ignore_index=True, sort=False)]: the union of the
    columns in order of first appearance, the rows one part after the
    other. *)
Definition concat (dfs : list frame) : frame :=
  {| columns :=
       fold_left
         (fun acc df => acc ++ filter (fun c => c ∉ acc) (columns df))
         dfs [];
     rows := dfs ≫= rows |}.

(** [_combine_parts], on the frames [_read_part] gives for the paths. *)
Definition _combine_parts (parts : list frame) : frame :=
  match filter (fun df => is_empty df = false) parts with
  | [] => empty_frame
  | dfs => concat dfs
  end.

(** [df.rename(columns={old: new})] *)
Definition rename_column (old new : Py.str) (df : frame) : frame :=
  {| columns := fmap (fun c => if bool_decide (c = old) then new else c) (columns df);
     rows :=
       fmap (fun r : row =>
              match r !! old with
              | Some v => <[new := v]> (delete old r)
              | None => r
              end)
           (rows df) |}.

Definition source_aliases : list Py.str :=
  [Py.lit "url"; Py.lit "link"; Py.lit "address";
   Py.lit "адрес источника"; Py.lit "источник"].

Definition is_alias (col : Py.str) : Prop :=
  Py.lower (Py.strip col) ∈ source_aliases.

Definition _unify_source_column (df : frame) : frame :=
  if is_empty df then df
  else if has_column COL_SOURCE df then df
  else
    match
      list_find is_alias (columns df)
    with
    | Some (_, col) => rename_column col COL_SOURCE df
    | None => df
    end.

(** [df.assign(c=values)] and [df[c] = values]: an existing column is
    overwritten in place, a new one is appended. *)
Definition assign (c : Py.str) (values : list cell) (df : frame) : frame :=
  {| columns := if has_column c df then columns df else columns df ++ [c];
     rows := zip_with (fun (r : row) v => <[c := v]> r) (rows df) values |}.

(** [df.drop(columns=[c])] *)
Definition drop_column (c : Py.str) (df : frame) : frame :=
  {| columns := filter (fun c' => c' ≠ c) (columns df);
     rows := fmap (fun r : row => delete c r) (rows df) |}.

(** [df.drop_duplicates(subset=[c], keep="last")]: a row is kept when no
    later row has an equal cell in column [c]; missing values count as
    equal to each other. *)
Fixpoint keep_last_by (key : row -> cell) (rs : list row) : list row :=
  match rs with
  | [] => []
  | r :: rs' =>
      if bool_decide (key r ∈ fmap key rs')
      then keep_last_by key rs'
      else r :: keep_last_by key rs'
  end.

Definition keep_last (c : Py.str) (rs : list row) : list row :=
  keep_last_by (fun r => cell_of r c) rs.

Definition drop_duplicates_last (c : Py.str) (df : frame) : frame :=
  {| columns := columns df; rows := keep_last c (rows df) |}.

(** [_apply_output_order]: [df[ordered + tail]] *)
Definition _apply_output_order (df : frame) (friendly_order : list Py.str) : frame :=
  if is_empty df then df
  else
    match friendly_order with
    | [] => df
    | _ =>
        let existing := columns df in
        let ordered := filter (fun c => c ∈ existing) friendly_order in
        let tail := filter (fun c => c ∉ ordered) existing in
        {| columns := ordered ++ tail; rows := rows df |}
    end.

(** *** Sorting *)

(** Comparison of [str] values, code point by code point. *)
Fixpoint str_leb (a b : Py.str) : bool :=
  match a, b with
  | [], _ => true
  | _ :: _, [] => false
  | x :: a', y :: b' =>
      if (x <? y)%N then true else if (y <? x)%N then false else str_leb a' b'
  end.

(** The order of two cells of one kind. *)
Definition cell_leb (a b : cell) : bool :=
  match a, b with
  | Text s, Text t => str_leb s t
  | Num m, Num n => m <=? n
  | Stamp m, Stamp n => m <=? n
  | _, _ => true
  end.

Definition same_kind (a b : cell) : bool :=
  match a, b with
  | Text _, Text _ | Num _, Num _ | Stamp _, Stamp _ => true
  | _, _ => false
  end.

(** Values of several kinds in one column cannot be ordered
    ([TypeError]). *)
Definition sortable (keys : list cell) : bool :=
  match keys with
  | [] => true
  | k :: ks => forallb (same_kind k) ks
  end.

Section Sort.
Context {A : Type} (key : A -> cell).

Fixpoint insert_sorted (x : A) (l : list A) : list A :=
  match l with
  | [] => [x]
  | y :: l' =>
      if cell_leb (key x) (key y) then x :: y :: l'
      else y :: insert_sorted x l'
  end.

(** A stable sort ([kind="mergesort"]). *)
Definition stable_sort (l : list A) : list A := foldr insert_sorted [] l.
End Sort.

(** [df.sort_values(c, ascending=..., kind="mergesort")]: rows with a
    missing key go last in their order; the others are sorted stably,
    for a descending sort by reversing, sorting and reversing. *)
Definition sort_values (c : Py.str) (ascending : bool) (df : frame)
    : Py.result frame :=
  let key (r : row) := cell_of r c in
  let present := filter (fun r => key r ≠ NaN) (rows df) in
  let missing := filter (fun r => key r = NaN) (rows df) in
  if sortable (fmap key present) then
    let sorted :=
      if ascending then stable_sort key present
      else reverse (stable_sort key (reverse present)) in
    Py.Ok {| columns := columns df; rows := sorted ++ missing |}
  else Py.Raise Py.TypeError.

(** [df.insert(loc=pos, column=c, value=values)]: the position must not
    exceed the number of columns ([IndexError]). *)
Definition insert_column (pos : nat) (c : Py.str) (values : list cell)
    (df : frame) : Py.result frame :=
  if (pos <=? length (columns df))%nat then
    Py.Ok {| columns := take pos (columns df) ++ [c] ++ drop pos (columns df);
             rows := zip_with (fun (r : row) v => <[c := v]> r) (rows df) values |}
  else Py.Raise Py.IndexError.

(** [friendly_order.index(x)] *)
Fixpoint index_of (x : Py.str) (l : list Py.str) : option nat :=
  match l with
  | [] => None
  | y :: l' => if bool_decide (y = x) then Some O else S <$> index_of x l'
  end.

(** The position of the numbering column: [friendly_order.index("№")]
    when the order is given and lists it, else 0. *)
Definition number_position (friendly_order : list Py.str) : nat :=
  match friendly_order with
  | [] => O
  | _ => default O (index_of COL_NUMBER friendly_order)
  end.

(** A part as [_read_part] gives it: distinct column labels, none of them
    the technical sort column, and cells that are text or missing (the
    numbering column of an earlier result apart). *)
Definition text_cell (v : cell) : Prop :=
  match v with
  | NaN | Text _ => True
  | Num _ | Stamp _ => False
  end.

Definition text_row (r : row) : Prop :=
  forall c v, r !! c = Some v -> c <> COL_NUMBER -> text_cell v.

Definition part_ok (df : frame) : Prop :=
  NoDup (columns df) /\ (COL_SORT_DATE ∉ columns df) /\ Forall text_row (rows df).

(** Notions used in the proofs: a row [r'] follows a row [r] when it has
    the cells of [r] outside the technical columns and no cell, the
    number apart, that [r] has not; a list of rows is a shuffle of another
    when its rows follow those of the other in some order. *)
Definition technical (c : Py.str) : Prop :=
  c = COL_NUMBER \/ c = COL_SORT_DATE \/ c = COL_SRC_NORM.

Definition follows (r r' : row) : Prop :=
  (forall c, ~ technical c -> r' !! c = r !! c)
  /\ (forall c v, r' !! c = Some v -> c <> COL_NUMBER -> r !! c = Some v).

Definition shuffled (l l' : list row) : Prop :=
  exists rs, rs ≡ₚ l /\ Forall2 follows rs l'.

Section Aggregation.

(** [urllib.parse]: [urlsplit] (scheme, netloc, path, query, fragment),
    [parse_qsl(query, keep_blank_values=True)], [urlencode(pairs,
    doseq=True)] and [urlunsplit]. *)
Variable urlsplit : Py.str -> Py.result (Py.str * Py.str * Py.str * Py.str * Py.str).
Variable parse_qsl : Py.str -> list (Py.str * Py.str).
Variable urlencode : list (Py.str * Py.str) -> Py.str.
Variable urlunsplit : Py.str * Py.str * Py.str * Py.str * Py.str -> Py.str.

(** [pd.to_datetime(column, errors="coerce")]: whether the call raises
    on the column, and otherwise the timestamp of each cell ([None] for
    [NaT]). *)
Variable to_datetime_raises : list cell -> bool.
Variable to_datetime : list cell -> cell -> option Z.

Definition _normalize_url (url : cell) : cell :=
  match url with
  | Text (c :: s) =>
      match urlsplit (c :: s) with
      | Py.Raise _ => url
      | Py.Ok (scheme, netloc, path, query, _) =>
          let query_pairs :=
            filter (fun kv => Py.starts_with (Py.lit "utm_") (Py.lower (fst kv)) = false)
                   (parse_qsl query) in
          let new_query := urlencode query_pairs in
          Text (urlunsplit (scheme, netloc, path, new_query, []))
      end
  | _ => url
  end.

(** The sorting half of [_sort_and_renumber]. *)
Definition sort_step (df : frame) : Py.result frame :=
  if has_column COL_DATE df then
    let column := fmap (fun r => cell_of r COL_DATE) (rows df) in
    if to_datetime_raises column
    then sort_values COL_DATE false df
    else
      let stamps :=
        fmap (fun v => match to_datetime column v with
                       | Some t => Stamp t
                       | None => NaN
                       end) column in
      sort_values COL_SORT_DATE false (assign COL_SORT_DATE stamps df)
  else if has_column COL_CVE df then sort_values COL_CVE true df
  else if has_column COL_SOURCE df then sort_values COL_SOURCE true df
  else Py.Ok df.

(** The numbering half of [_sort_and_renumber]. *)
Definition renumber_step (df : frame) (friendly_order : list Py.str)
    : Py.result frame :=
  let n := length (rows df) in
  let df := if has_column COL_NUMBER df then drop_column COL_NUMBER df else df in
  let pos := number_position friendly_order in
  df ← insert_column pos COL_NUMBER (fmap Num (seqZ 1 (Z.of_nat n))) df;
  mret (if has_column COL_SORT_DATE df then drop_column COL_SORT_DATE df else df).

Definition _sort_and_renumber (df : frame) (friendly_order : list Py.str)
    : Py.result frame :=
  if is_empty df then Py.Ok df
  else
    df ← sort_step df;
    renumber_step df friendly_order.

(** The deduplication step of [_build_final_dataframe]. *)
Definition dedup_by_source (run_raw : frame) : frame :=
  if has_column COL_SOURCE run_raw then
    let norm := fmap (fun r => _normalize_url (cell_of r COL_SOURCE)) (rows run_raw) in
    let run_raw := assign COL_SRC_NORM norm run_raw in
    let run_raw := drop_duplicates_last COL_SRC_NORM run_raw in
    drop_column COL_SRC_NORM run_raw
  else run_raw.

(** The steps of [_build_final_dataframe] after the parts are combined. *)
Definition finish (run_raw : frame) (friendly_order : list Py.str)
    : Py.result frame :=
  let run_raw := _unify_source_column run_raw in
  let run_raw := dedup_by_source run_raw in
  let view := _apply_output_order run_raw friendly_order in
  _sort_and_renumber view friendly_order.

Definition _build_final_dataframe (parts : list frame)
    (friendly_order : list Py.str) : Py.result frame :=
  let run_raw := _combine_parts parts in
  if is_empty run_raw then Py.Ok empty_frame
  else finish run_raw friendly_order.

End Aggregation.

(** *** Stand-ins for [urllib.parse] and [pd.to_datetime]

    Enough of a URL syntax to run the aggregation on concrete parts: the
    query starts at the first [?], the fragment at the first [#], pairs
    are separated by [&] and a key from its value by [=].  Dates are
    taken as the decimal number they spell. *)

Fixpoint cut (sep : N) (s : Py.str) : Py.str * Py.str :=
  match s with
  | [] => ([], [])
  | c :: s' =>
      if (c =? sep)%N then ([], s')
      else let '(a, b) := cut sep s' in (c :: a, b)
  end.

Definition toy_urlsplit (u : Py.str)
    : Py.result (Py.str * Py.str * Py.str * Py.str * Py.str) :=
  let '(before, fragment) := cut 35 u in
  let '(path, query) := cut 63 before in
  Py.Ok ([], [], path, query, fragment).

Definition toy_parse_qsl (q : Py.str) : list (Py.str * Py.str) :=
  match q with
  | [] => []
  | _ => fmap (cut 61) (Py.split_on 38 q)
  end.

Definition toy_urlencode (pairs : list (Py.str * Py.str)) : Py.str :=
  Json.join [38%N] (fmap (fun kv => fst kv ++ [61%N] ++ snd kv) pairs).

Definition toy_urlunsplit (p : Py.str * Py.str * Py.str * Py.str * Py.str) : Py.str :=
  let '(_, _, path, query, _) := p in
  match query with
  | [] => path
  | _ => path ++ [63%N] ++ query
  end.

Definition toy_to_datetime (_ : list cell) (v : cell) : option Z :=
  match v with
  | Text s => match Py.int s with Py.Ok n => Some n | Py.Raise _ => None end
  | _ => None
  end.

(** A part with three records, two of which have the same link once the
    tracking parameter and the fragment are removed. *)
Definition text_record (l : list (string * string)) : row :=
  list_to_map (fmap (fun kv => (Py.lit (fst kv), Text (Py.lit (snd kv)))) l).

Definition sample_part : frame :=
  {| columns := [Py.lit "URL"; Py.lit "CVE"];
     rows :=
       [text_record [("URL", "http://a/x?utm_source=q&id=1#frag"); ("CVE", "CVE-2")]%string;
        text_record [("URL", "http://a/x?id=1"); ("CVE", "CVE-1")]%string;
        text_record [("URL", "http://a/y"); ("CVE", "CVE-0")]%string] |}.

Definition toy_build (parts : list frame) (friendly_order : list Py.str)
    : Py.result frame :=
  _build_final_dataframe toy_urlsplit toy_parse_qsl toy_urlencode toy_urlunsplit
    (fun _ => false) toy_to_datetime parts friendly_order.

End Processing.

(** ** [src/autonomous.py]: the incremental watcher *)

Module Autonomous.

(** What [get_latest_from_news_count] returns: a dict whose ['news_url']
    is a [str] or [None] and whose ['count'] is an [int] or [None]. *)
Record news := {
  news_url : option Py.str;
  count : option Z;
}.

(** The messages put on the status queue. *)
Inductive message :=
| NotRecognized                                  (* [WARN] the top news item was not recognised *)
| NewUpdate (url first latest : Py.str) (count : Z)
| NoNews
| LoopError (e : Py.exn).                        (* [WARN] error of the loop *)

(** What one pass of the loop can change: the file
    [last_seen_news.txt] ([None] while it does not exist), the calls of
    [process_range_from_to] made so far (first and last id), and the
    messages emitted. *)
Record state := {
  checkpoint : option Py.str;
  harvests : list (Py.str * Py.str);
  messages : list message;
}.

Definition emit (m : message) (st : state) : state :=
  {| checkpoint := checkpoint st; harvests := harvests st;
     messages := messages st ++ [m] |}.

(** The body of the [try] of one pass of [while True].  The arguments
    are the answers of the outside world during the pass:
    [get_latest_from_news_count], [get_latest_bdu_id] (a [str], or
    [None]) and whether [process_range_from_to] returns or raises on a
    range.  An exception is caught by [except Exception] and reported;
    [KeyboardInterrupt] and the sleep between passes are left out. *)
Definition poll_once (probe : Py.result news)
    (latest_id : Py.result (option Py.str))
    (harvest : Py.str -> Py.str -> Py.result unit) (st : state) : state :=
  match probe with
  | Py.Raise e => emit (LoopError e) st
  | Py.Ok nw =>
      let cnt := default 0 (count nw) in
      match news_url nw with
      | None | Some [] => emit NotRecognized st
      | Some url =>
          if cnt <=? 0 then emit NotRecognized st
          else
            let last_seen := Py.strip <$> checkpoint st in
            if bool_decide (last_seen ≠ Some url) then
              match latest_id with
              | Py.Raise e => emit (LoopError e) st
              | Py.Ok None => emit (LoopError Py.AttributeError) st
              | Py.Ok (Some latest) =>
                  match Ids.subtract_steps latest (cnt - 1) with
                  | Py.Raise e => emit (LoopError e) st
                  | Py.Ok first =>
                      let st := emit (NewUpdate url first latest cnt) st in
                      let st := {| checkpoint := checkpoint st;
                                   harvests := harvests st ++ [(first, latest)];
                                   messages := messages st |} in
                      match harvest first latest with
                      | Py.Raise e => emit (LoopError e) st
                      | Py.Ok _ =>
                          {| checkpoint := Some url;
                             harvests := harvests st;
                             messages := messages st |}
                      end
                  end
              end
            else emit NoNews st
      end
  end.

End Autonomous.

(* ====================================================================== *)
(** * Part II.  Properties                                                 *)
(* ====================================================================== *)

(** ** Decimal text and [int] *)

Module PyFacts.
Import Py.

Local Open Scope N_scope.

(** [lia] after the quotients and remainders are made opaque. *)
Ltac hide_divmod :=
  repeat match goal with
         | |- context [N.modulo ?a ?b] =>
             let m := fresh "m" in set (m := N.modulo a b) in *; clearbody m
         | |- context [N.div ?a ?b] =>
             let q := fresh "q" in set (q := N.div a b) in *; clearbody q
         | H : context [N.modulo ?a ?b] |- _ =>
             let m := fresh "m" in set (m := N.modulo a b) in *; clearbody m
         | H : context [N.div ?a ?b] |- _ =>
             let q := fresh "q" in set (q := N.div a b) in *; clearbody q
         end.
Ltac dlia := hide_divmod; lia.

Lemma in_range_spec lo hi c : in_range lo hi c = true <-> lo <= c <= hi.
Proof. unfold in_range. rewrite andb_true_iff, !N.leb_le. tauto. Qed.

Lemma digit_in_Some zs c d :
  digit_in zs c = Some d -> exists z, In z zs /\ z <= c <= z + 9 /\ d = c - z.
Proof.
  induction zs as [|z zs IH]; simpl; [discriminate|].
  destruct (in_range z (z + 9) c) eqn:E.
  - intros [= <-]. apply in_range_spec in E. exists z. auto.
  - intros H. destruct (IH H) as (z' & Hin & Hz). exists z'. auto.
Qed.

Lemma digit_value_lt c d : digit_value c = Some d -> d <= 9.
Proof.
  intros H. apply digit_in_Some in H as (z & _ & Hz & ->). lia.
Qed.

(** No decimal digit is a white-space character, a sign, an underscore
    or a line feed. *)
Lemma digit_zero_clear :
  Forall (fun z => forall c, z <= c <= z + 9 ->
            is_space c = false /\ c <> 45 /\ c <> 43 /\ c <> 95 /\ c <> 10)
         nd_zeros.
Proof.
  unfold nd_zeros.
  repeat (apply Forall_cons; split;
          [ intros c Hc; unfold is_space, in_range;
            repeat match goal with
                   | |- context [(?a <=? ?b)] =>
                       destruct (N.leb_spec a b); try lia
                   | |- context [(?a =? ?b)] =>
                       destruct (N.eqb_spec a b); try lia
                   end;
            simpl; repeat split; lia
          | ]).
  apply Forall_nil. exact I.
Qed.

Lemma is_digit_clear c :
  is_digit c = true ->
  is_space c = false /\ c <> 45 /\ c <> 43 /\ c <> 95 /\ c <> 10.
Proof.
  unfold is_digit, digit_value. destruct (digit_in nd_zeros c) eqn:E; [|discriminate].
  intros _. apply digit_in_Some in E as (z & Hin & Hz & _).
  pose proof digit_zero_clear as HF. rewrite Forall_forall in HF.
  apply (HF z); [by apply list_elem_of_In | done].
Qed.

Lemma ascii_digit_value c :
  is_ascii_digit c = true -> digit_value c = Some (c - 48).
Proof.
  unfold is_ascii_digit. intros H. apply in_range_spec in H.
  unfold digit_value, nd_zeros. simpl. 
  assert (in_range 48 (48 + 9) c = true) as ->; [apply in_range_spec; lia|done].
Qed.

Lemma ascii_is_digit c : is_ascii_digit c = true -> is_digit c = true.
Proof. intros H. unfold is_digit. by rewrite (ascii_digit_value c H). Qed.


(** *** The value of a run of digits *)

Lemma digits_value_snoc p c :
  digits_value (p ++ [c]) = 10 * digits_value p + default 0 (digit_value c).
Proof. unfold digits_value. by rewrite fold_left_app. Qed.

Lemma fold_step_shift p acc :
  fold_left digit_step p acc = acc * 10 ^ N.of_nat (length p) + fold_left digit_step p 0.
Proof.
  revert acc. induction p as [|c p IH]; intros acc.
  - simpl. lia.
  - cbn [fold_left length]. rewrite IH, (IH (digit_step 0 c)). unfold digit_step.
    rewrite Nat2N.inj_succ, N.pow_succ_r'. lia.
Qed.

Lemma digits_value_cons c p :
  digits_value (c :: p)
  = default 0 (digit_value c) * 10 ^ N.of_nat (length p) + digits_value p.
Proof.
  unfold digits_value. simpl. fold digit_step. rewrite fold_step_shift.
  unfold digit_step. f_equal.
Qed.

Lemma digits_value_bound p :
  Forall (fun c => is_digit c = true) p ->
  digits_value p < 10 ^ N.of_nat (length p).
Proof.
  induction p as [|c p IH] using rev_ind; intros H.
  - simpl. unfold digits_value. simpl. lia.
  - apply Forall_app in H as [Hp Hc]. apply Forall_cons in Hc as [Hc _].
    rewrite digits_value_snoc, length_app. simpl.
    replace (N.of_nat (length p + 1)) with (N.succ (N.of_nat (length p))) by lia.
    rewrite N.pow_succ_r'. specialize (IH Hp).
    unfold is_digit in Hc. destruct (digit_value c) as [d|] eqn:E; [|done].
    apply digit_value_lt in E. simpl. lia.
Qed.

(** [int_digits] on a run of digits. *)
Lemma int_digits_run p acc b :
  Forall (fun c => is_digit c = true) p ->
  (p <> [] \/ b = true) ->
  int_digits p acc b = Some (fold_left digit_step p acc).
Proof.
  revert acc b. induction p as [|c p IH]; intros acc b H Hne; simpl.
  - destruct Hne as [?| ->]; done.
  - apply Forall_cons in H as [Hc Hp].
    destruct (is_digit_clear c Hc) as (_ & _ & _ & H95 & _).
    destruct (N.eqb_spec c 95); [done|].
    unfold is_digit in Hc. destruct (digit_value c) as [d|] eqn:E; [|done].
    rewrite IH; [|done|by right]. unfold digit_step. by rewrite E.
Qed.

(** *** [str.strip] on text without surrounding white space *)

Lemma lstrip_head c s : is_space c = false -> lstrip (c :: s) = c :: s.
Proof. intros H. simpl. by rewrite H. Qed.

Lemma strip_clean s tail :
  s <> [] ->
  Forall (fun c => is_space c = false) s ->
  tail = [] \/ tail = [10] ->
  strip (s ++ tail) = s.
Proof.
  intros Hne Hs Ht. unfold strip, rstrip.
  destruct s as [|c s]; [done|].
  apply Forall_cons in Hs as Hcs. destruct Hcs as [Hc Hs'].
  rewrite <- app_comm_cons, lstrip_head by done.
  rewrite app_comm_cons.
  assert (lstrip (reverse ((c :: s) ++ tail)) = reverse (c :: s)) as ->.
  { assert (exists d t, reverse (c :: s) = d :: t /\ is_space d = false)
      as (d & t & Hr & Hd).
    { destruct (reverse (c :: s)) as [|d t] eqn:Hr.
      - apply (f_equal (@length _)) in Hr. rewrite length_reverse in Hr. done.
      - exists d, t. split; [done|].
        assert (d ∈ c :: s) as Hin.
        { apply elem_of_reverse. rewrite Hr. left. }
        rewrite Forall_forall in Hs. by apply Hs. }
    destruct Ht as [->| ->].
    - rewrite app_nil_r, Hr. by apply lstrip_head.
    - rewrite reverse_snoc.
      change (lstrip (10 :: reverse (c :: s))) with (lstrip (reverse (c :: s))).
      rewrite Hr. by apply lstrip_head. }
  apply reverse_involutive.
Qed.

(** The same for the white space of [int]. *)
Lemma int_space_is_space c : is_int_space c = true -> is_space c = true.
Proof. unfold is_int_space. by intros [H _]%andb_true_iff. Qed.

Lemma lstrip_int_head c s : is_space c = false -> lstrip_int (c :: s) = c :: s.
Proof.
  intros H. simpl. destruct (is_int_space c) eqn:E; [|done].
  apply int_space_is_space in E. congruence.
Qed.

Lemma strip_int_clean s tail :
  s <> [] ->
  Forall (fun c => is_space c = false) s ->
  tail = [] \/ tail = [10] ->
  strip_int (s ++ tail) = s.
Proof.
  intros Hne Hs Ht. unfold strip_int.
  destruct s as [|c s]; [done|].
  apply Forall_cons in Hs as Hcs. destruct Hcs as [Hc Hs'].
  rewrite <- app_comm_cons, lstrip_int_head by done.
  rewrite app_comm_cons.
  assert (lstrip_int (reverse ((c :: s) ++ tail)) = reverse (c :: s)) as ->.
  { assert (exists d t, reverse (c :: s) = d :: t /\ is_space d = false)
      as (d & t & Hr & Hd).
    { destruct (reverse (c :: s)) as [|d t] eqn:Hr.
      - apply (f_equal (@length _)) in Hr. rewrite length_reverse in Hr. done.
      - exists d, t. split; [done|].
        assert (d ∈ c :: s) as Hin.
        { apply elem_of_reverse. rewrite Hr. left. }
        rewrite Forall_forall in Hs. by apply Hs. }
    destruct Ht as [->| ->].
    - rewrite app_nil_r, Hr. by apply lstrip_int_head.
    - rewrite reverse_snoc.
      change (lstrip_int (10 :: reverse (c :: s)))
        with (lstrip_int (reverse (c :: s))).
      rewrite Hr. by apply lstrip_int_head. }
  apply reverse_involutive.
Qed.

(** *** [str.split] *)

Lemma split_on_clean sep s : sep ∉ s -> split_on sep s = [s].
Proof.
  induction s as [|c s IH]; intros H; simpl; [done|].
  apply not_elem_of_cons in H as [Hc Hs].
  destruct (N.eqb_spec c sep); [congruence|]. by rewrite IH.
Qed.

Lemma split_on_app sep a b :
  sep ∉ a -> split_on sep (a ++ sep :: b) = a :: split_on sep b.
Proof.
  induction a as [|c a IH]; intros H; simpl.
  - by rewrite N.eqb_refl.
  - apply not_elem_of_cons in H as [Hc Ha].
    destruct (N.eqb_spec c sep); [congruence|]. by rewrite IH.
Qed.


(** *** [int] on a run of digits, possibly followed by a line feed *)

Lemma filter_digits p :
  Forall (fun c => is_digit c = true) p ->
  filter (fun c => is_digit c = true) p = p.
Proof.
  induction p as [|c p IH]; intros H; [done|].
  apply Forall_cons in H as [Hc Hp].
  rewrite filter_cons_True by done. by rewrite IH.
Qed.

Lemma int_digit_run p tail :
  p <> [] ->
  Forall (fun c => is_digit c = true) p ->
  tail = [] \/ tail = [10] ->
  int (p ++ tail)
  = if (MAX_STR_DIGITS <? length p)%nat then Raise ValueError
    else Ok (Z.of_N (digits_value p)).
Proof.
  intros Hne Hp Ht. unfold int.
  rewrite strip_int_clean; [|done| |done].
  2:{ eapply Forall_impl; [exact Hp|]. intros c Hc. by apply is_digit_clear. }
  destruct p as [|c t]; [done|].
  apply Forall_cons in Hp as Hct. destruct Hct as [Hc _].
  destruct (is_digit_clear c Hc) as (_ & H45 & H43 & _ & _).
  destruct (N.eqb_spec c 43); [done|]. destruct (N.eqb_spec c 45); [done|].
  rewrite int_digits_run; [|done|by left].
  rewrite filter_digits by done.
  by destruct (MAX_STR_DIGITS <? length (c :: t))%nat.
Qed.

(** *** The decimal text of a number *)

Lemma digits_acc_app f n acc : digits_acc f n acc = digits_acc f n [] ++ acc.
Proof.
  revert n acc. induction f as [|f IH]; intros n acc; simpl; [done|].
  destruct (n / 10 =? 0); [done|].
  rewrite IH, (IH _ [_]), <- app_assoc. done.
Qed.

Lemma digits_acc_S f n :
  digits_acc (S f) n []
  = if n / 10 =? 0 then [48 + n mod 10]
    else digits_acc f (n / 10) [] ++ [48 + n mod 10].
Proof. simpl. destruct (n / 10 =? 0); [done|]. apply digits_acc_app. Qed.

Lemma mod10_digit n : is_ascii_digit (48 + n mod 10) = true.
Proof.
  apply in_range_spec.
  assert (n mod 10 < 10) by (by apply N.mod_upper_bound).
  dlia.
Qed.

Lemma mod10_value n : default 0 (digit_value (48 + n mod 10)) = n mod 10.
Proof. rewrite (ascii_digit_value _ (mod10_digit n)). simpl. dlia. Qed.

Lemma digits_acc_ascii f n :
  Forall (fun c => is_ascii_digit c = true) (digits_acc f n []).
Proof.
  revert n. induction f as [|f IH]; intros n; [constructor|].
  rewrite digits_acc_S. destruct (n / 10 =? 0).
  - repeat constructor. apply mod10_digit.
  - apply Forall_app. split; [apply IH|]. repeat constructor. apply mod10_digit.
Qed.

Lemma digits_acc_nonempty f n : digits_acc (S f) n [] <> [].
Proof.
  rewrite digits_acc_S. destruct (n / 10 =? 0); [done|].
  by destruct (digits_acc f (n / 10) []).
Qed.

Lemma div10_lt n f : n < 10 ^ N.of_nat (S f) -> n / 10 < 10 ^ N.of_nat f.
Proof.
  rewrite Nat2N.inj_succ, N.pow_succ_r'. intros H.
  apply N.Div0.div_lt_upper_bound. lia.
Qed.

Lemma digits_acc_value f n :
  n < 10 ^ N.of_nat f -> digits_value (digits_acc f n []) = n.
Proof.
  revert n. induction f as [|f IH]; intros n Hn.
  - simpl in *. unfold digits_value. simpl. lia.
  - rewrite digits_acc_S. pose proof (N.div_mod' n 10) as Hdm.
    destruct (N.eqb_spec (n / 10) 0) as [E|E].
    + unfold digits_value. simpl. rewrite mod10_value. lia.
    + rewrite digits_value_snoc, mod10_value, IH by (by apply div10_lt). lia.
Qed.

Lemma digits_acc_length f n w :
  n < 10 ^ N.of_nat w -> (1 <= w)%nat -> (length (digits_acc f n []) <= w)%nat.
Proof.
  revert n w. induction f as [|f IH]; intros n w Hn Hw; [simpl; lia|].
  rewrite digits_acc_S. destruct (N.eqb_spec (n / 10) 0) as [E|E]; [simpl; lia|].
  destruct w as [|w]; [lia|]. rewrite length_app. simpl.
  assert (1 <= w)%nat.
  { destruct w; [|lia]. simpl in Hn.
    assert (n / 10 = 0) by (apply N.div_small; lia). done. }
  specialize (IH (n / 10) w (div10_lt _ _ Hn)). lia.
Qed.

Lemma fuel_enough n : n < 10 ^ N.of_nat (S (N.to_nat (N.log2 n))).
Proof.
  rewrite Nat2N.inj_succ, N2Nat.id.
  destruct (N.eq_dec n 0) as [->|Hn]; [simpl; lia|].
  pose proof (N.log2_spec n ltac:(lia)) as [_ H].
  eapply N.lt_le_trans; [exact H|].
  apply N.pow_le_mono_l. lia.
Qed.

Lemma str_of_N_ascii n : Forall (fun c => is_ascii_digit c = true) (str_of_N n).
Proof. apply digits_acc_ascii. Qed.

Lemma str_of_N_digits n : Forall (fun c => is_digit c = true) (str_of_N n).
Proof.
  eapply Forall_impl; [apply str_of_N_ascii|]. intros c. apply ascii_is_digit.
Qed.

Lemma str_of_N_nonempty n : str_of_N n <> [].
Proof. apply digits_acc_nonempty. Qed.

Lemma str_of_N_value n : digits_value (str_of_N n) = n.
Proof. apply digits_acc_value, fuel_enough. Qed.

Lemma str_of_N_length n w :
  n < 10 ^ N.of_nat w -> (1 <= w)%nat -> (length (str_of_N n) <= w)%nat.
Proof. apply digits_acc_length. Qed.

(** Runs of ASCII zeros. *)
Lemma zero_run p :
  Forall (fun c => is_ascii_digit c = true) p ->
  digits_value p = 0 -> p = replicate (length p) 48.
Proof.
  induction p as [|c p IH]; intros Hp Hv; [done|].
  apply Forall_cons in Hp as [Hc Hp].
  rewrite digits_value_cons, (ascii_digit_value c Hc) in Hv. simpl in Hv.
  apply in_range_spec in Hc.
  assert (c - 48 = 0 /\ digits_value p = 0) as [Hc0 Hp0].
  { pose proof (N.pow_nonzero 10 (N.of_nat (length p)) ltac:(lia)). nia. }
  simpl. f_equal; [lia|]. by apply IH.
Qed.

(** Padding the text of the value of a run of ASCII digits with zeros
    to the length of the run gives the run back. *)
Lemma zero_padded_back f p :
  p <> [] ->
  Forall (fun c => is_ascii_digit c = true) p ->
  digits_value p < 10 ^ N.of_nat f ->
  let t := digits_acc f (digits_value p) [] in
  replicate (length p - length t) 48 ++ t = p.
Proof.
  revert f. induction p as [|c p IH] using rev_ind; intros f Hne Hp Hf; [done|].
  destruct f as [|f].
  { simpl in Hf. cbv zeta. simpl digits_acc. rewrite app_nil_r, Nat.sub_0_r.
    symmetry. apply zero_run; [done|lia]. }
  apply Forall_app in Hp as [Hp Hc]. apply Forall_cons in Hc as [Hc _].
  pose proof Hc as Hcr. apply in_range_spec in Hcr.
  rewrite digits_value_snoc, (ascii_digit_value c Hc) in *. simpl default in *.
  set (v := digits_value p) in *.
  assert ((10 * v + (c - 48)) / 10 = v) as Hdiv.
  { symmetry. apply (N.div_unique _ 10 v (c - 48)); lia. }
  assert ((10 * v + (c - 48)) mod 10 = c - 48) as Hmod.
  { symmetry. apply (N.mod_unique _ 10 v (c - 48)); lia. }
  cbv zeta. rewrite digits_acc_S, Hdiv, Hmod.
  replace (48 + (c - 48)) with c by lia.
  rewrite length_app. simpl length.
  destruct (N.eqb_spec v 0) as [E|E].
  - simpl length. replace (length p + 1 - 1)%nat with (length p) by lia.
    rewrite <- (zero_run p Hp E). done.
  - assert (p <> []) as Hpne.
    { intros ->. apply E. done. }
    assert (v < 10 ^ N.of_nat f) as Hvf.
    { rewrite Nat2N.inj_succ, N.pow_succ_r' in Hf. lia. }
    specialize (IH f Hpne Hp Hvf). cbv zeta in IH.
    rewrite length_app. simpl length.
    replace (length p + 1 - (length (digits_acc f v []) + 1))%nat
      with (length p - length (digits_acc f v []))%nat by lia.
    rewrite app_assoc, IH. done.
Qed.

Lemma str_of_N_padded p :
  p <> [] ->
  Forall (fun c => is_ascii_digit c = true) p ->
  replicate (length p - length (str_of_N (digits_value p))) 48
    ++ str_of_N (digits_value p) = p.
Proof. intros Hne Hp. apply (zero_padded_back _ p Hne Hp), fuel_enough. Qed.

(** A run of ASCII digits without a leading zero is the text of its
    value. *)
Lemma str_of_N_canonical c p :
  c <> 48 ->
  Forall (fun c => is_ascii_digit c = true) (c :: p) ->
  str_of_N (digits_value (c :: p)) = c :: p.
Proof.
  intros Hc Hp. pose proof (str_of_N_padded (c :: p) ltac:(done) Hp) as H.
  destruct (length (c :: p) - length (str_of_N (digits_value (c :: p))))%nat.
  - done.
  - simpl in H. congruence.
Qed.

End PyFacts.

(** ** Matching *)

Module ReFacts.
Import Re.

Section Exec.
Context {R : Type}.
Implicit Types (k : @cont R) (s : Py.str) (c : cclass).

Lemma star_is_Some c s b gs k :
  is_Some (star c s b gs k) <->
  exists p rest, s = p ++ rest /\ Forall (fun x => c x = true) p
                 /\ is_Some (k rest (match p with [] => b | _ => false end) gs).
Proof.
  revert b. induction s as [|x s IH]; intros b.
  - simpl. split.
    + intros H. exists [], []. done.
    + intros (p & rest & Hs & _ & H).
      symmetry in Hs. apply app_eq_nil in Hs as [-> ->]. done.
  - simpl. destruct (c x) eqn:Hx.
    + split.
      * intros H. destruct (star c s false gs k) eqn:E.
        -- destruct (proj1 (IH false)) as (p & rest & -> & Hp & Hk).
           { rewrite E. done. }
           exists (x :: p), rest. split; [done|]. split; [by constructor|].
           by destruct p.
        -- exists [], (x :: s). done.
      * intros (p & rest & Hs & Hp & Hk). destruct p as [|y p].
        -- simpl in Hs. subst rest. by destruct (star c s false gs k).
        -- injection Hs as <- ->. apply Forall_cons in Hp as [_ Hp].
           assert (is_Some (star c (p ++ rest) false gs k)) as [r ->]; [|done].
           apply IH. exists p, rest. split; [done|]. split; [done|].
           by destruct p.
    + split.
      * intros H. exists [], (x :: s). done.
      * intros (p & rest & Hs & Hp & Hk). destruct p as [|y p].
        -- simpl in Hs. by subst rest.
        -- injection Hs as <- ->. apply Forall_cons in Hp as [Hy _]. congruence.
Qed.

Lemma times_is_Some n c s b gs k :
  is_Some (times n c s b gs k) <->
  exists p rest, s = p ++ rest /\ length p = n /\ Forall (fun x => c x = true) p
                 /\ is_Some (k rest (match n with O => b | _ => false end) gs).
Proof.
  revert s b. induction n as [|n IH]; intros s b; simpl.
  - split.
    + intros H. exists [], s. done.
    + intros (p & rest & -> & Hl & _ & H). by destruct p.
  - destruct s as [|x s].
    + split; [by intros [? ?]|]. intros (p & rest & Hs & Hl & _). by destruct p.
    + destruct (c x) eqn:Hx.
      * rewrite IH. split.
        -- intros (p & rest & -> & Hl & Hp & Hk).
           exists (x :: p), rest. repeat split; [by simpl; f_equal|by constructor|].
           by destruct n.
        -- intros (p & rest & Hs & Hl & Hp & Hk). destruct p as [|y p]; [done|].
           injection Hs as <- ->. apply Forall_cons in Hp as [_ Hp].
           exists p, rest. repeat split; [by injection Hl|done|]. by destruct n.
      * split; [by intros [? ?]|].
        intros (p & rest & Hs & Hl & Hp & _). destruct p as [|y p]; [done|].
        injection Hs as <- ->. apply Forall_cons in Hp as [Hy _]. congruence.
Qed.

End Exec.

Lemma at_end_spec s : at_end s = true <-> s = [] \/ s = [10%N].
Proof.
  destruct s as [|c [|d s]]; simpl.
  - split; auto.
  - rewrite N.eqb_eq. split.
    + intros ->. by right.
    + intros [?|[= ->]]; done.
  - split; [done|]. intros [?|?]; done.
Qed.

End ReFacts.

(** ** [src/ids.py] *)

Module IdsFacts.
Import Py Ids PyFacts.

Local Open Scope Z_scope.

Abbreviation digits p := (Forall (fun c => is_digit c = true) p).
Abbreviation ascii_digits p := (Forall (fun c => is_ascii_digit c = true) p).

(** The strings [_ID_RE] matches. *)
Lemma validate_shape s :
  validate_vuln_id s = true <->
  exists year num tail,
    s = year ++ [45%N] ++ num ++ tail /\ length year = 4%nat /\ digits year
    /\ num <> [] /\ digits num /\ (tail = [] \/ tail = [10%N]).
Proof.
  unfold validate_vuln_id, Re.match_, Re.match_at, _ID_RE.
  rewrite bool_decide_eq_true. cbn [Re.exec].
  rewrite ReFacts.times_is_Some. split.
  - intros (year & r1 & -> & Hl & Hy & H).
    destruct r1 as [|x r1]; [by destruct H|].
    unfold Re.one in H. destruct (N.eqb_spec x 45) as [->|]; [|by destruct H].
    destruct r1 as [|d r2]; [by destruct H|].
    destruct (is_digit d) eqn:Hd; [|by destruct H].
    apply ReFacts.star_is_Some in H as (p & tail & -> & Hp & H).
    destruct (Re.at_end tail) eqn:Ht; [|by destruct H].
    apply ReFacts.at_end_spec in Ht.
    exists year, (d :: p), tail. repeat split; try done. by constructor.
  - intros (year & num & tail & -> & Hl & Hy & Hne & Hn & Ht).
    exists year, ([45%N] ++ num ++ tail). repeat split; try done.
    destruct num as [|d p]; [done|]. apply Forall_cons in Hn as [Hd Hp].
    cbn [app]. unfold Re.one. rewrite N.eqb_refl, Hd.
    apply ReFacts.star_is_Some. exists p, tail. repeat split; try done.
    apply ReFacts.at_end_spec in Ht. rewrite Ht. done.
Qed.

Lemma digits_no_hyphen p : digits p -> 45%N ∉ p.
Proof.
  intros Hp Hin. rewrite Forall_forall in Hp.
  destruct (is_digit_clear _ (Hp _ Hin)) as (_ & H & _). done.
Qed.

(** Parsing an identifier made of two runs of digits. *)
Lemma split_runs year num tail :
  digits year -> digits num -> tail = [] \/ tail = [10%N] ->
  split_on 45 (year ++ [45%N] ++ num ++ tail) = [year; num ++ tail].
Proof.
  intros Hy Hn Ht. cbn [app]. rewrite split_on_app by (by apply digits_no_hyphen).
  rewrite split_on_clean; [done|].
  intros Hin. apply elem_of_app in Hin as [Hin|Hin].
  - by apply (digits_no_hyphen num).
  - destruct Ht as [->| ->]; [by apply elem_of_nil in Hin|].
    apply list_elem_of_singleton in Hin. done.
Qed.

Lemma split_id_runs year num tail :
  year <> [] -> digits year -> num <> [] -> digits num ->
  tail = [] \/ tail = [10%N] ->
  (length year <= MAX_STR_DIGITS)%nat ->
  _split_id (year ++ [45%N] ++ num ++ tail)
  = if (MAX_STR_DIGITS <? length num)%nat then Raise ValueError
    else Ok (Z.of_N (digits_value year), Z.of_N (digits_value num),
             length (num ++ tail)).
Proof.
  intros Hyne Hy Hnne Hn Ht Hly. unfold _split_id.
  rewrite split_runs by done.
  rewrite <- (app_nil_r year) at 1.
  rewrite (int_digit_run year []) by auto.
  rewrite (int_digit_run num tail) by auto.
  destruct (Nat.ltb_spec MAX_STR_DIGITS (length year)); [lia|].
  cbn [mbind result_bind bind].
  by destruct (MAX_STR_DIGITS <? length num)%nat.
Qed.

Lemma sequence_text_runs year num tail :
  digits year -> digits num -> tail = [] \/ tail = [10%N] ->
  sequence_text (year ++ [45%N] ++ num ++ tail) = num ++ tail.
Proof. intros Hy Hn Ht. unfold sequence_text. by rewrite split_runs. Qed.

Lemma digit_width_runs year num tail :
  digits year -> digits num -> tail = [] \/ tail = [10%N] ->
  digit_width (year ++ [45%N] ++ num ++ tail) = length num.
Proof.
  intros Hy Hn Ht. unfold digit_width. rewrite sequence_text_runs by done.
  rewrite filter_app, filter_digits by done.
  destruct Ht as [->| ->]; [by rewrite filter_nil, app_nil_r|].
  rewrite filter_cons_False, filter_nil, app_nil_r; done.
Qed.

Lemma line_feed_width_runs year num tail :
  num <> [] -> digits num -> tail = [] \/ tail = [10%N] ->
  line_feed_width (year ++ [45%N] ++ num ++ tail) = length tail.
Proof.
  intros Hne Hn Ht. unfold line_feed_width.
  destruct Ht as [->| ->].
  - rewrite app_nil_r. rewrite bool_decide_eq_false_2; [done|].
    rewrite !last_app.
    destruct (last num) as [c|] eqn:E.
    + intros [= ->]. apply last_Some_elem_of in E.
      rewrite Forall_forall in Hn.
      destruct (is_digit_clear _ (Hn _ E)) as (_ & _ & _ & _ & H). done.
    + apply last_None in E. done.
  - rewrite bool_decide_eq_true_2; [done|]. by rewrite !last_app.
Qed.

(** Every accepted identifier parses when the digits of its sequence
    number are not too many, into a year below 10000, a sequence number
    below [10 ^ digit_width] and the length of the text after the
    hyphen; it raises [ValueError] when they are. *)
Lemma valid_split s :
  validate_vuln_id s = true ->
  exists y n,
    0 <= y < 10 ^ 4 /\ 0 <= n < 10 ^ Z.of_nat (digit_width s)
    /\ (1 <= digit_width s)%nat
    /\ length (sequence_text s) = (digit_width s + line_feed_width s)%nat
    /\ _split_id s
       = if (MAX_STR_DIGITS <? digit_width s)%nat then Raise ValueError
         else Ok (y, n, length (sequence_text s)).
Proof.
  intros H. apply validate_shape in H
    as (year & num & tail & -> & Hl & Hy & Hne & Hn & Ht).
  exists (Z.of_N (digits_value year)), (Z.of_N (digits_value num)).
  rewrite sequence_text_runs, digit_width_runs, line_feed_width_runs by done.
  pose proof (digits_value_bound year Hy) as Hby.
  pose proof (digits_value_bound num Hn) as Hb.
  rewrite Hl in Hby.
  assert (1 <= length num)%nat by (destruct num; [done|simpl; lia]).
  split; [lia|]. split.
  { split; [lia|]. apply N2Z.inj_lt in Hb. rewrite N2Z.inj_pow in Hb.
    rewrite nat_N_Z in Hb. exact Hb. }
  split; [done|]. split; [by rewrite length_app|].
  apply split_id_runs; try done; [by destruct year|].
  rewrite Hl. unfold MAX_STR_DIGITS. lia.
Qed.

(** *** The text of an identifier *)

Lemma digits_value_app a b :
  digits_value (a ++ b)
  = (digits_value a * 10 ^ N.of_nat (length b) + digits_value b)%N.
Proof.
  unfold digits_value. rewrite fold_left_app. fold digit_step.
  apply fold_step_shift.
Qed.

Lemma digits_value_zeros k : digits_value (replicate k 48%N) = 0%N.
Proof.
  induction k as [|k IH]; [done|].
  simpl replicate. rewrite digits_value_cons, IH. simpl. lia.
Qed.

Lemma decimal_nonneg y : 0 <= y -> decimal y = str_of_N (Z.to_N y).
Proof.
  intros Hy. unfold decimal. destruct (Z.ltb_spec y 0); [lia|].
  by rewrite Zabs2N.abs_N_nonneg.
Qed.

Lemma zero_padded_nonneg w n :
  0 <= n ->
  zero_padded w n
  = replicate (w - length (str_of_N (Z.to_N n))) 48%N ++ str_of_N (Z.to_N n).
Proof.
  intros Hn. unfold zero_padded. destruct (Z.ltb_spec n 0); [lia|].
  by rewrite Zabs2N.abs_N_nonneg.
Qed.

Lemma to_N_bound n w : 0 <= n < 10 ^ Z.of_nat w -> (Z.to_N n < 10 ^ N.of_nat w)%N.
Proof.
  intros [H0 H]. apply N2Z.inj_lt. rewrite N2Z.inj_pow, nat_N_Z, Z2N.id; done.
Qed.

(** A number below [10 ^ w] has at most [w] digits, so its text is made
    when [w] is within the limit. *)
Lemma short_enough n w :
  0 <= n < 10 ^ Z.of_nat w -> (1 <= w <= MAX_STR_DIGITS)%nat ->
  too_long n = false.
Proof.
  intros Hn Hw. unfold too_long. rewrite Zabs2N.abs_N_nonneg by lia.
  pose proof (str_of_N_length (Z.to_N n) w (to_N_bound n w Hn) ltac:(lia)).
  apply Nat.ltb_ge. lia.
Qed.

(** The sequence field: [width] ASCII digits that spell [n]. *)
Lemma zero_padded_field w n :
  0 <= n < 10 ^ Z.of_nat w -> (1 <= w)%nat ->
  length (zero_padded w n) = w /\ ascii_digits (zero_padded w n)
  /\ digits_value (zero_padded w n) = Z.to_N n.
Proof.
  intros Hn Hw. rewrite zero_padded_nonneg by lia.
  pose proof (str_of_N_length (Z.to_N n) w (to_N_bound n w Hn) Hw) as Hl.
  split; [rewrite length_app, length_replicate; lia|]. split.
  - apply Forall_app. split; [|apply str_of_N_ascii].
    apply Forall_replicate. done.
  - rewrite digits_value_app, digits_value_zeros, str_of_N_value. lia.
Qed.

(** The text [format_id] makes of a year and a sequence number that
    were read from an identifier. *)
Lemma format_id_text y dw w n :
  0 <= y < 10 ^ 4 -> 0 <= n < 10 ^ Z.of_nat dw ->
  (1 <= dw <= MAX_STR_DIGITS)%nat -> (dw <= w)%nat ->
  let field := zero_padded w n in
  format_id y w n = Ok (decimal y ++ [45%N] ++ field)
  /\ length field = w /\ ascii_digits field
  /\ Z.of_N (digits_value field) = n.
Proof.
  intros Hy Hn Hdw Hw. cbv zeta. unfold format_id, format_d, format_0d.
  rewrite (short_enough y 4) by (unfold MAX_STR_DIGITS; lia).
  rewrite (short_enough n dw) by done.
  cbn [mbind result_bind bind mret result_ret]. split; [done|].
  assert (0 <= n < 10 ^ Z.of_nat w) as Hnw.
  { split; [lia|]. apply Z.lt_le_trans with (10 ^ Z.of_nat dw); [lia|].
    apply Z.pow_le_mono_r; lia. }
  destruct (zero_padded_field w n Hnw ltac:(lia)) as (Hl & Ha & Hv).
  repeat split; try done. rewrite Hv. lia.
Qed.

Lemma mapM_texts {A B} (f : A -> result B) (g : A -> B) (l : list A) :
  Forall (fun x => f x = Ok (g x)) l -> mapM f l = Ok (g <$> l).
Proof.
  induction l as [|x l IH]; intros H; [done|].
  apply Forall_cons in H as [Hx Hl]. cbn [mapM]. rewrite Hx, (IH Hl). done.
Qed.


(** [subtract_steps] returns on an accepted identifier within the
    limit, whatever the number of steps. *)
Lemma subtract_steps_fields id n :
  validate_vuln_id id = true ->
  (digit_width id <= MAX_STR_DIGITS)%nat ->
  exists r, subtract_steps id n = Ok r.
Proof.
  intros Hv Hm.
  destruct (valid_split _ Hv) as (y & num & Hy & Hnum & Hd & Hw & E).
  destruct (Nat.ltb_spec MAX_STR_DIGITS (digit_width id)); [lia|].
  destruct (format_id_text y (digit_width id) (length (sequence_text id))
              (Z.max 0 (num - Z.max 0 n)))
    as (Ef & _); [done|lia|done|lia|].
  eexists. unfold subtract_steps. rewrite E.
  cbn [mbind result_bind bind]. exact Ef.
Qed.

(** *** Claims on the identifier space *)

(** C5, as amended.  [validate_vuln_id] accepts exactly the strings made
    of four decimal digits, a hyphen and one or more decimal digits,
    optionally followed by one line feed (the digits are those of any
    decimal script). *)
Theorem validate_accepts_four_digit_year s :
  validate_vuln_id s = true <->
  exists year num tail,
    s = year ++ [45%N] ++ num ++ tail /\ length year = 4%nat /\ digits year
    /\ num <> [] /\ digits num /\ (tail = [] \/ tail = [10%N]).
Proof. apply validate_shape. Qed.

(** C5, as stated, fails: "1-2" is one or more digits, a hyphen and one
    or more digits, and is rejected. *)
Lemma validate_rejects_short_year :
  digits_dash_digits (lit "1-2") /\ validate_vuln_id (lit "1-2") = false.
Proof.
  split; [|reflexivity].
  exists [49%N], [50%N]. repeat split; try done; by repeat constructor.
Qed.

(** C3, as amended.  For accepted identifiers [start_id] and [end_id],
    call width of a bound the length of its text after the hyphen: the
    number of its sequence digits, and one more when the bound ends in
    a line feed.  When neither bound has more than 4300 sequence digits,
    both parse, to (y1, n1) and (y2, n2); when the years agree and
    [n1 <= n2], [iter_ids] returns [n2 - n1 + 1] identifiers, the i-th
    being the year, a hyphen and a field of ASCII digits as long as the
    larger of the two widths that spells [n1 + i]; when the years differ
    or [n2 < n1] it raises [ValueError].  When a bound has more than
    4300 sequence digits it raises [ValueError] as well. *)
Theorem iter_ids_range start_id end_id :
  validate_vuln_id start_id = true ->
  validate_vuln_id end_id = true ->
  let w1 := length (sequence_text start_id) in
  let w2 := length (sequence_text end_id) in
  w1 = (digit_width start_id + line_feed_width start_id)%nat
  /\ w2 = (digit_width end_id + line_feed_width end_id)%nat
  /\ ((digit_width start_id <= MAX_STR_DIGITS)%nat ->
      (digit_width end_id <= MAX_STR_DIGITS)%nat ->
      exists y1 n1 y2 n2,
        _split_id start_id = Ok (y1, n1, w1)
        /\ _split_id end_id = Ok (y2, n2, w2)
        /\ (y1 = y2 -> n1 <= n2 ->
            exists ids,
              iter_ids start_id end_id = Ok ids
              /\ Z.of_nat (length ids) = n2 - n1 + 1
              /\ forall i, (i < length ids)%nat ->
                   exists field,
                     ids !! i = Some (decimal y1 ++ [45%N] ++ field)
                     /\ length field = Nat.max w1 w2
                     /\ ascii_digits field
                     /\ Z.of_N (digits_value field) = n1 + Z.of_nat i)
        /\ (y1 <> y2 \/ n2 < n1 -> iter_ids start_id end_id = Raise ValueError))
  /\ ((MAX_STR_DIGITS < digit_width start_id)%nat
      \/ (MAX_STR_DIGITS < digit_width end_id)%nat ->
      iter_ids start_id end_id = Raise ValueError).
Proof.
  intros Hs He. cbv zeta.
  destruct (valid_split _ Hs) as (y1 & n1 & Hy1 & Hn1 & Hd1 & Hw1 & E1).
  destruct (valid_split _ He) as (y2 & n2 & Hy2 & Hn2 & Hd2 & Hw2 & E2).
  split; [done|]. split; [done|]. split.
  - intros Hm1 Hm2.
    destruct (Nat.ltb_spec MAX_STR_DIGITS (digit_width start_id)); [lia|].
    destruct (Nat.ltb_spec MAX_STR_DIGITS (digit_width end_id)); [lia|].
    exists y1, n1, y2, n2. split; [done|]. split; [done|].
    unfold iter_ids. rewrite E1, E2. cbn [mbind result_bind bind]. split.
    + intros <- Hle. rewrite bool_decide_eq_false_2 by auto.
      destruct (Z.ltb_spec n2 n1); [lia|]. cbn [orb].
      set (w := Nat.max _ _).
      assert (forall n, n1 <= n <= n2 ->
                let field := zero_padded w n in
                format_id y1 w n = Ok (decimal y1 ++ [45%N] ++ field)
                /\ length field = w /\ ascii_digits field
                /\ Z.of_N (digits_value field) = n) as Hfield.
      { intros n Hn. apply (format_id_text y1 (digit_width end_id)); try done;
          [lia|unfold w; lia]. }
      exists ((fun n => decimal y1 ++ [45%N] ++ zero_padded w n)
                <$> seqZ n1 (n2 + 1 - n1)).
      split.
      { apply mapM_texts, Forall_forall. intros n Hn.
        apply elem_of_seqZ in Hn. apply Hfield. lia. }
      rewrite length_fmap, length_seqZ. split; [lia|].
      intros i Hi. exists (zero_padded w (n1 + Z.of_nat i)).
      destruct (Hfield (n1 + Z.of_nat i) ltac:(lia)) as (_ & Hl & Ha & Hv).
      repeat split; try done.
      rewrite list_lookup_fmap, lookup_seqZ_lt by lia.
      simpl. replace (Z.of_nat i + n1) with (n1 + Z.of_nat i) by lia. done.
    + intros Hbad. destruct (decide (y1 = y2)) as [->|Hne].
      * rewrite bool_decide_eq_false_2 by auto.
        destruct (Z.ltb_spec n2 n1); [done|]. destruct Hbad; [done|lia].
      * by rewrite bool_decide_eq_true_2.
  - intros Hbig. unfold iter_ids. rewrite E1.
    destruct (Nat.ltb_spec MAX_STR_DIGITS (digit_width start_id)); [done|].
    cbn [mbind result_bind bind]. rewrite E2.
    destruct (Nat.ltb_spec MAX_STR_DIGITS (digit_width end_id)); [done|].
    lia.
Qed.

Lemma iter_ids_range_witness :
  exists ids,
    iter_ids (lit "2024-8") (lit "2024-011") = Ok ids
    /\ Z.of_nat (length ids) = 11 - 8 + 1
    /\ forall i, (i < length ids)%nat ->
         exists field,
           ids !! i = Some (decimal 2024 ++ [45%N] ++ field)
           /\ length field = 3%nat
           /\ ascii_digits field
           /\ Z.of_N (digits_value field) = 8 + Z.of_nat i.
Proof.
  destruct (iter_ids_range (lit "2024-8") (lit "2024-011") eq_refl eq_refl)
    as (_ & _ & H & _).
  destruct H as (y1 & n1 & y2 & n2 & E1 & E2 & Hok & _).
  - vm_compute. lia.
  - vm_compute. lia.
  - vm_compute in E1, E2. injection E1 as <- <-. injection E2 as <- <-.
    exact (Hok eq_refl ltac:(lia)).
Defined.

(** C3, as stated, fails.  A bound that ends in a line feed is accepted,
    and the line feed counts in the width: from "2024-8" to "2024-011"
    with a line feed, the digit widths are 1 and 3 and the identifiers
    come out with four digits.  And two equal accepted bounds of 4301
    sequence digits give no identifier: [ValueError] is raised. *)
Lemma iter_ids_counts_line_feed :
  validate_vuln_id (lit "2024-8") = true
  /\ validate_vuln_id (lit "2024-011" ++ [10%N]) = true
  /\ digit_width (lit "2024-8") = 1%nat
  /\ digit_width (lit "2024-011" ++ [10%N]) = 3%nat
  /\ iter_ids (lit "2024-8") (lit "2024-011" ++ [10%N])
     = Ok [lit "2024-0008"; lit "2024-0009"; lit "2024-0010"; lit "2024-0011"]
  /\ (let big := lit "2024-" ++ replicate 4301 49%N in
      validate_vuln_id big = true
      /\ iter_ids big big = Raise ValueError).
Proof. repeat split; vm_compute; reflexivity. Qed.

(** C4, as amended.  For an accepted identifier of at most 4300
    sequence digits, with parsed fields (y, num, w), and [0 <= n],
    [subtract_steps] returns the year, a hyphen and a field of [w] ASCII
    digits that spells [max 0 (num - n)], where [w] is the length of the
    text after the hyphen: the number of sequence digits, and one more
    when the identifier ends in a line feed.  It returns the identifier
    itself for [n = 0] when the identifier is in plain form (ASCII
    digits, a year without a leading zero, nothing after the sequence
    number).  For more than 4300 sequence digits it raises
    [ValueError]. *)
Theorem subtract_steps_clamped id n :
  validate_vuln_id id = true ->
  0 <= n ->
  let w := length (sequence_text id) in
  w = (digit_width id + line_feed_width id)%nat
  /\ ((digit_width id <= MAX_STR_DIGITS)%nat ->
      exists y num r field,
        _split_id id = Ok (y, num, w) /\ 0 <= num
        /\ subtract_steps id n = Ok r
        /\ r = decimal y ++ [45%N] ++ field
        /\ length field = w /\ ascii_digits field
        /\ Z.of_N (digits_value field) = Z.max 0 (num - n)
        /\ (plain_id id = true -> n = 0 -> r = id))
  /\ ((MAX_STR_DIGITS < digit_width id)%nat ->
      subtract_steps id n = Raise ValueError).
Proof.
  intros Hv Hn. cbv zeta.
  destruct (valid_split _ Hv) as (y & num & Hy & Hnum & Hd & Hw & E).
  split; [done|]. split.
  - intros Hm.
    destruct (Nat.ltb_spec MAX_STR_DIGITS (digit_width id)); [lia|].
    set (w := length (sequence_text id)) in *.
    destruct (format_id_text y (digit_width id) w (Z.max 0 (num - n)))
      as (Ef & Hl & Ha & Hval); [done|lia|done|lia|].
    exists y, num, (decimal y ++ [45%N] ++ zero_padded w (Z.max 0 (num - n))),
      (zero_padded w (Z.max 0 (num - n))).
    split; [done|]. split; [lia|].
    unfold subtract_steps. rewrite E.
    cbn [mbind result_bind bind]. rewrite (Z.max_r 0 n) by done.
    split; [done|]. split; [done|]. split; [done|]. split; [done|].
    split; [done|].
    intros Hp ->. revert E. unfold w. clear -Hp.
    destruct id as [|c1 [|c2 [|c3 [|c4 [|h [|c5 rest]]]]]]; try done.
    simpl in Hp. rewrite !andb_true_iff in Hp.
    destruct Hp as [[[[H1 [H2 [H3 [H4 _]]]] Hz] Hh] [H5 Hr]].
    apply N.eqb_eq in Hh as ->. apply negb_true_iff, N.eqb_neq in Hz.
    assert (ascii_digits rest) as Hr'.
    { apply Forall_forall. intros x Hx. rewrite forallb_forall in Hr.
      apply Hr. by apply list_elem_of_In. }
    assert (ascii_digits [c1; c2; c3; c4]) as Hyear by (by repeat constructor).
    assert (ascii_digits (c5 :: rest)) as Hnum by (by constructor).
    assert (digits [c1; c2; c3; c4]) as Hyd.
    { eapply Forall_impl; [exact Hyear|]. intros c. apply ascii_is_digit. }
    assert (digits (c5 :: rest)) as Hnd.
    { eapply Forall_impl; [exact Hnum|]. intros c. apply ascii_is_digit. }
    change (c1 :: c2 :: c3 :: c4 :: 45%N :: c5 :: rest)
      with ([c1; c2; c3; c4] ++ [45%N] ++ (c5 :: rest)).
    rewrite <- (app_nil_r (c5 :: rest)) at 1 2 3.
    rewrite sequence_text_runs by auto.
    rewrite split_id_runs by (try done; auto; unfold MAX_STR_DIGITS; simpl; lia).
    destruct (MAX_STR_DIGITS <? length (c5 :: rest))%nat; [done|].
    intros [= <- <-]. rewrite app_nil_r, Z.sub_0_r, Z.max_r by lia.
    rewrite decimal_nonneg, zero_padded_nonneg, !N2Z.id by lia.
    rewrite str_of_N_canonical by done.
    rewrite str_of_N_padded by done. done.
  - intros Hbig. unfold subtract_steps. rewrite E.
    destruct (Nat.ltb_spec MAX_STR_DIGITS (digit_width id)); [done|lia].
Qed.

Lemma subtract_steps_clamped_witness :
  exists y num r field,
    _split_id (lit "2024-005") = Ok (y, num, 3%nat) /\ 0 <= num
    /\ subtract_steps (lit "2024-005") 10 = Ok r
    /\ r = decimal y ++ [45%N] ++ field
    /\ length field = 3%nat /\ ascii_digits field
    /\ Z.of_N (digits_value field) = Z.max 0 (num - 10)
    /\ (plain_id (lit "2024-005") = true -> 10 = 0 -> r = lit "2024-005").
Proof.
  destruct (subtract_steps_clamped (lit "2024-005") 10 eq_refl ltac:(lia))
    as (_ & H & _).
  apply H. vm_compute. lia.
Defined.

(** C4, as stated, fails in four ways.  Zero steps do not give the
    identifier back when its year has a leading zero, when its digits
    are not ASCII digits, or when it ends in a line feed; in the last
    case the result has one digit more than the identifier has (three
    digits become four).  And an accepted identifier of 4301 sequence
    digits is not clamped: [ValueError] is raised. *)
Lemma subtract_zero_steps_changes_id :
  (validate_vuln_id (lit "0999-005") = true
   /\ subtract_steps (lit "0999-005") 0 = Ok (lit "999-005"))
  /\ (validate_vuln_id (lit "2024-٠٠٥") = true
      /\ subtract_steps (lit "2024-٠٠٥") 0 = Ok (lit "2024-005"))
  /\ (validate_vuln_id (lit "2024-005" ++ [10%N]) = true
      /\ digit_width (lit "2024-005" ++ [10%N]) = 3%nat
      /\ subtract_steps (lit "2024-005" ++ [10%N]) 0 = Ok (lit "2024-0005"))
  /\ (let big := lit "2024-" ++ replicate 4301 49%N in
      validate_vuln_id big = true
      /\ subtract_steps big 0 = Raise ValueError).
Proof. repeat split; vm_compute; reflexivity. Qed.

End IdsFacts.

(** ** [agent_api.py] and [src/db.py] *)

Module AgentFacts.
Import Json Db AgentApi.

Lemma truthy_false_iff v : truthy v = false <-> falsy v.
Proof.
  unfold falsy. destruct v as [|b|n|f|s|l|d]; simpl.
  - split; auto.
  - destruct b; split; try done; [|auto].
    intros [?|[?|[?|[?|[?|[?|(f & ? & _)]]]]]]; done.
  - rewrite negb_false_iff, Z.eqb_eq. split.
    + intros ->. auto.
    + intros [?|[?|[E|[?|[?|[?|(f & ? & _)]]]]]]; try done. by injection E.
  - split.
    + intros H. do 6 right. by exists f.
    + intros [?|[?|[?|[?|[?|[?|(g & [= <-] & H)]]]]]]; done.
  - rewrite negb_false_iff, bool_decide_eq_true. split.
    + intros ->. auto.
    + intros [?|[?|[?|[E|[?|[?|(f & ? & _)]]]]]]; try done. by injection E.
  - rewrite negb_false_iff, bool_decide_eq_true. split.
    + intros ->. auto 6.
    + intros [?|[?|[?|[?|[E|[?|(f & ? & _)]]]]]]; try done. by injection E.
  - rewrite negb_false_iff, bool_decide_eq_true. split.
    + intros ->. auto 7.
    + intros [?|[?|[?|[?|[?|[E|(f & ? & _)]]]]]]; try done. by injection E.
Qed.

(** *** The software table *)

Lemma delete_then_select aid rows :
  filter (fun r => sw_agent_id r = aid) (delete_software aid rows) = [].
Proof.
  unfold delete_software. induction rows as [|r rows IH]; [done|].
  rewrite filter_cons. destruct (decide (sw_agent_id r ≠ aid)) as [Hne|He].
  - rewrite filter_cons. by destruct (decide (sw_agent_id r = aid)).
  - done.
Qed.

Lemma insert_software_select aid now next rows :
  filter (fun r => sw_agent_id r = aid) (insert_software aid now next rows)
  = insert_software aid now next rows.
Proof.
  revert next. induction rows as [|[[n v] p] rows IH]; intros next; [done|].
  simpl. rewrite filter_cons. simpl.
  destruct (decide (aid = aid)); [|done]. by rewrite IH.
Qed.

Lemma insert_software_entries aid now next rows :
  map stored_entry (insert_software aid now next rows) = rows.
Proof.
  revert next. induction rows as [|[[n v] p] rows IH]; intros next; [done|].
  simpl. by rewrite IH.
Qed.

Lemma stripped_text item k s :
  stripped_field item k = Py.Ok s -> text_field item k = s.
Proof.
  unfold stripped_field, text_field. destruct (get item k) as [v|e]; [|done].
  cbn [mbind result_bind Py.bind]. unfold or_.
  destruct v as [|b|n|f|t|l|d]; simpl; try done.
  - by intros [= <-].
  - destruct b; [done|]. by intros [= <-].
  - destruct (n =? 0); [|done]. by intros [= <-].
  - destruct (float_nonzero f); [done|]. by intros [= <-].
  - case_bool_decide as E; simpl.
    + subst t. by intros [= <-].
    + by intros [= <-].
  - case_bool_decide; simpl; [|done]. by intros [= <-].
  - case_bool_decide; simpl; [|done]. by intros [= <-].
Qed.

Lemma software_rows_kept items rows :
  software_rows items = Py.Ok rows -> rows = omap kept_entry items.
Proof.
  revert rows. induction items as [|item items IH]; intros rows.
  - by intros [= <-].
  - simpl. unfold kept_entry.
    destruct (stripped_field item (Py.lit "name")) as [name|e] eqn:En; [|done].
    cbn [mbind result_bind Py.bind]. rewrite (stripped_text _ _ _ En).
    destruct name as [|c name]; [apply IH|].
    destruct (stripped_field item (Py.lit "version")) as [ver|e] eqn:Ev; [|done].
    cbn [mbind result_bind Py.bind].
    destruct (stripped_field item (Py.lit "publisher")) as [pub|e] eqn:Ep; [|done].
    cbn [mbind result_bind Py.bind].
    destruct (software_rows items) as [rows'|e]; [|done].
    cbn [mbind result_bind Py.bind mret result_ret]. intros [= <-].
    rewrite (stripped_text _ _ _ Ev), (stripped_text _ _ _ Ep), (IH rows' eq_refl).
    done.
Qed.

Lemma upsert_agent_has new rows :
  exists r, r ∈ upsert_agent new rows /\ agent_id r = agent_id new.
Proof.
  induction rows as [|r rows IH]; simpl.
  - exists new. split; [left|done].
  - case_bool_decide as E.
    + eexists. split; [left|]. done.
    + destruct IH as (r' & Hin & Hr'). exists r'. split; [by right|done].
Qed.

(** A text that is bound is handed over as it is. *)
Lemma bind_text_ok s s' :
  bind_text s = Py.Ok s' -> s' = s /\ existsb is_surrogate s = false.
Proof.
  unfold bind_text. destruct (existsb is_surrogate s); [done|].
  by intros [= <-].
Qed.

Lemma bind_text_clean s : existsb is_surrogate s = false -> bind_text s = Py.Ok s.
Proof. unfold bind_text. by intros ->. Qed.

Lemma bind_row_ok row row' : bind_row row = Py.Ok row' -> row' = row.
Proof.
  destruct row as [[n v] p]. unfold bind_row.
  destruct (bind_text n) as [n'|] eqn:En; [|done].
  apply bind_text_ok in En as [-> _]. cbn [mbind result_bind Py.bind].
  destruct v as [v|].
  - destruct (bind_text v) as [v'|] eqn:Ev; [|done].
    apply bind_text_ok in Ev as [-> _].
    cbn [mbind result_bind Py.bind mret result_ret].
    destruct p as [p|].
    + destruct (bind_text p) as [p'|] eqn:Ep; [|done].
      apply bind_text_ok in Ep as [-> _]. by intros [= <-].
    + by intros [= <-].
  - cbn [mbind result_bind Py.bind mret result_ret].
    destruct p as [p|].
    + destruct (bind_text p) as [p'|] eqn:Ep; [|done].
      apply bind_text_ok in Ep as [-> _]. by intros [= <-].
    + by intros [= <-].
Qed.

Lemma bind_rows_ok rows rows' : mapM bind_row rows = Py.Ok rows' -> rows' = rows.
Proof.
  revert rows'. induction rows as [|row rows IH]; intros rows'.
  - by intros [= <-].
  - cbn [mapM]. destruct (bind_row row) as [row'|] eqn:Er; [|done].
    apply bind_row_ok in Er as ->. cbn [mbind result_bind Py.bind].
    destruct (mapM bind_row rows) as [rs|]; [|done].
    cbn [mbind result_bind Py.bind mret result_ret].
    intros [= <-]. by rewrite (IH rs eq_refl).
Qed.

(** What [upsert_agent_inventory] leaves in the tables when it returns. *)
Lemma upsert_inventory_result t aid h1 h2 h3 h4 h5 h6 sw d d' :
  upsert_agent_inventory t aid h1 h2 h3 h4 h5 h6 sw d = Py.Ok d' ->
  (exists r, r ∈ agents d' /\ agent_id r = aid)
  /\ map stored_entry (software_of aid d')
     = omap kept_entry (match sw with JList l => l | _ => [] end).
Proof.
  unfold upsert_agent_inventory.
  destruct (bind_text aid) as [aid'|] eqn:Ea; [|done].
  apply bind_text_ok in Ea as [-> _]. cbn [mbind result_bind Py.bind].
  destruct (bind_param h1) as [p1|]; [|done].
  destruct (bind_param h2) as [p2|]; [|done].
  destruct (bind_param h3) as [p3|]; [|done].
  destruct (bind_param h4) as [p4|]; [|done].
  destruct (bind_param h5) as [p5|]; [|done].
  destruct (bind_param h6) as [p6|]; [|done].
  cbn [mbind result_bind Py.bind].
  set (new := {| agent_id := aid |}).
  destruct (truthy sw) eqn:Hsw.
  - destruct (iterate sw) as [items|] eqn:Hit; [|done].
    cbn [mbind result_bind Py.bind].
    destruct (software_rows items) as [rows|] eqn:Hrows; [|done].
    cbn [mbind result_bind Py.bind].
    destruct (mapM bind_row rows) as [bound|] eqn:Hb; [|done].
    apply bind_rows_ok in Hb as ->.
    cbn [mbind result_bind Py.bind mret result_ret]. intros [= <-]. split.
    + apply (upsert_agent_has new).
    + unfold software_of. cbn [agent_software].
      rewrite filter_app, delete_then_select, insert_software_select.
      cbn [app]. rewrite insert_software_entries.
      destruct sw as [|b|n|f|s|l|kvs]; try done.
      * (* the characters of a str have no [get] *)
        injection Hit as <-. destruct s as [|c s]; [done|]. done.
      * injection Hit as <-. by apply software_rows_kept.
      * injection Hit as <-. destruct kvs as [|kv kvs]; [done|]. done.
  - cbn [mret result_ret]. intros [= <-]. split.
    + apply (upsert_agent_has new).
    + unfold software_of. cbn [agent_software]. rewrite delete_then_select.
      destruct sw as [|b|n|f|s|l|kvs]; try done.
      simpl in Hsw. rewrite negb_false_iff, bool_decide_eq_true in Hsw.
      by subst l.
Qed.


(** *** The route *)

Section Service.
Context (private_key : Type).
Context (b64decode : Py.str -> Py.result bytes).
Context (rsa_oaep_decrypt : private_key -> bytes -> Py.result bytes).
Context (aes_gcm_decrypt : bytes -> bytes -> bytes -> bytes -> Py.result bytes).
Context (json_loads : bytes -> Py.result value).
Context (repr_str : Py.str -> Py.str).

Let report :=
  agent_report private_key b64decode rsa_oaep_decrypt aes_gcm_decrypt
    json_loads repr_str.
Let payload_of :=
  report_payload private_key b64decode rsa_oaep_decrypt aes_gcm_decrypt
    json_loads.
Let decrypt :=
  _decrypt_payload private_key b64decode rsa_oaep_decrypt aes_gcm_decrypt
    json_loads.

Lemma report_decrypted t key_file body d payload :
  payload_of key_file body = Some payload ->
  report t key_file body d = store_report repr_str t payload d.
Proof.
  unfold payload_of, report, report_payload, agent_report.
  destruct body as [raw|]; [|done].
  destruct (get (or_ raw (JDict [])) (Py.lit "enc_key")) as [ek|]; [|done].
  destruct (get (or_ raw (JDict [])) (Py.lit "enc_data")) as [ed|]; [|done].
  destruct key_file as [pk|]; [|done].
  destruct (truthy ek), (truthy ed); try done. simpl.
  destruct (_decrypt_payload _ _ _ _ _ pk ek ed); [|done].
  by intros [= <-].
Qed.

(** Too short a ciphertext never decrypts. *)
Lemma decrypt_short pk enc_key s data :
  b64decode s = Py.Ok data -> (length data < 28)%nat ->
  exists e, decrypt pk enc_key (JStr s) = Py.Raise e.
Proof.
  intros Hs Hl. unfold decrypt, _decrypt_payload.
  destruct (b64decode_value b64decode enc_key) as [ek|e]; [|by exists e].
  cbn [mbind result_bind Py.bind b64decode_value]. rewrite Hs.
  cbn [mbind result_bind Py.bind].
  destruct (rsa_oaep_decrypt pk ek) as [k|e]; [|by exists e].
  cbn [mbind result_bind Py.bind].
  destruct (Nat.ltb_spec (length data) (12 + 16)); [|simpl in *; lia].
  by eexists.
Qed.

(** C1, as amended.  For a request whose [enc_data] is a string that
    base64-decodes to fewer than 28 bytes the database is left as it
    was; the answer is [enc_key_or_enc_data_missing] when that string is
    empty, and [decrypt_failed] when it is not empty, [enc_key] is
    present and not empty, and the private key loads. *)
Theorem short_enc_data_rejected t key_file raw d s data :
  get (or_ raw (JDict [])) (Py.lit "enc_data") = Py.Ok (JStr s) ->
  b64decode s = Py.Ok data ->
  (length data < 28)%nat ->
  snd (report t key_file (Py.Ok raw) d) = d
  /\ (s = [] ->
      fst (report t key_file (Py.Ok raw) d) = Error enc_key_or_enc_data_missing 400)
  /\ (forall pk enc_key,
        s <> [] ->
        key_file = Py.Ok pk ->
        get (or_ raw (JDict [])) (Py.lit "enc_key") = Py.Ok enc_key ->
        truthy enc_key = true ->
        fst (report t key_file (Py.Ok raw) d) = Error decrypt_failed 400).
Proof.
  intros Hd Hs Hl. unfold report, agent_report. rewrite Hd.
  destruct (get (or_ raw (JDict [])) (Py.lit "enc_key")) as [ek|] eqn:Hk.
  2:{ destruct (or_ raw (JDict [])); done. }
  destruct (truthy ek) eqn:Hek; cbn [negb orb].
  - destruct s as [|c s].
    + cbn [truthy]. rewrite bool_decide_eq_true_2 by done. cbn [negb].
      repeat split; try done.
    + cbn [truthy]. rewrite bool_decide_eq_false_2 by done. cbn [negb].
      destruct key_file as [pk|e].
      * destruct (decrypt_short pk ek (c :: s) data Hs Hl) as [e He].
        unfold decrypt in He. rewrite He. repeat split; try done.
      * repeat split; done.
  - repeat split; try done.
    intros pk ek' _ _ [= <-]. congruence.
Qed.

(** The checks of [store_report] on a payload that is an object. *)
Lemma store_report_cases t items d :
  let agent_id := default JNull (lookup_item (Py.lit "agent_id") items) in
  let software :=
    or_ (default JNull (lookup_item (Py.lit "software") items)) (JList []) in
  let out := store_report repr_str t (JDict items) d in
  (truthy agent_id = false /\ out = (Error agent_id_missing 400, d))
  \/ (truthy agent_id = true /\ out = (Error db_error 500, d))
  \/ (truthy agent_id = true /\ fst out = StatusOk
      /\ (exists r, r ∈ agents (snd out)
                    /\ Db.agent_id r = Json.str repr_str agent_id)
      /\ map stored_entry (software_of (Json.str repr_str agent_id) (snd out))
         = omap kept_entry (match software with JList l => l | _ => [] end)).
Proof.
  cbv zeta. unfold store_report. cbn [get].
  destruct (truthy (default JNull (lookup_item (Py.lit "agent_id") items))) eqn:Ha;
    cbn [negb]; [|by left].
  right.
  match goal with
  | |- context [match ?m with Py.Ok _ => _ | Py.Raise _ => _ end] =>
      destruct m as [d'|e] eqn:Hsaved
  end; [right|by left].
  split; [done|]. split; [done|]. cbn [snd].
  destruct (str_raises _); [done|]. cbn [mbind result_bind Py.bind] in Hsaved.
  destruct (get _ (Py.lit "hostname")) as [h1|]; [|done].
  destruct (get _ (Py.lit "os_type")) as [h2|]; [|done].
  destruct (get _ (Py.lit "os_release")) as [h3|]; [|done].
  destruct (get _ (Py.lit "os_version")) as [h4|]; [|done].
  destruct (get _ (Py.lit "architecture")) as [h5|]; [|done].
  cbn [mbind result_bind Py.bind] in Hsaved.
  by apply upsert_inventory_result in Hsaved.
Qed.

(** A payload that holds nothing but a true [agent_id]. *)
Lemma store_report_alone t v d :
  truthy v = true ->
  fst (store_report repr_str t (JDict [(Py.lit "agent_id", v)]) d) = StatusOk
  <-> str_raises v = false
      /\ existsb is_surrogate (Json.str repr_str v) = false.
Proof.
  intros Hv. unfold store_report. cbn [get lookup_item].
  rewrite bool_decide_eq_true_2 by done.
  rewrite !bool_decide_eq_false_2 by done. cbn [default]. unfold id.
  rewrite Hv. cbn [negb or_ truthy get lookup_item default].
  destruct (str_raises v); cbn [mbind result_bind Py.bind fst].
  { split; [done|]. by intros [? _]. }
  unfold upsert_agent_inventory, bind_text.
  destruct (existsb is_surrogate (Json.str repr_str v));
    cbn [mbind result_bind Py.bind mret result_ret bind_param truthy fst].
  - split; [done|]. by intros [_ ?].
  - rewrite bool_decide_eq_true_2 by done. done.
Qed.

(** C10, as amended.  For a request that decrypts to an object, the
    answer is [agent_id_missing] exactly when [agent_id] is absent or
    false as a Python object: null, false, 0, 0.0, the empty string, the
    empty array or the empty object; the database is then left as it
    was.  Any other [agent_id] passes the check: the answer is [ok], or
    [db_error] with the database left as it was; whenever it is [ok] the
    agent is stored under [str(agent_id)]; and when the payload holds
    nothing but the [agent_id] it is [ok] exactly when [str(agent_id)]
    is made and holds no lone surrogate.  A request that decrypts to
    something else than an object is answered by the framework (500),
    the database left as it was. *)
Theorem agent_id_missing_iff_falsy t key_file body d payload :
  payload_of key_file body = Some payload ->
  let out := report t key_file body d in
  (forall items,
     payload = JDict items ->
     let agent_id := default JNull (lookup_item (Py.lit "agent_id") items) in
     (fst out = Error agent_id_missing 400 <-> falsy agent_id)
     /\ (fst out = Error agent_id_missing 400 -> snd out = d)
     /\ (truthy agent_id = true ->
         fst out = StatusOk \/ out = (Error db_error 500, d))
     /\ (fst out = StatusOk ->
         exists r, r ∈ agents (snd out)
                   /\ Db.agent_id r = Json.str repr_str agent_id)
     /\ (truthy agent_id = true ->
         items = [(Py.lit "agent_id", agent_id)] ->
         (fst out = StatusOk
          <-> str_raises agent_id = false
              /\ existsb is_surrogate (Json.str repr_str agent_id) = false)))
  /\ ((forall items, payload <> JDict items) ->
      out = (InternalServerError, d)).
Proof.
  intros Hp. cbv zeta.
  rewrite (report_decrypted t key_file body d _ Hp). split.
  - intros items ->. rewrite <- truthy_false_iff.
    destruct (store_report_cases t items d)
      as [[Ha Ho]|[[Ha Ho]|(Ha & Ho & Hrow & _)]].
    + rewrite Ho. cbn [fst snd]. repeat split; try done; congruence.
    + split; [|split; [|split; [|split]]].
      * rewrite Ho. cbn [fst]. split; congruence.
      * rewrite Ho. done.
      * intros _. by right.
      * rewrite Ho. done.
      * intros Hv Hitems. rewrite Hitems at 1. by apply store_report_alone.
    + split; [|split; [|split; [|split]]].
      * rewrite Ho. split; congruence.
      * rewrite Ho. done.
      * intros _. by left.
      * intros _. exact Hrow.
      * intros Hv Hitems. rewrite Hitems at 1. by apply store_report_alone.
  - intros Hno. destruct payload as [|b|n|f|s|l|items]; try done.
    by destruct (Hno items).
Qed.

(** C2.  After two accepted reports with the same agent id, the software
    rows stored for the agent are the entries of the second report's
    [software] list whose name is not blank, in their order (name,
    version and publisher stripped, an empty version or publisher as
    NULL): no row of the first report is left. *)
Theorem second_report_replaces_software
    t1 t2 key_file1 key_file2 body1 body2 d0 d1 d2 payload1 payload2 :
  report t1 key_file1 body1 d0 = (StatusOk, d1) ->
  report t2 key_file2 body2 d1 = (StatusOk, d2) ->
  payload_of key_file1 body1 = Some payload1 ->
  payload_of key_file2 body2 = Some payload2 ->
  payload_agent_id repr_str payload1 = payload_agent_id repr_str payload2 ->
  map stored_entry (software_of (payload_agent_id repr_str payload2) d2)
  = omap kept_entry (reported_entries payload2).
Proof.
  intros _ H2 _ Hp2 _.
  rewrite (report_decrypted t2 key_file2 body2 d1 _ Hp2) in H2.
  destruct payload2 as [|b|n|f|s|l|items]; try done.
  destruct (store_report_cases t2 items d1)
    as [[Ha Ho]|[[Ha Ho]|(Ha & Ho & _ & Hsw)]]; try congruence.
  rewrite H2 in Hsw. cbn [snd] in Hsw.
  unfold payload_agent_id, reported_entries. cbn [get]. rewrite Hsw.
  unfold or_.
  destruct (default JNull (lookup_item (Py.lit "software") items))
    as [|b|n|f|s|l|kvs]; try done.
  - by destruct (truthy (JBool b)).
  - by destruct (truthy (JInt n)).
  - by destruct (truthy (JFloat f)).
  - by destruct (truthy (JStr s)).
  - destruct l; done.
  - by destruct (truthy (JDict kvs)).
Qed.

End Service.

Lemma short_enc_data_rejected_witness :
  let raw := JDict [(Py.lit "enc_key", JStr (Py.lit "QUJD"));
                    (Py.lit "enc_data", JStr (Py.lit "AAAA"))] in
  let out := toy_report [payload_a] clock0 (Py.Ok raw) empty_db in
  snd out = empty_db
  /\ (Py.lit "AAAA" = [] -> fst out = Error enc_key_or_enc_data_missing 400)
  /\ (forall pk enc_key,
        Py.lit "AAAA" <> [] ->
        Py.Ok tt = Py.Ok pk ->
        get (or_ raw (JDict [])) (Py.lit "enc_key") = Py.Ok enc_key ->
        truthy enc_key = true ->
        fst out = Error decrypt_failed 400).
Proof.
  apply (short_enc_data_rejected unit toy_b64decode toy_rsa toy_aes
           (toy_json_loads [payload_a]) toy_repr_str clock0 (Py.Ok tt)
           (JDict [(Py.lit "enc_key", JStr (Py.lit "QUJD"));
                   (Py.lit "enc_data", JStr (Py.lit "AAAA"))])
           empty_db (Py.lit "AAAA")
           [Byte.x00; Byte.x00; Byte.x00]).
  - reflexivity.
  - reflexivity.
  - simpl. lia.
Defined.

(** C1, as stated, fails: an empty [enc_data] decodes to zero bytes, and
    the answer is [enc_key_or_enc_data_missing]. *)
Lemma empty_enc_data_reported_missing :
  toy_b64decode (Py.lit "") = Py.Ok []
  /\ toy_report [payload_a] clock0
       (Py.Ok (JDict [(Py.lit "enc_key", JStr (Py.lit "QUJD"));
                      (Py.lit "enc_data", JStr (Py.lit ""))]))
       empty_db
     = (Error enc_key_or_enc_data_missing 400, empty_db).
Proof. split; reflexivity. Qed.

Lemma agent_id_missing_iff_falsy_witness :
  let out := toy_report [JDict [(Py.lit "agent_id", JInt 7)]] clock0
               (Py.Ok request0) empty_db in
  (fst out = Error agent_id_missing 400 <-> falsy (JInt 7))
  /\ (fst out = Error agent_id_missing 400 -> snd out = empty_db)
  /\ (truthy (JInt 7) = true ->
      fst out = StatusOk \/ out = (Error db_error 500, empty_db))
  /\ (fst out = StatusOk ->
      exists r, r ∈ agents (snd out)
                /\ Db.agent_id r = Json.str toy_repr_str (JInt 7))
  /\ (truthy (JInt 7) = true ->
      [(Py.lit "agent_id", JInt 7)] = [(Py.lit "agent_id", JInt 7)] ->
      (fst out = StatusOk
       <-> str_raises (JInt 7) = false
           /\ existsb is_surrogate (Json.str toy_repr_str (JInt 7)) = false)).
Proof.
  exact (proj1 (agent_id_missing_iff_falsy unit toy_b64decode toy_rsa toy_aes
                  (toy_json_loads [JDict [(Py.lit "agent_id", JInt 7)]])
                  toy_repr_str clock0 (Py.Ok tt) (Py.Ok request0) empty_db
                  (JDict [(Py.lit "agent_id", JInt 7)]) eq_refl)
           [(Py.lit "agent_id", JInt 7)] eq_refl).
Defined.

(** C10, as stated, fails in three ways.  An empty array is none of
    null, the empty string, 0 and false, and the answer to it is
    [agent_id_missing].  The one-character string of the lone surrogate
    U+D800 is true, and the answer to it is [db_error]: nothing is
    stored.  And a payload that is an array has no [agent_id] field, yet
    the answer is not [agent_id_missing] but the framework's. *)
Lemma empty_array_agent_id_missing :
  (toy_payload [JDict [(Py.lit "agent_id", JList [])]] (Py.Ok request0)
   = Some (JDict [(Py.lit "agent_id", JList [])])
   /\ toy_report [JDict [(Py.lit "agent_id", JList [])]] clock0
        (Py.Ok request0) empty_db
      = (Error agent_id_missing 400, empty_db)
   /\ JList [] <> JNull /\ JList [] <> JStr [] /\ JList [] <> JInt 0
   /\ JList [] <> JBool false)
  /\ (truthy (JStr [55296%N]) = true
      /\ toy_report [JDict [(Py.lit "agent_id", JStr [55296%N])]] clock0
           (Py.Ok request0) empty_db
         = (Error db_error 500, empty_db))
  /\ toy_report [JList [JInt 1; JInt 2]] clock0 (Py.Ok request0) empty_db
     = (InternalServerError, empty_db).
Proof. repeat split; try reflexivity; discriminate. Qed.

Lemma second_report_replaces_software_witness :
  let serve := toy_report [payload_a; payload_b] clock0 in
  let d1 := snd (serve (Py.Ok request0) empty_db) in
  let d2 := snd (serve (Py.Ok request1) d1) in
  map stored_entry (software_of (payload_agent_id toy_repr_str payload_b) d2)
  = omap kept_entry (reported_entries payload_b).
Proof.
  cbv zeta.
  apply (second_report_replaces_software unit toy_b64decode toy_rsa toy_aes
           (toy_json_loads [payload_a; payload_b]) toy_repr_str
           clock0 clock0 (Py.Ok tt) (Py.Ok tt) (Py.Ok request0) (Py.Ok request1)
           empty_db
           (snd (toy_report [payload_a; payload_b] clock0 (Py.Ok request0) empty_db))
           _ payload_a payload_b); reflexivity.
Defined.

(** The two reports of the example, evaluated: one row is left. *)
Example second_report_example :
  let serve := toy_report [payload_a; payload_b] clock0 in
  let d1 := snd (serve (Py.Ok request0) empty_db) in
  let d2 := snd (serve (Py.Ok request1) d1) in
  map stored_entry (software_of (Py.lit "host-1") d1)
  = [(Py.lit "Foo", Some (Py.lit "1.0"), None)]
  /\ map stored_entry (software_of (Py.lit "host-1") d2)
     = [(Py.lit "Bar", None, Some (Py.lit "Acme"))].
Proof. split; reflexivity. Qed.

End AgentFacts.

(** ** [src/reporting.py] *)

Module ReportingFacts.
Import Reporting.

Local Open Scope Q_scope.

Lemma pos_of_nat_Z n : (1 <= n)%nat -> Z.pos (Pos.of_nat n) = Z.of_nat n.
Proof. lia. Qed.

(** The similarity as a quotient of two counts. *)
Lemma tokens_similarity_quotient a b :
  let A : gset Py.str := list_to_set a in
  let B : gset Py.str := list_to_set b in
  tokens_similarity a b
  == inject_Z (Z.of_nat (size (A ∩ B)))
     / inject_Z (Z.of_nat (Nat.max (size A) (size B))).
Proof.
  cbv zeta. unfold tokens_similarity.
  set (A := list_to_set a : gset Py.str). set (B := list_to_set b : gset Py.str).
  destruct (decide (A = ∅)) as [HA|HA].
  - rewrite bool_decide_eq_true_2 by done. cbn [orb].
    rewrite HA, intersection_empty_l_L, size_empty. simpl. unfold Qdiv. by rewrite Qmult_0_l.
  - rewrite (bool_decide_eq_false_2 _ HA). cbn [orb].
    destruct (decide (B = ∅)) as [HB|HB].
    + rewrite bool_decide_eq_true_2 by done.
      rewrite HB, intersection_empty_r_L, size_empty. simpl. unfold Qdiv. by rewrite Qmult_0_l.
    + rewrite (bool_decide_eq_false_2 _ HB).
      assert (1 <= size A)%nat as HsA.
      { destruct (size A) eqn:E; [|lia]. apply size_empty_inv in E.
        apply leibniz_equiv in E. done. }
      set (i := size (A ∩ B)). set (m := Nat.max (size A) (size B)).
      assert (1 <= m)%nat as Hm by lia.
      rewrite (Qmake_Qdiv (Z.of_nat i) (Pos.of_nat m)).
      rewrite (pos_of_nat_Z m Hm). reflexivity.
Qed.

Lemma tokens_similarity_sym a b : tokens_similarity a b = tokens_similarity b a.
Proof.
  unfold tokens_similarity.
  rewrite (comm_L (∩) (list_to_set a : gset Py.str)), (Nat.max_comm (size _)).
  by rewrite orb_comm.
Qed.

Lemma tokens_similarity_unit a b : 0 <= tokens_similarity a b <= 1.
Proof.
  unfold tokens_similarity.
  set (A := list_to_set a : gset Py.str). set (B := list_to_set b : gset Py.str).
  destruct (bool_decide (A = ∅) || bool_decide (B = ∅)) eqn:E.
  - split; [apply Qle_refl|]. done.
  - apply orb_false_iff in E as [HA _]. apply bool_decide_eq_false in HA.
    assert (1 <= size A)%nat as HsA.
    { destruct (size A) eqn:E; [|lia]. apply size_empty_inv in E.
      apply leibniz_equiv in E. done. }
    assert (size (A ∩ B) <= size A)%nat as Hi.
    { apply subseteq_size, intersection_subseteq_l. }
    unfold Qle. simpl. split; [lia|].
    rewrite pos_of_nat_Z by lia. lia.
Qed.

Lemma Qltb_spec x y : Qltb x y = true <-> x < y.
Proof.
  unfold Qltb. rewrite negb_true_iff. split.
  - intros H. apply Qnot_le_lt. intros Hle.
    apply Qle_bool_iff in Hle. congruence.
  - intros H. destruct (Qle_bool y x) eqn:E; [|done].
    apply Qle_bool_iff in E. exfalso. by apply (Qlt_not_le x y).
Qed.


(** *** The scenario of the constraint "before 7.3.1" *)

(** The verdict under the single constraint < (7,3,1). *)
Lemma single_before_verdict text s iv :
  extract_version_constraints text = Py.Ok [before_7_3_1] ->
  s <> [] -> parse_version s = Py.Ok (Some iv) ->
  version_is_vulnerable (Some s) text
  = Py.Ok (if (compare_versions iv [7; 3; 1] =? -1)%Z then vmatch else vmismatch).
Proof.
  intros He Hs Hp. unfold version_is_vulnerable.
  destruct s as [|c s]; [done|]. rewrite Hp.
  cbn [mbind result_bind Py.bind]. rewrite He.
  cbn [mbind result_bind Py.bind mret result_ret existsb orb].
  change (version_satisfies iv before_7_3_1)
    with (compare_versions iv [7; 3; 1] =? -1)%Z.
  by destruct (compare_versions iv [7; 3; 1] =? -1)%Z.
Qed.

(** The result for an agent with one software row and one disclosure. *)
Lemma match_single agent sw v :
  Py.strip (Db.name sw) <> [] ->
  match_vulns_for_agent agent [(Db.agent_id agent, [sw])] [v]
  = if pair_similar sw v then
      vcheck ← version_is_vulnerable (Db.version sw)
                 (Py.strip (or_empty (product v)));
      mret (match vcheck with
            | vmismatch => []
            | _ => [(v_id v, {| e_vuln := v; e_software := [(sw, vcheck)] |})]
            end)
    else mret [].
Proof.
  intros Hname. unfold match_vulns_for_agent, pair_similar. cbn [get_soft].
  rewrite bool_decide_eq_true_2 by done. cbn [Py.fold_loop].
  destruct (Py.strip (Db.name sw)) as [|c n] eqn:E; [done|].
  unfold check_pair.
  destruct (similar_enough _ _ _ v); [|done].
  destruct (version_is_vulnerable _ _) as [vc|e]; [|done].
  by destruct vc.
Qed.

(** C6, as amended.  For a disclosure whose product text yields the
    single constraint < (7,3,1) on version extraction, as the text
    "before 7.3.1" does: an installed version that parses gets verdict
    match when it is below 7.3.1 and mismatch when it is not; a software
    row that passes the name and vendor comparison gets verdict match and
    is in the correlation result when its version is "7.2.0", and gets
    verdict mismatch and is left out when its version is "7.5.0". *)
Theorem before_7_3_1_verdicts agent sw v text :
  Py.strip (Db.name sw) <> [] ->
  Py.strip (or_empty (product v)) = text ->
  pair_similar sw v = true ->
  extract_version_constraints text = Py.Ok [before_7_3_1] ->
  extract_version_constraints (Py.lit "before 7.3.1") = Py.Ok [before_7_3_1]
  /\ (forall s iv,
        s <> [] -> parse_version s = Py.Ok (Some iv) ->
        version_is_vulnerable (Some s) text
        = Py.Ok (if (compare_versions iv [7; 3; 1] =? -1)%Z
                 then vmatch else vmismatch))
  /\ (Db.version sw = Some (Py.lit "7.2.0") ->
      version_is_vulnerable (Db.version sw) text = Py.Ok vmatch
      /\ match_vulns_for_agent agent [(Db.agent_id agent, [sw])] [v]
         = Py.Ok [(v_id v, {| e_vuln := v; e_software := [(sw, vmatch)] |})])
  /\ (Db.version sw = Some (Py.lit "7.5.0") ->
      version_is_vulnerable (Db.version sw) text = Py.Ok vmismatch
      /\ match_vulns_for_agent agent [(Db.agent_id agent, [sw])] [v] = Py.Ok []).
Proof.
  intros Hname Hprod Hsim Hcons.
  split; [vm_compute; reflexivity|].
  split; [intros s iv; by apply single_before_verdict|].
  rewrite (match_single agent sw v Hname), Hsim, Hprod.
  split; intros ->.
  - assert (version_is_vulnerable (Some (Py.lit "7.2.0")) text = Py.Ok vmatch)
      as E.
    { exact (single_before_verdict text (Py.lit "7.2.0") [7; 2; 0]%Z Hcons
               ltac:(done) ltac:(vm_compute; reflexivity)). }
    split; [exact E|]. by rewrite E.
  - assert (version_is_vulnerable (Some (Py.lit "7.5.0")) text = Py.Ok vmismatch)
      as E.
    { exact (single_before_verdict text (Py.lit "7.5.0") [7; 5; 0]%Z Hcons
               ltac:(done) ltac:(vm_compute; reflexivity)). }
    split; [exact E|]. by rewrite E.
Qed.

Lemma before_7_3_1_verdicts_witness :
  let sw := sample_software "Foo Before 7.3.1" (Some "7.2.0"%string) in
  let v := sample_vuln "Foo Server before 7.3.1" in
  let text := Py.lit "Foo Server before 7.3.1" in
  extract_version_constraints (Py.lit "before 7.3.1") = Py.Ok [before_7_3_1]
  /\ (forall s iv,
        s <> [] -> parse_version s = Py.Ok (Some iv) ->
        version_is_vulnerable (Some s) text
        = Py.Ok (if (compare_versions iv [7; 3; 1] =? -1)%Z
                 then vmatch else vmismatch))
  /\ (Db.version sw = Some (Py.lit "7.2.0") ->
      version_is_vulnerable (Db.version sw) text = Py.Ok vmatch
      /\ match_vulns_for_agent sample_agent [(Db.agent_id sample_agent, [sw])] [v]
         = Py.Ok [(v_id v, {| e_vuln := v; e_software := [(sw, vmatch)] |})])
  /\ (Db.version sw = Some (Py.lit "7.5.0") ->
      version_is_vulnerable (Db.version sw) text = Py.Ok vmismatch
      /\ match_vulns_for_agent sample_agent [(Db.agent_id sample_agent, [sw])] [v]
         = Py.Ok []).
Proof.
  apply (before_7_3_1_verdicts sample_agent
           (sample_software "Foo Before 7.3.1" (Some "7.2.0"%string))
           (sample_vuln "Foo Server before 7.3.1")
           (Py.lit "Foo Server before 7.3.1")).
  - vm_compute. discriminate.
  - vm_compute. reflexivity.
  - vm_compute. reflexivity.
  - vm_compute. reflexivity.
Defined.

(** C6, as stated, fails: a product text can contain "before 7.3.1" and
    yield a second constraint, under which version "7.5.0" is a match. *)
Lemma before_with_second_constraint :
  Py.lit "before 7.3.1 through 9.0" = Py.lit "before 7.3.1" ++ Py.lit " through 9.0"
  /\ extract_version_constraints (Py.lit "before 7.3.1 through 9.0")
     = Py.Ok [before_7_3_1;
              {| op := Py.lit "<="; v1 := [9; 0]%Z; v2 := None |}]
  /\ version_is_vulnerable (Some (Py.lit "7.5.0")) (Py.lit "before 7.3.1 through 9.0")
     = Py.Ok vmatch.
Proof. repeat split; vm_compute; reflexivity. Qed.

(** C7.  The similarity of two token sequences is the number of common
    distinct tokens over the larger number of distinct tokens; it is
    symmetric and lies between 0 and 1; a similarity of exactly one half
    is not below the name threshold; and the software "Acrobat Reader"
    against the product "Adobe Acrobat Reader DC" has similarity one
    half and is in the correlation result. *)
Theorem name_similarity_spec a b :
  let A : gset Py.str := list_to_set a in
  let B : gset Py.str := list_to_set b in
  tokens_similarity a b
  == inject_Z (Z.of_nat (size (A ∩ B)))
     / inject_Z (Z.of_nat (Nat.max (size A) (size B)))
  /\ tokens_similarity a b = tokens_similarity b a
  /\ 0 <= tokens_similarity a b <= 1
  /\ (tokens_similarity a b == 1 # 2 ->
      Qltb (tokens_similarity a b) SIM_THRESHOLD_NAME = false)
  /\ (let sw := sample_software "Acrobat Reader" None in
      let v := sample_vuln "Adobe Acrobat Reader DC" in
      normalize_text (Py.lit "Acrobat Reader")
      = [Py.lit "acrobat"; Py.lit "reader"]
      /\ normalize_text (Py.lit "Adobe Acrobat Reader DC")
         = [Py.lit "adobe"; Py.lit "acrobat"; Py.lit "reader"; Py.lit "dc"]
      /\ tokens_similarity (normalize_text (Py.lit "Acrobat Reader"))
           (normalize_text (Py.lit "Adobe Acrobat Reader DC")) == 1 # 2
      /\ match_vulns_for_agent sample_agent
           [(Db.agent_id sample_agent, [sw])] [v]
         = Py.Ok [(v_id v, {| e_vuln := v; e_software := [(sw, vunknown)] |})]).
Proof.
  cbv zeta. split; [apply tokens_similarity_quotient|].
  split; [apply tokens_similarity_sym|].
  split; [apply tokens_similarity_unit|]. split.
  - intros H. destruct (Qltb _ _) eqn:E; [|done].
    apply Qltb_spec in E. rewrite H in E. unfold SIM_THRESHOLD_NAME in E.
    by apply Qlt_irrefl in E.
  - repeat split; vm_compute; reflexivity.
Qed.

Lemma name_similarity_spec_witness :
  let a := [Py.lit "acrobat"; Py.lit "reader"] in
  let b := [Py.lit "adobe"; Py.lit "acrobat"; Py.lit "reader"; Py.lit "dc"] in
  tokens_similarity a b == 1 # 2
  /\ Qltb (tokens_similarity a b) SIM_THRESHOLD_NAME = false.
Proof.
  cbv zeta.
  assert (tokens_similarity [Py.lit "acrobat"; Py.lit "reader"]
            [Py.lit "adobe"; Py.lit "acrobat"; Py.lit "reader"; Py.lit "dc"]
          == 1 # 2) as H by (vm_compute; reflexivity).
  split; [exact H|].
  exact (proj1 (proj2 (proj2 (proj2
           (name_similarity_spec [Py.lit "acrobat"; Py.lit "reader"]
              [Py.lit "adobe"; Py.lit "acrobat"; Py.lit "reader"; Py.lit "dc"]))))
           H).
Defined.

End ReportingFacts.

(** ** [src/autonomous.py] *)

Module AutonomousFacts.
Import Autonomous.

Local Open Scope Z_scope.

(** C9, as amended.  One pass of the watcher.  (1) When the probe
    raises, names no pointer or reports a count that is not positive, no
    harvest is started and the checkpoint is as before.  (2) When the
    pointer is the text of the checkpoint file with the white space
    around it removed, nothing is done.  (3) Otherwise, with [latest]
    the accepted identifier, of at most 4300 sequence digits, that the
    site reports, exactly one harvest is started, over the range from
    [subtract_steps latest (count - 1)] to [latest]; when it returns,
    the pointer is written to the checkpoint as it is, and when it
    raises the checkpoint is as before. *)
Theorem poll_once_cases probe latest_id harvest st :
  let st' := poll_once probe latest_id harvest st in
  ((Py.is_ok probe = false
    \/ exists nw, probe = Py.Ok nw
                  /\ (news_url nw = None \/ news_url nw = Some []
                      \/ default 0 (count nw) <= 0)) ->
   harvests st' = harvests st /\ checkpoint st' = checkpoint st)
  /\ (forall nw url,
        probe = Py.Ok nw -> news_url nw = Some url ->
        Py.strip <$> checkpoint st = Some url ->
        harvests st' = harvests st /\ checkpoint st' = checkpoint st)
  /\ (forall nw url latest,
        probe = Py.Ok nw -> news_url nw = Some url -> url <> [] ->
        0 < default 0 (count nw) ->
        Py.strip <$> checkpoint st <> Some url ->
        latest_id = Py.Ok (Some latest) ->
        Ids.validate_vuln_id latest = true ->
        (Ids.digit_width latest <= Py.MAX_STR_DIGITS)%nat ->
        exists first,
          Ids.subtract_steps latest (default 0 (count nw) - 1) = Py.Ok first
          /\ harvests st' = harvests st ++ [(first, latest)]
          /\ (Py.is_ok (harvest first latest) = true ->
              checkpoint st' = Some url)
          /\ (Py.is_ok (harvest first latest) = false ->
              checkpoint st' = checkpoint st)).
Proof.
  cbv zeta. unfold poll_once. split; [|split].
  - intros [Hp|(nw & -> & Hn)].
    + destruct probe; done.
    + destruct (news_url nw) as [[|c url]|]; try done.
      destruct (Z.leb_spec (default 0 (count nw)) 0); [done|].
      destruct Hn as [?|[?|?]]; try done. lia.
  - intros nw url -> -> Hc. destruct url as [|c url]; [done|].
    destruct (default 0 (count nw) <=? 0); [done|].
    by rewrite bool_decide_eq_false_2 by (by intros H; apply H).
  - intros nw url latest -> -> Hurl Hcnt Hc -> Hv Hd.
    destruct url as [|c url]; [done|].
    destruct (Z.leb_spec (default 0 (count nw)) 0); [lia|].
    rewrite bool_decide_eq_true_2 by done.
    destruct (IdsFacts.subtract_steps_fields latest (default 0 (count nw) - 1)
                Hv Hd) as (first & ->).
    exists first. split; [reflexivity|].
    destruct (harvest _ latest); done.
Qed.

Lemma poll_once_cases_witness :
  let probe := Py.Ok {| news_url := Some (Py.lit "https://site/news/42");
                        count := Some 3 |} in
  let st := {| checkpoint := Some (Py.lit "https://site/news/41");
               harvests := []; messages := [] |} in
  let st' := poll_once probe (Py.Ok (Some (Py.lit "2024-0107")))
               (fun _ _ => Py.Ok tt) st in
  exists first,
    Ids.subtract_steps (Py.lit "2024-0107") (3 - 1) = Py.Ok first
    /\ harvests st' = [(first, Py.lit "2024-0107")]
    /\ (true = true -> checkpoint st' = Some (Py.lit "https://site/news/42"))
    /\ (true = false -> checkpoint st' = checkpoint st).
Proof.
  cbv zeta.
  refine (proj2 (proj2
    (poll_once_cases
       (Py.Ok {| news_url := Some (Py.lit "https://site/news/42");
                 count := Some 3 |})
       (Py.Ok (Some (Py.lit "2024-0107"))) (fun _ _ => Py.Ok tt)
       {| checkpoint := Some (Py.lit "https://site/news/41");
          harvests := []; messages := [] |}))
    _ (Py.lit "https://site/news/42") (Py.lit "2024-0107")
    eq_refl eq_refl _ _ _ eq_refl _ _).
  - vm_compute. discriminate.
  - reflexivity.
  - vm_compute. discriminate.
  - reflexivity.
  - vm_compute. lia.
Defined.

(** C9, as stated, fails in two ways.  The checkpoint is compared after
    the white space around it is removed, and the pointer is written as
    it is: when the pointer starts with a blank, the checkpoint that the
    last pass wrote equals the pointer, and a harvest is started again.
    And when the harvest raises, the pointer is not written. *)
Lemma poll_once_blank_pointer :
  let url := Py.lit " https://site/news/42" in
  let probe := Py.Ok {| news_url := Some url; count := Some 1 |} in
  let latest := Py.Ok (Some (Py.lit "2024-0107")) in
  let st := {| checkpoint := Some url; harvests := []; messages := [] |} in
  (harvests (poll_once probe latest (fun _ _ => Py.Ok tt) st)
   = [(Py.lit "2024-0107", Py.lit "2024-0107")]
   /\ checkpoint (poll_once probe latest (fun _ _ => Py.Ok tt) st) = Some url)
  /\ (let st0 := {| checkpoint := Some (Py.lit "https://site/news/41");
                    harvests := []; messages := [] |} in
      let st' := poll_once probe latest (fun _ _ => Py.Raise Py.OtherError) st0 in
      harvests st' = [(Py.lit "2024-0107", Py.lit "2024-0107")]
      /\ checkpoint st' = Some (Py.lit "https://site/news/41")).
Proof. repeat split; vm_compute; reflexivity. Qed.

(** The pass of the example, evaluated: the range is 2024-0105 to
    2024-0107. *)
Example poll_once_example :
  let probe := Py.Ok {| news_url := Some (Py.lit "https://site/news/42");
                        count := Some 3 |} in
  let st := {| checkpoint := Some (Py.lit "https://site/news/41");
               harvests := []; messages := [] |} in
  let st' := poll_once probe (Py.Ok (Some (Py.lit "2024-0107")))
               (fun _ _ => Py.Ok tt) st in
  harvests st' = [(Py.lit "2024-0105", Py.lit "2024-0107")]
  /\ checkpoint st' = Some (Py.lit "https://site/news/42").
Proof. split; vm_compute; reflexivity. Qed.

End AutonomousFacts.

(** ** [src/processing.py] *)

Module ProcessingFacts.
Import Processing.

Ltac names_differ :=
  let H := fresh in intros H; vm_compute in H; discriminate H.

Lemma source_not_number : COL_SOURCE <> COL_NUMBER. Proof. names_differ. Qed.
Lemma source_not_norm : COL_SOURCE <> COL_SRC_NORM. Proof. names_differ. Qed.
Lemma source_not_sort : COL_SOURCE <> COL_SORT_DATE. Proof. names_differ. Qed.
Lemma date_not_number : COL_DATE <> COL_NUMBER. Proof. names_differ. Qed.
Lemma date_not_norm : COL_DATE <> COL_SRC_NORM. Proof. names_differ. Qed.
Lemma date_not_sort : COL_DATE <> COL_SORT_DATE. Proof. names_differ. Qed.
Lemma cve_not_number : COL_CVE <> COL_NUMBER. Proof. names_differ. Qed.
Lemma cve_not_norm : COL_CVE <> COL_SRC_NORM. Proof. names_differ. Qed.
Lemma cve_not_sort : COL_CVE <> COL_SORT_DATE. Proof. names_differ. Qed.
Lemma norm_not_number : COL_SRC_NORM <> COL_NUMBER. Proof. names_differ. Qed.
Lemma norm_not_sort : COL_SRC_NORM <> COL_SORT_DATE. Proof. names_differ. Qed.
Lemma sort_not_number : COL_SORT_DATE <> COL_NUMBER. Proof. names_differ. Qed.

Lemma number_not_alias : Py.lower (Py.strip COL_NUMBER) ∉ source_aliases.
Proof.
  assert (bool_decide (Py.lower (Py.strip COL_NUMBER) ∈ source_aliases) = false)
    as E by (vm_compute; reflexivity).
  by apply bool_decide_eq_false in E.
Qed.

(** *** Deduplication *)

Section KeepLast.
Context (key : row -> cell).

Lemma keep_last_by_subset rs r : r ∈ keep_last_by key rs -> r ∈ rs.
Proof.
  induction rs as [|x rs IH]; simpl; [done|].
  case_bool_decide.
  - intros H'. right. by apply IH.
  - intros H'. apply elem_of_cons in H' as [->|H']; [left|right; by apply IH].
Qed.

Lemma keep_last_by_keys rs k :
  k ∈ fmap key (keep_last_by key rs) -> k ∈ fmap key rs.
Proof.
  intros H. apply list_elem_of_fmap in H as (r & -> & Hr).
  apply list_elem_of_fmap. exists r. split; [done|].
  by apply keep_last_by_subset.
Qed.

Lemma keep_last_by_NoDup rs : NoDup (fmap key (keep_last_by key rs)).
Proof.
  induction rs as [|x rs IH]; simpl; [constructor|].
  case_bool_decide as Hx; [done|].
  simpl. constructor; [|done].
  intros Hin. apply Hx. by apply keep_last_by_keys.
Qed.

Lemma keep_last_by_id rs : NoDup (fmap key rs) -> keep_last_by key rs = rs.
Proof.
  induction rs as [|x rs IH]; simpl; [done|].
  intros H. apply NoDup_cons in H as [Hx Hrs].
  rewrite bool_decide_eq_false_2 by done. by rewrite IH.
Qed.

Lemma keep_last_by_nonempty rs : rs <> [] -> keep_last_by key rs <> [].
Proof.
  induction rs as [|x rs IH]; [done|]. intros _. simpl.
  case_bool_decide as Hx; [|done].
  apply IH. intros ->. simpl in Hx. by apply elem_of_nil in Hx.
Qed.

End KeepLast.

Lemma keep_last_by_map (key : row -> cell) (g : row -> row) rs :
  keep_last_by key (fmap g rs) = fmap g (keep_last_by (fun r => key (g r)) rs).
Proof.
  induction rs as [|x rs IH]; [done|].
  rewrite fmap_cons. cbn [keep_last_by]. rewrite IH, <- list_fmap_compose.
  unfold compose. by case_bool_decide.
Qed.

(** *** Sorting *)

Section Sort.
Context {A : Type} (key : A -> cell).

Lemma insert_sorted_perm x l : insert_sorted key x l ≡ₚ x :: l.
Proof.
  induction l as [|y l IH]; simpl; [done|].
  destruct (cell_leb (key x) (key y)); [done|].
  rewrite IH. apply Permutation_swap.
Qed.

Lemma stable_sort_perm l : stable_sort key l ≡ₚ l.
Proof.
  induction l as [|x l IH]; simpl; [done|].
  by rewrite insert_sorted_perm, IH.
Qed.

End Sort.

Lemma sortable_text keys :
  Forall (fun k => exists s, k = Text s) keys -> sortable keys = true.
Proof.
  destruct keys as [|k ks]; [done|]. intros H.
  apply Forall_cons in H as [[s ->] Hks]. simpl.
  apply forallb_forall. intros k Hk. apply list_elem_of_In in Hk.
  rewrite Forall_forall in Hks. by destruct (Hks k Hk) as [t ->].
Qed.

Lemma sortable_stamp keys :
  Forall (fun k => exists t, k = Stamp t) keys -> sortable keys = true.
Proof.
  destruct keys as [|k ks]; [done|]. intros H.
  apply Forall_cons in H as [[s ->] Hks]. simpl.
  apply forallb_forall. intros k Hk. apply list_elem_of_In in Hk.
  rewrite Forall_forall in Hks. by destruct (Hks k Hk) as [t ->].
Qed.

(** A sort on a column whose cells are of one kind returns the rows in
    another order. *)
Lemma sort_values_perm c ascending df :
  (Forall (fun r => text_cell (cell_of r c)) (rows df)
   \/ Forall (fun r => cell_of r c = NaN \/ exists t, cell_of r c = Stamp t)
        (rows df)) ->
  exists rs, sort_values c ascending df
             = Py.Ok {| columns := columns df; rows := rs |}
             /\ rs ≡ₚ rows df.
Proof.
  intros Hkind. unfold sort_values. cbv zeta.
  set (key := fun r : row => cell_of r c).
  set (present := filter (fun r => cell_of r c <> NaN) (rows df)).
  set (missing := filter (fun r => cell_of r c = NaN) (rows df)).
  assert (sortable (fmap key present) = true) as ->.
  { destruct Hkind as [H|H].
    - apply sortable_text. apply Forall_fmap, Forall_forall.
      intros r Hr. apply list_elem_of_filter in Hr as [Hne Hr].
      rewrite Forall_forall in H. specialize (H r Hr).
      unfold compose, key. cbv beta.
      destruct (cell_of r c) as [|s|n|t];
        [by destruct Hne|by exists s|done|done].
    - apply sortable_stamp. apply Forall_fmap, Forall_forall.
      intros r Hr. apply list_elem_of_filter in Hr as [Hne Hr].
      rewrite Forall_forall in H. unfold compose, key. cbv beta.
      destruct (H r Hr) as [E|E]; done. }
  eexists. split; [reflexivity|].
  assert (present ++ missing ≡ₚ rows df) as Hpm.
  { unfold present, missing. rewrite (comm (++)).
    apply (filter_app_complement (fun r => cell_of r c = NaN)). }
  rewrite <- Hpm. apply Permutation_app_tail.
  destruct ascending.
  - apply stable_sort_perm.
  - by rewrite reverse_Permutation, stable_sort_perm, reverse_Permutation.
Qed.


(** *** Rows that follow rows *)

Lemma follows_refl r : follows r r.
Proof. split; auto. Qed.

Lemma follows_trans r1 r2 r3 : follows r1 r2 -> follows r2 r3 -> follows r1 r3.
Proof.
  intros [H1 H1'] [H2 H2']. split.
  - intros c Hc. by rewrite H2, H1.
  - intros c v Hv Hc. apply H1'; [|done]. by apply H2'.
Qed.

Lemma follows_cell r r' c : follows r r' -> ~ technical c -> cell_of r' c = cell_of r c.
Proof. intros [H _] Hc. unfold cell_of. by rewrite H. Qed.

Lemma follows_text r r' : follows r r' -> text_row r -> text_row r'.
Proof. intros [_ H] Hr c v Hv Hc. apply (Hr c v); [by apply H|done]. Qed.

Lemma follows_delete c r : c <> COL_NUMBER -> technical c -> follows r (delete c r).
Proof.
  intros Hn Hc. split.
  - intros c' Hc'. apply lookup_delete_ne. intros ->. done.
  - intros c' v Hv _. apply lookup_delete_Some in Hv as [_ Hv]. done.
Qed.

Lemma follows_delete_number r : follows r (delete COL_NUMBER r).
Proof.
  split.
  - intros c' Hc'. apply lookup_delete_ne. intros <-. apply Hc'. by left.
  - intros c' v Hv _. apply lookup_delete_Some in Hv as [_ Hv]. done.
Qed.

Lemma follows_number r v : follows r (<[COL_NUMBER := v]> r).
Proof.
  split.
  - intros c Hc. apply lookup_insert_ne. intros <-. apply Hc. by left.
  - intros c w Hw Hc. by rewrite lookup_insert_ne in Hw.
Qed.

(** A technical cell put in and taken out again. *)
Lemma follows_insert_delete c v r :
  c <> COL_NUMBER -> technical c -> follows r (delete c (<[c := v]> r)).
Proof.
  intros Hn Hc. rewrite delete_insert_eq. by apply follows_delete.
Qed.

Lemma source_free : ~ technical COL_SOURCE.
Proof.
  intros [H|[H|H]];
    [by apply source_not_number|by apply source_not_sort|by apply source_not_norm].
Qed.

Lemma date_free : ~ technical COL_DATE.
Proof.
  intros [H|[H|H]];
    [by apply date_not_number|by apply date_not_sort|by apply date_not_norm].
Qed.

Lemma cve_free : ~ technical COL_CVE.
Proof.
  intros [H|[H|H]];
    [by apply cve_not_number|by apply cve_not_sort|by apply cve_not_norm].
Qed.

(** *** Shuffles *)

Lemma Forall2_perm_r {A B} (R : A -> B -> Prop) l1 l2 l2' :
  Forall2 R l1 l2 -> l2 ≡ₚ l2' ->
  exists l1', l1' ≡ₚ l1 /\ Forall2 R l1' l2'.
Proof.
  intros HF Hp. revert l1 HF.
  induction Hp as [|y l2 l2' Hp IH|y z l2|l2 l2' l2'' Hp1 IH1 Hp2 IH2];
    intros l1 HF.
  - exists l1. done.
  - apply Forall2_cons_inv_r in HF as (x & l1' & Hx & HF & ->).
    destruct (IH _ HF) as (k & Hk & HFk).
    exists (x :: k). split; [by constructor|by constructor].
  - apply Forall2_cons_inv_r in HF as (x & l1' & Hx & HF & ->).
    apply Forall2_cons_inv_r in HF as (x' & l1'' & Hx' & HF & ->).
    exists (x' :: x :: l1''). split; [apply Permutation_swap|].
    by repeat constructor.
  - destruct (IH1 _ HF) as (k & Hk & HFk).
    destruct (IH2 _ HFk) as (k' & Hk' & HFk').
    exists k'. split; [by rewrite Hk'|done].
Qed.

Lemma shuffled_of_perm l l' : l' ≡ₚ l -> shuffled l l'.
Proof.
  intros H. exists l'. split; [done|].
  apply Forall2_same_length_lookup. split; [done|].
  intros i r r' Hr Hr'. rewrite Hr in Hr'. injection Hr' as <-.
  apply follows_refl.
Qed.

Lemma shuffled_refl l : shuffled l l.
Proof. by apply shuffled_of_perm. Qed.

Lemma shuffled_trans l1 l2 l3 : shuffled l1 l2 -> shuffled l2 l3 -> shuffled l1 l3.
Proof.
  intros (rs & Hrs & HF) (rs' & Hrs' & HF').
  destruct (Forall2_perm_r _ _ _ _ HF (symmetry Hrs')) as (k & Hk & HFk).
  exists k. split; [by rewrite Hk|].
  clear -HFk HF'. revert l3 HF'.
  induction HFk as [|x y k rs' Hxy HFk IH]; intros l3 HF'.
  - apply Forall2_nil_inv_l in HF' as ->. constructor.
  - apply Forall2_cons_inv_l in HF' as (z & l3' & Hz & HF' & ->).
    constructor; [by eapply follows_trans|by apply IH].
Qed.

Lemma shuffled_fmap (g : row -> row) l :
  (forall r, follows r (g r)) -> shuffled l (g <$> l).
Proof.
  intros Hg. exists l. split; [done|].
  apply Forall2_fmap_r, Forall_Forall2_diag, Forall_forall. auto.
Qed.

Lemma shuffled_number l (vals : list cell) :
  length vals = length l ->
  shuffled l (zip_with (fun (r : row) v => <[COL_NUMBER := v]> r) l vals).
Proof.
  intros Hl. exists l. split; [done|]. revert vals Hl.
  induction l as [|r l IH]; intros vals Hl.
  - destruct vals; [constructor|done].
  - destruct vals as [|v vals]; [done|]. simpl.
    constructor; [apply follows_number|]. apply IH. by injection Hl.
Qed.

Lemma shuffled_length l l' : shuffled l l' -> length l' = length l.
Proof.
  intros (rs & Hrs & HF). rewrite <- (Forall2_length _ _ _ HF).
  by rewrite Hrs.
Qed.

Lemma shuffled_cells l l' c :
  shuffled l l' -> ~ technical c ->
  (fun r => cell_of r c) <$> l' ≡ₚ (fun r => cell_of r c) <$> l.
Proof.
  intros (rs & Hrs & HF) Hc. rewrite <- Hrs. clear Hrs.
  induction HF as [|r r' rs l' Hr HF IH]; [done|].
  rewrite !fmap_cons, (follows_cell _ _ _ Hr Hc). by constructor.
Qed.

Lemma shuffled_keys {K} (f : cell -> K) l l' c :
  shuffled l l' -> ~ technical c ->
  (fun r => f (cell_of r c)) <$> l' ≡ₚ (fun r => f (cell_of r c)) <$> l.
Proof.
  intros Hs Hc. pose proof (shuffled_cells l l' c Hs Hc) as H.
  apply (fmap_Permutation f) in H. rewrite <- !list_fmap_compose in H.
  exact H.
Qed.

Lemma shuffled_text l l' : shuffled l l' -> Forall text_row l -> Forall text_row l'.
Proof.
  intros (rs & Hrs & HF) Hl. rewrite <- Hrs in Hl. clear Hrs.
  induction HF as [|r r' rs l' Hr HF IH]; [done|].
  apply Forall_cons in Hl as [Hr' Hl].
  constructor; [by eapply follows_text|by apply IH].
Qed.

End ProcessingFacts.

(** ** The aggregation, step by step *)

Module AggregationFacts.
Import Processing ProcessingFacts.

Local Open Scope nat_scope.

Lemma filter_absent (c : Py.str) (l : list Py.str) :
  c ∉ l -> filter (fun c' => c' <> c) l = l.
Proof.
  induction l as [|x l IH]; intros H; [done|].
  apply not_elem_of_cons in H as [Hx Hl].
  rewrite filter_cons_True by done. by rewrite IH.
Qed.

Lemma filter_removes (c : Py.str) (l : list Py.str) :
  c ∉ filter (fun c' => c' <> c) l.
Proof. intros H. apply list_elem_of_filter in H as [H _]. done. Qed.

Lemma filter_keeps (c x : Py.str) (l : list Py.str) :
  x <> c -> (x ∈ filter (fun c' => c' <> c) l <-> x ∈ l).
Proof. intros Hx. rewrite list_elem_of_filter. tauto. Qed.

Lemma has_column_true c df : has_column c df = true <-> c ∈ columns df.
Proof. unfold has_column. apply bool_decide_eq_true. Qed.

Lemma has_column_false c df : has_column c df = false <-> c ∉ columns df.
Proof. unfold has_column. apply bool_decide_eq_false. Qed.

Lemma is_empty_false df :
  is_empty df = false <-> columns df <> [] /\ rows df <> [].
Proof.
  unfold is_empty. rewrite orb_false_iff, !bool_decide_eq_false. tauto.
Qed.

Lemma zip_with_shape {A B} (h1 h2 : A -> A) (ins : A -> B -> A) l vals :
  h2 <$> zip_with ins (h1 <$> l) vals
  = zip_with (fun r v => h2 (ins (h1 r) v)) l vals.
Proof.
  revert vals. induction l as [|r l IH]; intros [|v vals]; try done.
  simpl. by rewrite <- IH.
Qed.

Lemma Forall2_zip_follows (H : row -> cell -> row) (l : list row) vals :
  (forall r v, follows r (H r v)) -> length vals = length l ->
  Forall2 follows l (zip_with H l vals).
Proof.
  intros HH. revert vals. induction l as [|r l IH]; intros vals Hl.
  - destruct vals; [constructor|done].
  - destruct vals as [|v vals]; [done|]. simpl.
    constructor; [apply HH|]. apply IH. by injection Hl.
Qed.

Lemma perm_fmap_inv {A B} (g : A -> B) (l : list A) (l' : list B) :
  l' ≡ₚ g <$> l -> exists l0, l0 ≡ₚ l /\ l' = g <$> l0.
Proof.
  intros Hp.
  assert (Forall2 (fun x y => y = g x) l (g <$> l)) as HF.
  { apply Forall2_fmap_r, Forall_Forall2_diag, Forall_forall. auto. }
  destruct (Forall2_perm_r _ _ _ _ HF (symmetry Hp)) as (l0 & Hl0 & HF0).
  exists l0. split; [done|]. clear -HF0.
  induction HF0 as [|x y l0 l' -> HF IH]; [done|]. by rewrite fmap_cons, IH.
Qed.

Lemma cell_of_insert_eq (r : row) c v : cell_of (<[c := v]> r) c = v.
Proof. unfold cell_of. by rewrite lookup_insert_eq. Qed.

Lemma cell_of_insert_ne (r : row) c c' v :
  c <> c' -> cell_of (<[c := v]> r) c' = cell_of r c'.
Proof. intros H. unfold cell_of. by rewrite lookup_insert_ne. Qed.

Lemma cell_of_delete_ne (r : row) c c' :
  c <> c' -> cell_of (delete c r) c' = cell_of r c'.
Proof. intros H. unfold cell_of. by rewrite lookup_delete_ne. Qed.

Lemma keep_last_by_ext (f f' : row -> cell) rs :
  (forall r, f r = f' r) -> keep_last_by f rs = keep_last_by f' rs.
Proof.
  intros H. induction rs as [|r rs IH]; [done|]. simpl.
  rewrite IH, H.
  assert (f <$> rs = f' <$> rs) as ->; [|done].
  apply list_fmap_ext. intros i x _. apply H.
Qed.

(** *** The order of the columns *)

Lemma order_rows df fo : rows (_apply_output_order df fo) = rows df.
Proof.
  unfold _apply_output_order. destruct (is_empty df); [done|]. by destruct fo.
Qed.

Lemma order_columns df fo :
  NoDup (columns df) -> NoDup fo ->
  columns (_apply_output_order df fo) ≡ₚ columns df.
Proof.
  intros Hc Hfo. unfold _apply_output_order.
  destruct (is_empty df); [done|]. destruct fo as [|x fo']; [done|].
  set (fo := x :: fo') in *. cbn [columns].
  set (ordered := filter (fun c => c ∈ columns df) fo).
  apply NoDup_Permutation; [|done|].
  - apply NoDup_app. split; [by apply NoDup_filter|]. split.
    + intros c Hin Hin'. apply list_elem_of_filter in Hin' as [Hn _]. done.
    + by apply NoDup_filter.
  - intros c. rewrite elem_of_app. split.
    + intros [H|H].
      * apply list_elem_of_filter in H as [H _]. done.
      * apply list_elem_of_filter in H as [_ H]. done.
    + intros H. destruct (decide (c ∈ ordered)) as [Ho|Ho]; [by left|].
      right. apply list_elem_of_filter. done.
Qed.


Section Aggregation.
Context (urlsplit : Py.str -> Py.result (Py.str * Py.str * Py.str * Py.str * Py.str)).
Context (parse_qsl : Py.str -> list (Py.str * Py.str)).
Context (urlencode : list (Py.str * Py.str) -> Py.str).
Context (urlunsplit : Py.str * Py.str * Py.str * Py.str * Py.str -> Py.str).
Context (to_datetime_raises : list cell -> bool).
Context (to_datetime : list cell -> cell -> option Z).

Let normalize := _normalize_url urlsplit parse_qsl urlencode urlunsplit.
Let dedup := dedup_by_source urlsplit parse_qsl urlencode urlunsplit.
Let sort_rows := sort_step to_datetime_raises to_datetime.
Let sort_renumber := _sort_and_renumber to_datetime_raises to_datetime.
Let finish_ :=
  finish urlsplit parse_qsl urlencode urlunsplit to_datetime_raises to_datetime.
Let build :=
  _build_final_dataframe urlsplit parse_qsl urlencode urlunsplit
    to_datetime_raises to_datetime.

(** The key of the deduplication. *)
Let link (r : row) : cell := normalize (cell_of r COL_SOURCE).

(** *** Deduplication *)

Lemma dedup_columns df :
  columns (dedup df)
  = if has_column COL_SOURCE df
    then filter (fun c => c <> COL_SRC_NORM) (columns df)
    else columns df.
Proof.
  unfold dedup, dedup_by_source. destruct (has_column COL_SOURCE df); [|done].
  cbn [columns drop_column drop_duplicates_last assign].
  destruct (has_column COL_SRC_NORM df); [done|].
  rewrite filter_app, filter_cons_False, filter_nil, app_nil_r; [done|].
  intros H. by apply H.
Qed.

Lemma dedup_rows df :
  has_column COL_SOURCE df = true ->
  rows (dedup df) = delete COL_SRC_NORM <$> keep_last_by link (rows df).
Proof.
  intros H. unfold dedup, dedup_by_source. rewrite H.
  cbn [rows drop_column drop_duplicates_last assign].
  rewrite zip_with_fmap_r, zip_with_diag. unfold keep_last.
  rewrite keep_last_by_map, <- list_fmap_compose.
  rewrite (keep_last_by_ext _ link)
    by (intros r; unfold compose; apply cell_of_insert_eq).
  apply list_fmap_ext. intros i r _. simpl. by rewrite delete_insert_eq.
Qed.

Lemma dedup_rows_same df :
  has_column COL_SOURCE df = false -> rows (dedup df) = rows df.
Proof. intros H. unfold dedup, dedup_by_source. by rewrite H. Qed.

(** The rows after deduplication follow rows of the frame, one for each
    distinct link. *)
Lemma dedup_shuffled df :
  exists kept,
    shuffled kept (rows (dedup df))
    /\ (forall r, r ∈ kept -> r ∈ rows df)
    /\ (rows df <> [] -> kept <> [])
    /\ (has_column COL_SOURCE df = true ->
        NoDup (link <$> kept)
        /\ (NoDup (link <$> rows df) -> kept = rows df)).
Proof.
  destruct (has_column COL_SOURCE df) eqn:H.
  - exists (keep_last_by link (rows df)). rewrite (dedup_rows df H).
    split; [|split; [|split]].
    + apply shuffled_fmap. intros r. apply follows_delete;
        [apply norm_not_number|by right; right].
    + intros r. apply keep_last_by_subset.
    + apply keep_last_by_nonempty.
    + intros _. split; [apply keep_last_by_NoDup|apply keep_last_by_id].
  - exists (rows df). rewrite (dedup_rows_same df H).
    split; [apply shuffled_refl|]. split; [done|]. split; done.
Qed.

Lemma dedup_keeps_all df :
  has_column COL_SOURCE df = false \/ NoDup (link <$> rows df) ->
  shuffled (rows df) (rows (dedup df)).
Proof.
  intros H. destruct (has_column COL_SOURCE df) eqn:Hs.
  - destruct H as [H|H]; [done|]. rewrite (dedup_rows df Hs).
    rewrite keep_last_by_id by done. apply shuffled_fmap. intros r.
    apply follows_delete; [apply norm_not_number|by right; right].
  - rewrite (dedup_rows_same df Hs). apply shuffled_refl.
Qed.

(** *** Sorting and numbering *)

Lemma text_row_cell r c : text_row r -> c <> COL_NUMBER -> text_cell (cell_of r c).
Proof.
  intros Hr Hc. unfold cell_of. destruct (r !! c) as [v|] eqn:E; [|done].
  by apply (Hr c v).
Qed.

Lemma text_column view c :
  Forall text_row (rows view) -> c <> COL_NUMBER ->
  Forall (fun r => text_cell (cell_of r c)) (rows view).
Proof.
  intros H Hc. eapply Forall_impl; [exact H|]. intros r Hr.
  by apply text_row_cell.
Qed.

Lemma frame_eta df : {| columns := columns df; rows := rows df |} = df.
Proof. by destruct df. Qed.

Lemma sort_stage view :
  Forall text_row (rows view) ->
  COL_SORT_DATE ∉ columns view ->
  let dated :=
    has_column COL_DATE view
    && negb (to_datetime_raises ((fun r => cell_of r COL_DATE) <$> rows view)) in
  exists (g : row -> row) rs0,
    rs0 ≡ₚ rows view
    /\ sort_rows view
       = Py.Ok {| columns := if dated then columns view ++ [COL_SORT_DATE]
                             else columns view;
                  rows := g <$> rs0 |}
    /\ (forall r c, c <> COL_SORT_DATE -> g r !! c = r !! c)
    /\ (dated = false -> forall r, g r = r).
Proof.
  intros Htext Hsort. cbv zeta. unfold sort_rows, sort_step.
  assert (forall c ascending, c <> COL_NUMBER ->
            exists (g : row -> row) rs0,
              rs0 ≡ₚ rows view
              /\ sort_values c ascending view
                 = Py.Ok {| columns := columns view; rows := g <$> rs0 |}
              /\ (forall r c, c <> COL_SORT_DATE -> g r !! c = r !! c)
              /\ (forall r, g r = r)) as Hplain.
  { intros c asc Hc.
    destruct (sort_values_perm c asc view) as (rs & E & Hp).
    { left. by apply text_column. }
    exists id, rs. rewrite list_fmap_id. repeat split; done. }
  destruct (has_column COL_DATE view) eqn:Hd; cbn [andb].
  - destruct (to_datetime_raises _) eqn:Hr; cbn [negb].
    + destruct (Hplain COL_DATE false date_not_number) as (g & rs0 & ? & ? & ? & ?).
      exists g, rs0. repeat split; done.
    + set (stamp := fun v : cell =>
                      match to_datetime ((fun r => cell_of r COL_DATE) <$> rows view) v with
                      | Some t => Stamp t
                      | None => NaN
                      end).
      set (g := fun r : row => <[COL_SORT_DATE := stamp (cell_of r COL_DATE)]> r).
      set (a := assign COL_SORT_DATE _ view).
      assert (columns a = columns view ++ [COL_SORT_DATE]) as Hca.
      { unfold a, assign. cbn [columns].
        by rewrite (proj2 (has_column_false _ _) Hsort). }
      assert (rows a = g <$> rows view) as Hra.
      { unfold a, assign. cbn [rows].
        rewrite <- list_fmap_compose, zip_with_fmap_r, zip_with_diag. done. }
      destruct (sort_values_perm COL_SORT_DATE false a) as (rs & E & Hp).
      { right. rewrite Hra. apply Forall_fmap, Forall_forall. intros r _.
        unfold compose, g. rewrite cell_of_insert_eq. unfold stamp.
        destruct (to_datetime _ _); [right; by eexists|by left]. }
      rewrite Hra in Hp. apply perm_fmap_inv in Hp as (rs0 & Hp0 & ->).
      exists g, rs0. rewrite E, Hca. repeat split; try done.
      intros r c Hc. unfold g. by rewrite lookup_insert_ne.
  - destruct (has_column COL_CVE view).
    + destruct (Hplain COL_CVE true cve_not_number) as (g & rs0 & ? & ? & ? & ?).
      exists g, rs0. repeat split; done.
    + destruct (has_column COL_SOURCE view).
      * destruct (Hplain COL_SOURCE true source_not_number)
          as (g & rs0 & ? & ? & ? & ?).
        exists g, rs0. repeat split; done.
      * exists id, (rows view). rewrite list_fmap_id, frame_eta.
        repeat split; done.
Qed.

Lemma renumber_stage (df : frame) (fo : list Py.str) (g : row -> row)
    (rs0 : list row) :
  rows df = g <$> rs0 ->
  (forall r c, c <> COL_SORT_DATE -> g r !! c = r !! c) ->
  (COL_SORT_DATE ∈ columns df \/ forall r, g r = r) ->
  let X := filter (fun c => c <> COL_NUMBER) (columns df) in
  let pos := number_position fo in
  (pos <= length X ->
   exists out,
     renumber_step df fo = Py.Ok out
     /\ columns out
        = filter (fun c => c <> COL_SORT_DATE) (take pos X ++ [COL_NUMBER] ++ drop pos X)
     /\ Forall2 follows rs0 (rows out))
  /\ (length X < pos -> renumber_step df fo = Py.Raise Py.IndexError).
Proof.
  intros Hrows Hg Hsort. cbv zeta.
  set (X := filter (fun c => c <> COL_NUMBER) (columns df)).
  set (pos := number_position fo).
  unfold renumber_step. cbv zeta. fold pos.
  set (vals := Num <$> seqZ 1 (Z.of_nat (length (rows df)))).
  assert (length vals = length rs0) as Hvals.
  { unfold vals. rewrite length_fmap, length_seqZ, Nat2Z.id, Hrows.
    apply length_fmap. }
  assert (exists d1 : row -> row,
            (if has_column COL_NUMBER df then drop_column COL_NUMBER df else df)
            = {| columns := X; rows := d1 <$> rows df |}
            /\ (forall r c, c <> COL_NUMBER -> d1 r !! c = r !! c))
    as (d1 & -> & Hd1).
  { destruct (has_column COL_NUMBER df) eqn:Hn.
    - exists (delete COL_NUMBER). split; [done|].
      intros r c Hc. by apply lookup_delete_ne.
    - exists id. unfold X.
      rewrite filter_absent by (by apply has_column_false).
      rewrite list_fmap_id, frame_eta. done. }
  unfold insert_column. cbn [columns rows]. split.
  - intros Hpos. destruct (Nat.leb_spec pos (length X)); [|lia].
    cbn [mbind result_bind Py.bind mret result_ret].
    set (inserted := {| columns := take pos X ++ [COL_NUMBER] ++ drop pos X |}).
    assert (COL_SORT_DATE ∈ columns inserted <-> COL_SORT_DATE ∈ columns df)
      as Hin.
    { unfold inserted. cbn [columns].
      rewrite !elem_of_app, list_elem_of_singleton.
      assert (COL_SORT_DATE ∈ take pos X \/ COL_SORT_DATE ∈ drop pos X
              <-> COL_SORT_DATE ∈ X) as HX.
      { rewrite <- elem_of_app, take_drop. done. }
      unfold X in HX at 3. rewrite filter_keeps in HX by apply sort_not_number.
      pose proof sort_not_number. tauto. }
    destruct (has_column COL_SORT_DATE inserted) eqn:Hs.
    + eexists. split; [reflexivity|]. split; [done|].
      cbn [rows drop_column inserted]. rewrite Hrows.
      rewrite zip_with_shape, zip_with_fmap_l.
      apply Forall2_zip_follows; [|done]. intros r v. split.
      * intros c Hc.
        rewrite lookup_delete_ne by (intros <-; apply Hc; by right; left).
        rewrite lookup_insert_ne by (intros <-; apply Hc; by left).
        rewrite Hd1 by (intros ->; apply Hc; by left).
        apply Hg. intros ->. apply Hc. by right; left.
      * intros c w Hw Hc. apply lookup_delete_Some in Hw as [Hcs Hw].
        rewrite lookup_insert_ne in Hw by done.
        rewrite Hd1, Hg in Hw by done. done.
    + apply has_column_false in Hs.
      assert (forall r, g r = r) as Hid.
      { destruct Hsort as [Hsort|Hsort]; [|done]. apply Hin in Hsort. done. }
      eexists. split; [reflexivity|]. split.
      { symmetry. by apply filter_absent. }
      cbn [rows inserted]. rewrite Hrows.
      rewrite zip_with_fmap_l, zip_with_fmap_l.
      apply Forall2_zip_follows; [|done]. intros r v. rewrite Hid. split.
      * intros c Hc.
        rewrite lookup_insert_ne by (intros <-; apply Hc; by left).
        apply Hd1. intros ->. apply Hc. by left.
      * intros c w Hw Hc. rewrite lookup_insert_ne in Hw by done.
        by rewrite Hd1 in Hw.
  - intros Hpos. destruct (Nat.leb_spec pos (length X)); [lia|]. done.
Qed.

Lemma sort_renumber_spec view (fo : list Py.str) :
  is_empty view = false ->
  Forall text_row (rows view) ->
  COL_SORT_DATE ∉ columns view ->
  let dated :=
    has_column COL_DATE view
    && negb (to_datetime_raises ((fun r => cell_of r COL_DATE) <$> rows view)) in
  let X := filter (fun c => c <> COL_NUMBER) (columns view) in
  let width := length X + (if dated then 1 else 0) in
  let pos := number_position fo in
  (pos <= width ->
   exists out,
     sort_renumber view fo = Py.Ok out
     /\ columns out ≡ₚ COL_NUMBER :: X
     /\ shuffled (rows view) (rows out))
  /\ (width < pos -> sort_renumber view fo = Py.Raise Py.IndexError).
Proof.
  intros Hne Htext Hsort. cbv zeta.
  set (dated := has_column COL_DATE view && _).
  set (X := filter (fun c => c <> COL_NUMBER) (columns view)).
  unfold sort_renumber, _sort_and_renumber. rewrite Hne.
  destruct (sort_stage view Htext Hsort) as (g & rs0 & Hp & Hs & Hg & Hid).
  fold dated in Hs, Hid. unfold sort_rows in Hs. rewrite Hs.
  cbn [mbind result_bind Py.bind].
  set (sorted := {| columns := if dated then _ else _ |}).
  assert (filter (fun c => c <> COL_NUMBER) (columns sorted)
          = if dated then X ++ [COL_SORT_DATE] else X) as HX.
  { unfold sorted. cbn [columns]. destruct dated; [|done].
    rewrite filter_app, filter_cons_True by apply sort_not_number. done. }
  assert (COL_SORT_DATE ∉ X) as HsX.
  { intros H. apply list_elem_of_filter in H as [_ H]. done. }
  destruct (renumber_stage sorted fo g rs0 eq_refl Hg) as [Hok Hbad].
  { unfold sorted. cbn [columns]. destruct dated eqn:Hd.
    - left. apply elem_of_app. right. apply list_elem_of_singleton. done.
    - right. by apply Hid. }
  rewrite HX in Hok, Hbad.
  assert (length (if dated then X ++ [COL_SORT_DATE] else X)
          = length X + (if dated then 1 else 0)) as Hlen.
  { destruct dated; [by rewrite length_app|lia]. }
  rewrite Hlen in Hok, Hbad. split; [|done].
  intros Hpos. destruct (Hok Hpos) as (out & E & Hc & HF).
  exists out. split; [done|]. split; [|by exists rs0].
  rewrite Hc. change ([COL_NUMBER] ++ ?l) with (COL_NUMBER :: l).
  rewrite <- (Permutation_middle (take _ _) (drop _ _) COL_NUMBER), take_drop.
  rewrite filter_cons_True by (intros H; by apply sort_not_number).
  apply Permutation_skip. destruct dated.
  - rewrite filter_app, filter_cons_False, filter_nil, app_nil_r
      by (intros H; by apply H).
    by rewrite filter_absent.
  - by rewrite filter_absent.
Qed.

(** *** The source column *)

Lemma unify_id df :
  COL_SOURCE ∈ columns df \/ Forall (fun c => ~ is_alias c) (columns df) ->
  _unify_source_column df = df.
Proof.
  intros H. unfold _unify_source_column. destruct (is_empty df); [done|].
  destruct (has_column COL_SOURCE df) eqn:Hs; [done|].
  destruct H as [H|H]; [by apply has_column_false in Hs|].
  destruct (list_find _ _) as [[i col]|] eqn:E; [|done].
  apply list_find_Some in E as (Hi & Hal & _).
  rewrite Forall_forall in H. exfalso. apply (H col); [|done].
  by eapply list_elem_of_lookup_2.
Qed.

Lemma unify_spec df :
  is_empty df = false ->
  NoDup (columns df) -> COL_SORT_DATE ∉ columns df ->
  Forall text_row (rows df) ->
  let u := _unify_source_column df in
  is_empty u = false /\ NoDup (columns u) /\ (COL_SORT_DATE ∉ columns u)
  /\ Forall text_row (rows u)
  /\ (COL_SOURCE ∉ columns u -> Forall (fun c => ~ is_alias c) (columns u)).
Proof.
  intros Hne Hnd Hsort Htext. cbv zeta. unfold _unify_source_column.
  rewrite Hne. destruct (has_column COL_SOURCE df) eqn:Hs.
  { repeat split; try done. intros H. by apply has_column_true in Hs. }
  apply has_column_false in Hs.
  destruct (list_find _ _) as [[i col]|] eqn:E.
  - apply list_find_Some in E as (Hi & Hal & _).
    assert (col ∈ columns df) as Hcol by (by eapply list_elem_of_lookup_2).
    assert (col <> COL_NUMBER) as Hcn.
    { intros ->. by apply number_not_alias. }
    apply is_empty_false in Hne as [Hcols Hrows].
    split; [|split; [|split; [|split]]].
    + apply is_empty_false. cbn [columns rows rename_column].
      split; intros H; apply fmap_nil_inv in H; done.
    + cbn [columns rename_column]. apply NoDup_fmap_2_strong; [|done].
      intros x y Hx Hy. repeat case_bool_decide; congruence.
    + cbn [columns rename_column]. intros H.
      apply list_elem_of_fmap in H as (x & Hx & Hin).
      case_bool_decide; [by apply source_not_sort|]. congruence.
    + cbn [rows rename_column]. apply Forall_fmap.
      eapply Forall_impl; [exact Htext|]. intros r Hr' . unfold compose.
      destruct (r !! col) as [v|] eqn:Ev; [|done].
      intros c w Hw Hc. destruct (decide (c = COL_SOURCE)) as [->|Hne'].
      * rewrite lookup_insert_eq in Hw. injection Hw as <-.
        by apply (Hr' col v).
      * rewrite lookup_insert_ne in Hw by done.
        apply lookup_delete_Some in Hw as [_ Hw]. by apply (Hr' c w).
    + cbn [columns rename_column]. intros H. exfalso. apply H.
      apply list_elem_of_fmap. exists col. by rewrite bool_decide_eq_true_2.
  - apply list_find_None in E. repeat split; done.
Qed.

(** *** The parts put together *)

Lemma union_columns (dfs : list frame) acc :
  let cols :=
    fold_left (fun acc df => acc ++ filter (fun c => c ∉ acc) (columns df)) dfs acc in
  (NoDup acc -> Forall (fun df => NoDup (columns df)) dfs -> NoDup cols)
  /\ (forall c, c ∈ cols <-> c ∈ acc \/ exists df, df ∈ dfs /\ c ∈ columns df).
Proof.
  cbv zeta. revert acc. induction dfs as [|df dfs IH]; intros acc; simpl.
  - split; [done|]. intros c. split; [by left|].
    intros [H|(df & H & _)]; [done|]. by apply elem_of_nil in H.
  - destruct (IH (acc ++ filter (fun c => c ∉ acc) (columns df))) as [IH1 IH2].
    split.
    + intros Ha Hd. apply Forall_cons in Hd as [Hdf Hd]. apply IH1; [|done].
      apply NoDup_app. split; [done|]. split; [|by apply NoDup_filter].
      intros c Hc Hc'. apply list_elem_of_filter in Hc' as [Hn _]. done.
    + intros c. rewrite IH2, elem_of_app, list_elem_of_filter. split.
      * intros [[H|[_ H]]|(df' & Hin & H)]; [by left| |].
        -- right. exists df. split; [left|done].
        -- right. exists df'. split; [by right|done].
      * intros [H|(df' & Hin & H)]; [by left; left|].
        apply elem_of_cons in Hin as [->|Hin].
        -- destruct (decide (c ∈ acc)); [by left; left|]. left. right. done.
        -- right. exists df'. done.
Qed.

Lemma combine_spec parts :
  Forall part_ok parts ->
  let raw := _combine_parts parts in
  is_empty raw = false ->
  NoDup (columns raw) /\ (COL_SORT_DATE ∉ columns raw)
  /\ Forall text_row (rows raw).
Proof.
  intros Hparts. cbv zeta. unfold _combine_parts.
  set (dfs := filter (fun df => is_empty df = false) parts).
  assert (Forall part_ok dfs) as Hdfs.
  { apply Forall_forall. intros df Hdf. apply list_elem_of_filter in Hdf as [_ Hdf].
    rewrite Forall_forall in Hparts. by apply Hparts. }
  destruct dfs as [|df0 dfs'] eqn:E; [done|].
  rewrite <- E in *. clear E df0 dfs'. intros _.
  unfold concat. cbn [columns rows].
  destruct (union_columns dfs []) as [Hnd Hmem]. cbv zeta in Hnd, Hmem.
  split; [|split].
  - apply Hnd; [constructor|]. eapply Forall_impl; [exact Hdfs|].
    by intros df (H & _).
  - intros H. apply Hmem in H as [H|(df & Hdf & H)]; [by apply elem_of_nil in H|].
    rewrite Forall_forall in Hdfs. destruct (Hdfs df Hdf) as (_ & Hs & _). done.
  - apply Forall_bind. eapply Forall_impl; [exact Hdfs|].
    by intros df (_ & _ & H).
Qed.

Lemma combine_single df :
  is_empty df = false -> _combine_parts [df] = df.
Proof.
  intros H. unfold _combine_parts. rewrite filter_cons_True by done.
  rewrite filter_nil. unfold concat. cbn [fold_left app].
  rewrite bind_singleton.
  assert (filter (fun c => c ∉ []) (columns df) = columns df) as ->.
  { induction (columns df) as [|c l IH]; [done|].
    rewrite filter_cons_True by apply not_elem_of_nil. by rewrite IH. }
  apply frame_eta.
Qed.

(** *** The steps after the parts are put together *)

Lemma finish_spec df (fo : list Py.str) :
  is_empty df = false ->
  NoDup (columns df) -> COL_SORT_DATE ∉ columns df ->
  Forall text_row (rows df) -> NoDup fo ->
  let u := _unify_source_column df in
  let view := _apply_output_order (dedup u) fo in
  let dated :=
    has_column COL_DATE view
    && negb (to_datetime_raises ((fun r => cell_of r COL_DATE) <$> rows view)) in
  let X := filter (fun c => c <> COL_NUMBER) (columns view) in
  let width := length X + (if dated then 1 else 0) in
  let pos := number_position fo in
  exists kept,
    kept <> [] /\ Forall text_row kept /\ shuffled kept (rows view)
    /\ (COL_SOURCE ∈ columns u -> NoDup (link <$> kept))
    /\ columns view ≡ₚ columns (dedup u)
    /\ NoDup (columns view) /\ (COL_SORT_DATE ∉ columns view)
    /\ (pos <= width ->
        exists out,
          finish_ df fo = Py.Ok out
          /\ columns out ≡ₚ COL_NUMBER :: X
          /\ shuffled kept (rows out))
    /\ (width < pos -> finish_ df fo = Py.Raise Py.IndexError).
Proof.
  intros Hne Hnd Hsort Htext Hfo. cbv zeta.
  destruct (unify_spec df Hne Hnd Hsort Htext) as (Hune & Hund & Husort & Hutext & _).
  set (u := _unify_source_column df) in *.
  destruct (dedup_shuffled u) as (kept & Hsh & Hsub & Hkne & Hkeys).
  apply is_empty_false in Hune as [Hucols Hurows].
  specialize (Hkne Hurows).
  assert (Forall text_row kept) as Hktext.
  { apply Forall_forall. intros r Hr. rewrite Forall_forall in Hutext.
    by apply Hutext, Hsub. }
  assert (NoDup (columns (dedup u))) as Hdnd.
  { rewrite dedup_columns. destruct (has_column COL_SOURCE u); [|done].
    by apply NoDup_filter. }
  assert (COL_SORT_DATE ∉ columns (dedup u)) as Hdsort.
  { rewrite dedup_columns. destruct (has_column COL_SOURCE u); [|done].
    intros H. apply list_elem_of_filter in H as [_ H]. done. }
  assert (columns (dedup u) <> []) as Hdcols.
  { rewrite dedup_columns. destruct (has_column COL_SOURCE u) eqn:Hs; [|done].
    apply has_column_true in Hs. intros E.
    assert (COL_SOURCE ∈ filter (fun c => c <> COL_SRC_NORM) (columns u)) as Hin.
    { apply list_elem_of_filter. split; [apply source_not_norm|done]. }
    rewrite E in Hin. by apply elem_of_nil in Hin. }
  pose proof (order_columns (dedup u) fo Hdnd Hfo) as Hvcols.
  pose proof (order_rows (dedup u) fo) as Hvrows.
  set (view := _apply_output_order (dedup u) fo) in *.
  assert (is_empty view = false) as Hvne.
  { apply is_empty_false. split.
    - intros E. rewrite E in Hvcols. apply Permutation_nil_l in Hvcols. done.
    - rewrite Hvrows. intros E. apply shuffled_length in Hsh.
      rewrite E in Hsh. destruct kept; done. }
  assert (Forall text_row (rows view)) as Hvtext.
  { rewrite Hvrows. by apply (shuffled_text kept). }
  assert (COL_SORT_DATE ∉ columns view) as Hvsort.
  { intros H. apply Hdsort. by rewrite <- Hvcols. }
  exists kept. split; [done|]. split; [done|].
  split; [by rewrite Hvrows|].
  split; [intros H; apply Hkeys; by apply has_column_true|].
  split; [done|]. split; [by rewrite Hvcols|]. split; [done|].
  destruct (sort_renumber_spec view fo Hvne Hvtext Hvsort) as [Hok Hbad].
  cbv zeta in Hok, Hbad. unfold finish_, finish. fold u. fold dedup. fold view.
  split; [|done].
  intros Hpos. destruct (Hok Hpos) as (out & E & Hc & Hs).
  exists out. split; [done|]. split; [done|].
  apply (shuffled_trans _ (rows view)); [by rewrite Hvrows|done].
Qed.

(** C8.  When the aggregation of a set of parts returns a table, the
    aggregation of that table as the only part returns a table with the
    same number of records.  The parts are as [_read_part] gives them
    (distinct column labels, text or missing cells, no column with the
    name of the technical sort column), the column order lists each
    label once, and whether [to_datetime] raises on a column does not
    depend on the order of its cells. *)
Theorem aggregation_count_stable parts (fo : list Py.str) out1 :
  Forall part_ok parts ->
  NoDup fo ->
  (forall l l', l ≡ₚ l' -> to_datetime_raises l = to_datetime_raises l') ->
  build parts fo = Py.Ok out1 ->
  exists out2,
    build [out1] fo = Py.Ok out2 /\ length (rows out2) = length (rows out1).
Proof.
  intros Hparts Hfo Hraises H1. unfold build, _build_final_dataframe in *.
  cbv zeta in *.
  destruct (is_empty (_combine_parts parts)) eqn:Hraw.
  { injection H1 as <-. exists empty_frame. split; reflexivity. }
  destruct (combine_spec parts Hparts Hraw) as (Hnd & Hsort & Htext).
  set (raw := _combine_parts parts) in *.
  destruct (unify_spec raw Hraw Hnd Hsort Htext) as (_ & _ & _ & _ & Halias).
  destruct (finish_spec raw fo Hraw Hnd Hsort Htext Hfo)
    as (kept1 & Hk1 & Hkt1 & Hkv1 & Hkeys1 & Hvc1 & Hvnd1 & Hvs1 & Hok1 & Hbad1).
  cbv zeta in *.
  set (u1 := _unify_source_column raw) in *.
  set (view1 := _apply_output_order (dedup u1) fo) in *.
  set (X1 := filter (fun c => c <> COL_NUMBER) (columns view1)) in *.
  set (pos := number_position fo) in *.
  set (dated1 := has_column COL_DATE view1 && _) in *.
  destruct (Nat.le_gt_cases pos (length X1 + (if dated1 then 1 else 0)))
    as [Hpos|Hpos].
  2:{ unfold finish_ in Hbad1. rewrite (Hbad1 Hpos) in H1. done. }
  destruct (Hok1 Hpos) as (out & E & Hc1 & Hs1).
  unfold finish_ in E. rewrite E in H1. injection H1 as ->.
  clear Hok1 Hbad1 E.
  (* the first result as a part *)
  assert (COL_NUMBER ∉ X1) as HnX by apply filter_removes.
  assert (forall c, c <> COL_NUMBER -> (c ∈ columns out1 <-> c ∈ columns view1))
    as Hmem.
  { intros c Hc. rewrite Hc1, elem_of_cons. unfold X1.
    rewrite filter_keeps by done. split; [intros [?|?]; done|by right]. }
  assert (length (rows out1) = length kept1) as Hlen1
    by (by apply shuffled_length).
  assert (is_empty out1 = false) as Hne1.
  { apply is_empty_false. split.
    - intros E. rewrite E in Hc1. by apply Permutation_nil_cons in Hc1.
    - intros E. rewrite E in Hlen1. destruct kept1; done. }
  assert (NoDup (columns out1)) as Hnd1.
  { rewrite Hc1. apply NoDup_cons. split; [done|]. by apply NoDup_filter. }
  assert (COL_SORT_DATE ∉ columns out1) as Hsort1.
  { rewrite Hmem by apply sort_not_number. done. }
  assert (Forall text_row (rows out1)) as Htext1
    by (by apply (shuffled_text kept1)).
  assert (columns (dedup u1)
          = if has_column COL_SOURCE u1
            then filter (fun c => c <> COL_SRC_NORM) (columns u1)
            else columns u1) as Hdc1 by apply dedup_columns.
  assert (COL_SOURCE ∈ columns out1 <-> COL_SOURCE ∈ columns u1) as Hsrc.
  { rewrite Hmem by apply source_not_number. rewrite Hvc1, Hdc1.
    destruct (has_column COL_SOURCE u1); [|done].
    apply filter_keeps, source_not_norm. }
  assert (_unify_source_column out1 = out1) as Hu2.
  { apply unify_id. destruct (decide (COL_SOURCE ∈ columns u1)) as [Hs|Hs].
    - left. by apply Hsrc.
    - right. apply Forall_forall. intros c Hc.
      destruct (decide (c = COL_NUMBER)) as [->|Hcn]; [apply number_not_alias|].
      apply (Hmem c Hcn) in Hc. rewrite Hvc1, Hdc1 in Hc.
      rewrite (proj2 (has_column_false _ _) Hs) in Hc.
      specialize (Halias Hs). rewrite Forall_forall in Halias.
      by apply Halias. }
  assert (columns (dedup out1) = columns out1) as Hdc2.
  { rewrite dedup_columns. destruct (has_column COL_SOURCE out1) eqn:Hs; [|done].
    apply filter_absent. apply has_column_true, Hsrc in Hs.
    rewrite Hmem by apply norm_not_number. rewrite Hvc1, Hdc1.
    rewrite (proj2 (has_column_true _ _) Hs). apply filter_removes. }
  assert (shuffled (rows out1) (rows (dedup out1))) as Hd2.
  { apply dedup_keeps_all.
    destruct (has_column COL_SOURCE out1) eqn:Hs; [right|by left].
    apply has_column_true, Hsrc in Hs.
    unfold link. rewrite (shuffled_keys normalize kept1 _ COL_SOURCE Hs1 source_free).
    by apply Hkeys1. }
  (* the second run *)
  rewrite (combine_single out1 Hne1), Hne1.
  destruct (finish_spec out1 fo Hne1 Hnd1 Hsort1 Htext1 Hfo)
    as (kept2 & _ & _ & Hkv2 & _ & Hvc2 & _ & _ & Hok2 & _).
  cbv zeta in *. rewrite Hu2 in *.
  set (view2 := _apply_output_order (dedup out1) fo) in *.
  assert (rows view2 = rows (dedup out1)) as Hvr2 by apply order_rows.
  assert (rows view1 = rows (dedup u1)) as Hvr1 by apply order_rows.
  assert (filter (fun c => c <> COL_NUMBER) (columns view2) ≡ₚ X1) as HX2.
  { rewrite Hvc2, Hdc2, Hc1. rewrite filter_cons_False by (intros H; by apply H).
    by rewrite filter_absent. }
  assert (has_column COL_DATE view2 = has_column COL_DATE view1) as Hhd.
  { unfold has_column. apply bool_decide_ext.
    rewrite Hvc2, Hdc2. apply Hmem, date_not_number. }
  assert ((fun r => cell_of r COL_DATE) <$> rows view2
          ≡ₚ (fun r => cell_of r COL_DATE) <$> rows view1) as Hdates.
  { rewrite Hvr2.
    rewrite (shuffled_cells _ _ COL_DATE Hd2 date_free).
    rewrite (shuffled_cells _ _ COL_DATE Hs1 date_free).
    by rewrite (shuffled_cells _ _ COL_DATE Hkv1 date_free). }
  rewrite Hhd, (Hraises _ _ Hdates), HX2 in Hok2. fold dated1 in Hok2.
  destruct (Hok2 Hpos) as (out2 & E2 & _ & Hs2).
  exists out2. split; [exact E2|].
  rewrite (shuffled_length _ _ Hs2), <- (shuffled_length _ _ Hkv2), Hvr2.
  by apply shuffled_length.
Qed.

End Aggregation.

Lemma text_record_row l : text_row (text_record l).
Proof.
  intros c v H _. unfold text_record in H.
  apply elem_of_list_to_map_2, list_elem_of_fmap in H as (kv & E & _).
  injection E as _ ->. exact I.
Qed.

Lemma sample_part_ok : part_ok sample_part.
Proof.
  split; [|split].
  - apply (bool_decide_unpack _). by vm_compute.
  - apply (bool_decide_unpack _). by vm_compute.
  - cbn [rows sample_part]. repeat constructor; apply text_record_row.
Qed.

Lemma aggregation_count_stable_witness :
  exists out1 out2,
    toy_build [sample_part] [Py.lit "CVE"; Py.lit "№"] = Py.Ok out1
    /\ toy_build [out1] [Py.lit "CVE"; Py.lit "№"] = Py.Ok out2
    /\ length (rows out1) = 2
    /\ length (rows out2) = length (rows out1).
Proof.
  destruct (toy_build [sample_part] [Py.lit "CVE"; Py.lit "№"])
    as [out1|e] eqn:E1; [|vm_compute in E1; discriminate].
  assert (NoDup [Py.lit "CVE"; Py.lit "№"]) as Hfo
    by (apply (bool_decide_unpack _); by vm_compute).
  destruct (aggregation_count_stable
              toy_urlsplit toy_parse_qsl toy_urlencode toy_urlunsplit
              (fun _ => false) toy_to_datetime
              [sample_part] [Py.lit "CVE"; Py.lit "№"] out1
              (Forall_cons_2 _ _ _ sample_part_ok (Forall_nil_2 _))
              Hfo (fun _ _ _ => eq_refl) E1) as (out2 & E2 & Hlen).
  exists out1, out2. split; [reflexivity|]. split; [exact E2|]. split; [|exact Hlen].
  vm_compute in E1. injection E1 as <-. reflexivity.
Defined.

End AggregationFacts.
